(** * terraform-aws-slackbot: the Lambda entry point and its listeners

    A shallow embedding of [lambda/index.py], [lambda/listeners/llm_caller.py]
    and [lambda/listeners/assistant.py], and what is proved of them.

    Definitions:
    - [Py]        Python values as the code sees them (what arrives in a
                  Lambda event is JSON-shaped), the exceptions its
                  operators raise, and an error monad with an effect trace.
    - [Re]        the fragment of Python's [re] that [markdown_to_slack]
                  uses: a backtracking matcher, [re.sub] and [re.split].
    - [Index]     [lambda/index.py], over the [json] module, the queue
                  and the Slack handler as parameters.
    - [MiniJson]  a concrete JSON reader and writer.
    - [LlmCaller], [Assistant]  the two listeners, over the Bedrock and
                  Slack clients as parameters.
    - [Concrete]  one platform and sample inputs, to run the code.

    Facts: [JsonFacts] (the reader undoes the writer), [IndexFacts],
    [ReFacts] (the matcher is sound, and blind to what lies behind where
    the pattern does not look there), [TranscoderFacts], [StreamFacts],
    [AssistantFacts]; then [IndexExtra], [TranscoderExtra], [StreamExtra],
    [AssistantExtra] and [ThreadStartExtra] on what these leave out.

    Strings are sequences of 8-bit characters, each standing for one code
    point below 256. *)

From Stdlib Require Import String Ascii List ZArith Bool Lia.
From Stdlib Require Import DecimalString.
From Stdlib Require DecimalPos DecimalFacts.
Import ListNotations.
Set Warnings "-register-all".
Local Open Scope string_scope.
Local Open Scope list_scope.

(* ===================================================================== *)
(** * Python values, exceptions and effects *)
(* ===================================================================== *)

Module Py.

(** The exceptions the modelled code can meet. *)
Inductive exn : Type :=
| IndexError
| KeyError
| TypeError
| AttributeError
| JSONDecodeError
| SlackApiError (error : string)
| OtherError (what : string).

(** A computation either returns or raises. *)
Inductive outcome (A : Type) : Type :=
| Return (a : A)
| Raise (e : exn).
Arguments Return {A} a.
Arguments Raise {A} e.

Definition bind {A B : Type} (m : outcome A) (k : A -> outcome B) : outcome B :=
  match m with
  | Return a => k a
  | Raise e => Raise e
  end.

Declare Scope py_scope.
Delimit Scope py_scope with py.
Notation "x <- m ;; k" := (bind m (fun x => k))
  (at level 61, m at next level, right associativity) : py_scope.

(** JSON-shaped Python values.  A [dict] keeps its insertion order; its
    keys are strings, as in every value that [json.loads] builds.  Floats
    are left out: the operators below treat a float as they treat an
    int. *)
Inductive value : Type :=
| VNone
| VBool (b : bool)
| VInt (z : Z)
| VStr (s : string)
| VList (l : list value)
| VDict (d : list (string * value)).

Definition dict : Type := list (string * value).

(** [bool(v)] *)
Definition truthy (v : value) : bool :=
  match v with
  | VNone => false
  | VBool b => b
  | VInt z => negb (Z.eqb z 0)
  | VStr s => negb (String.eqb s "")
  | VList l => match l with [] => false | _ => true end
  | VDict d => match d with [] => false | _ => true end
  end.

(** [d.get(key)] on a real dict, [None] when the key is absent. *)
Fixpoint dict_lookup (key : string) (d : dict) : option value :=
  match d with
  | [] => None
  | (k, v) :: rest => if String.eqb k key then Some v else dict_lookup key rest
  end.

(** [key in d] on a real dict. *)
Definition dict_mem (key : string) (d : dict) : bool :=
  match dict_lookup key d with Some _ => true | None => false end.

Definition dict_get (d : dict) (key : string) (default : value) : value :=
  match dict_lookup key d with Some v => v | None => default end.

(** [v == "lit"] : only a string equals a string. *)
Definition eq_str (v : value) (lit : string) : bool :=
  match v with
  | VStr s => String.eqb s lit
  | _ => false
  end.

(** [v is None] *)
Definition is_none (v : value) : bool :=
  match v with VNone => true | _ => false end.

(** [needle in hay] on two strings: substring test. *)
Fixpoint substring_of (needle hay : string) : bool :=
  String.prefix needle hay
  || match hay with
     | EmptyString => false
     | String _ hay' => substring_of needle hay'
     end.

(** [key in container], for a string [key]. *)
Definition contains (key : string) (container : value) : outcome bool :=
  match container with
  | VDict d => Return (dict_mem key d)
  | VList l => Return (existsb (fun x => eq_str x key) l)
  | VStr s => Return (substring_of key s)
  | VNone | VBool _ | VInt _ => Raise TypeError
  end.

(** [obj.get(key, default)] : only dicts have the method. *)
Definition get (obj : value) (key : string) (default : value) : outcome value :=
  match obj with
  | VDict d => Return (dict_get d key default)
  | _ => Raise AttributeError
  end.

(** [obj[key]] for a string [key]. *)
Definition getitem (obj : value) (key : string) : outcome value :=
  match obj with
  | VDict d =>
      match dict_lookup key d with
      | Some v => Return v
      | None => Raise KeyError
      end
  | _ => Raise TypeError
  end.

(** [obj[0]] *)
Definition getitem0 (obj : value) : outcome value :=
  match obj with
  | VList [] => Raise IndexError
  | VList (x :: _) => Return x
  | VStr EmptyString => Raise IndexError
  | VStr (String c _) => Return (VStr (String c EmptyString))
  | VDict _ => Raise KeyError
  | VNone | VBool _ | VInt _ => Raise TypeError
  end.

(** What the code does to the outside world, in order. *)
Inductive effect : Type :=
| SqsSendMessage (queue_url body : string) (group_id : option string)
| SlackHandle (event : value)
| BatchProcess (event : value)
| ConverseStream (messages : list value) (system : string)
| ChatStreamOpen (channel thread_ts team_id user_id : value)
| StreamNext (event : value)
| StreamerAppend (markdown_text : string)
| StreamerStop
| ConversationsReplies (channel ts oldest : value) (limit : Z)
| ConversationsHistory (channel : value) (limit : Z)
| ConversationsJoin (channel : value)
| GetThreadContext
| SetStatus (status : string)
| Say (text : string)
| LogStopReason (reason : value)
| LogUsage (input_tokens output_tokens total_tokens : value).

(** A run: the effects performed so far, and how it ended. *)
Definition run (A : Type) : Type := list effect * outcome A.

Definition ret {A : Type} (a : A) : run A := ([], Return a).
Definition throw {A : Type} (e : exn) : run A := ([], Raise e).
Definition emit (e : effect) : run unit := ([e], Return tt).
Definition lift {A : Type} (m : outcome A) : run A := ([], m).

Definition rbind {A B : Type} (m : run A) (k : A -> run B) : run B :=
  match m with
  | (t, Return a) => let (t', r) := k a in (t ++ t', r)
  | (t, Raise e) => (t, Raise e)
  end.

Declare Scope run_scope.
Delimit Scope run_scope with run.
Notation "x <~ m ;; k" := (rbind m (fun x => k))
  (at level 61, m at next level, right associativity) : run_scope.
Notation "m ;;; k" := (rbind m (fun _ => k))
  (at level 61, right associativity) : run_scope.

(** [try: m except Exception: h] *)
Definition try_except {A : Type} (m : run A) (h : exn -> run A) : run A :=
  match m with
  | (t, Return a) => (t, Return a)
  | (t, Raise e) => let (t', r) := h e in (t ++ t', r)
  end.

End Py.

Import Py.
Local Open Scope py_scope.

(* ===================================================================== *)
(** * The fragment of Python's [re] used by the transcoder *)
(* ===================================================================== *)

Module Re.

(** Texts are sequences of characters, each standing for one code point
    below 256. *)
Definition text : Type := list ascii.

Definition newline : ascii := "010"%char.

(** Character classes, as they are written in the patterns. *)
Inductive cclass : Type :=
| CAny                        (* [.] under the [(?s)] flag *)
| CSpace                      (* [\s] *)
| COneOf (cs : list ascii)    (* [[...]] *)
| CNoneOf (cs : list ascii).  (* [[^...]] *)

Definition mem_ascii (c : ascii) (cs : list ascii) : bool :=
  existsb (Ascii.eqb c) cs.

(** [str.isspace] on one code point below 256: tab to carriage return,
    the four separators 28 to 31, the space, NEL and the no-break space. *)
Definition is_space (c : ascii) : bool :=
  let n := nat_of_ascii c in
  ((9 <=? n) && (n <=? 13) || (28 <=? n) && (n <=? 32)
   || (n =? 133) || (n =? 160))%nat.

Definition cmatch (cl : cclass) (c : ascii) : bool :=
  match cl with
  | CAny => true
  | CSpace => is_space c
  | COneOf cs => mem_ascii c cs
  | CNoneOf cs => negb (mem_ascii c cs)
  end.

(** The pattern constructs that occur in [markdown_to_slack]. *)
Inductive regex : Type :=
| Eps
| Lit (c : ascii)
| LazyPlus (cl : cclass)      (* [cl+?] *)
| NotAhead (cl : cclass)      (* [(?!cl)] *)
| NotBehind (cl : cclass)     (* [(?<!cl)] *)
| Seq (r1 r2 : regex)
| Alt (r1 r2 : regex)
| Group (r : regex).          (* the capture group, numbered 1 *)

Declare Scope re_scope.
Delimit Scope re_scope with re.
Infix ">>" := Seq (at level 60, right associativity) : re_scope.

(** A literal string, character by character. *)
Fixpoint lits (s : string) : regex :=
  match s with
  | EmptyString => Eps
  | String c s' => Seq (Lit c) (lits s')
  end.

(** Where the matcher stands: the characters behind it (nearest first),
    the characters ahead, and what group 1 last captured. *)
Record mstate : Type := MState {
  behind : text;
  ahead : text;
  group1 : text
}.

(** What was consumed between an earlier state and a later one. *)
Definition consumed (from to : mstate) : text :=
  rev (firstn (length (behind to) - length (behind from)) (behind to)).

(** [cl+?] : take one character, then try the rest of the pattern before
    taking another. *)
Fixpoint lazy_plus (cl : cclass) (b a g : text)
    (k : mstate -> option mstate) : option mstate :=
  match a with
  | [] => None
  | c :: a' =>
      if cmatch cl c then
        match k (MState (c :: b) a' g) with
        | Some m => Some m
        | None => lazy_plus cl (c :: b) a' g k
        end
      else None
  end.

(** Backtracking matcher in continuation-passing style: alternatives are
    tried left to right, and the first complete match wins. *)
Fixpoint rmatch (r : regex) (s : mstate)
    (k : mstate -> option mstate) : option mstate :=
  match r with
  | Eps => k s
  | Lit c =>
      match ahead s with
      | c' :: a' =>
          if Ascii.eqb c c' then k (MState (c' :: behind s) a' (group1 s))
          else None
      | [] => None
      end
  | LazyPlus cl => lazy_plus cl (behind s) (ahead s) (group1 s) k
  | NotAhead cl =>
      match ahead s with
      | c :: _ => if cmatch cl c then None else k s
      | [] => k s
      end
  | NotBehind cl =>
      match behind s with
      | c :: _ => if cmatch cl c then None else k s
      | [] => k s
      end
  | Seq r1 r2 => rmatch r1 s (fun s' => rmatch r2 s' k)
  | Alt r1 r2 =>
      match rmatch r1 s k with
      | Some m => Some m
      | None => rmatch r2 s k
      end
  | Group r' =>
      rmatch r' s
        (fun s' => k (MState (behind s') (ahead s') (consumed s s')))
  end.

(** What a pattern stands for, apart from the order in which the matcher
    tries things: [lang r b w rest g g'] says that [r] can consume [w]
    with [b] behind it and [rest] after it, taking group 1 from [g] to
    [g']. *)
Fixpoint lang (r : regex) (b w rest g g' : text) : Prop :=
  match r with
  | Eps => w = [] /\ g' = g
  | Lit c => w = [c] /\ g' = g
  | LazyPlus cl => w <> [] /\ forallb (cmatch cl) w = true /\ g' = g
  | NotAhead cl =>
      w = [] /\ g' = g
      /\ match rest with c :: _ => cmatch cl c = false | [] => True end
  | NotBehind cl =>
      w = [] /\ g' = g
      /\ match b with c :: _ => cmatch cl c = false | [] => True end
  | Seq r1 r2 =>
      exists w1 w2 g1,
        w = w1 ++ w2
        /\ lang r1 b w1 (w2 ++ rest) g g1
        /\ lang r2 (rev w1 ++ b) w2 rest g1 g'
  | Alt r1 r2 => lang r1 b w rest g g' \/ lang r2 b w rest g g'
  | Group r' => (exists g0, lang r' b w rest g g0) /\ g' = w
  end.

(** A match that starts exactly here. *)
Definition match_here (r : regex) (b a : text) : option mstate :=
  rmatch r (MState b a []) (fun m => Some m).

(** Length of a match that starts with [b] behind and ends in state [m]. *)
Definition match_length (b : text) (m : mstate) : nat :=
  length (behind m) - length b.

(** A replacement template: literal text and references to group 1. *)
Inductive titem : Type :=
| TText (s : string)
| TGroup1.

Fixpoint expand (template : list titem) (g : text) : text :=
  match template with
  | [] => []
  | TText s :: rest => list_ascii_of_string s ++ expand rest g
  | TGroup1 :: rest => g ++ expand rest g
  end.

(** [re.sub] scanning left to right.  [skip] counts the characters of the
    current match that are still to be passed over; when it is zero a
    match is tried here, and a character that starts no match is copied. *)
Fixpoint sub_scan (r : regex) (template : list titem)
    (b a : text) (skip : nat) : text :=
  match a with
  | [] =>
      match skip with
      | S _ => []
      | O =>
          match match_here r b [] with
          | Some m => expand template (group1 m)
          | None => []
          end
      end
  | c :: a' =>
      match skip with
      | S n => sub_scan r template (c :: b) a' n
      | O =>
          match match_here r b a with
          | Some m =>
              match match_length b m with
              | O => expand template (group1 m)
                       ++ c :: sub_scan r template (c :: b) a' 0
              | S n => expand template (group1 m)
                         ++ sub_scan r template (c :: b) a' n
              end
          | None => c :: sub_scan r template (c :: b) a' 0
          end
      end
  end.

(** [re.sub(pattern, repl, string)] *)
Definition sub (r : regex) (template : list titem) (s : string) : string :=
  string_of_list_ascii (sub_scan r template [] (list_ascii_of_string s) 0).

(** [re.split] for a pattern with one capture group: the text before each
    match, then what the group captured, and the remaining text last. *)
Fixpoint split_scan (r : regex) (b a : text) (skip : nat)
    (cur : text) : list text :=
  match a with
  | [] =>
      match skip with
      | S _ => [rev cur]
      | O =>
          match match_here r b [] with
          | Some m => [rev cur; group1 m; []]
          | None => [rev cur]
          end
      end
  | c :: a' =>
      match skip with
      | S n => split_scan r (c :: b) a' n cur
      | O =>
          match match_here r b a with
          | Some m =>
              match match_length b m with
              | O => rev cur :: group1 m
                       :: split_scan r (c :: b) a' 0 [c]
              | S n => rev cur :: group1 m
                         :: split_scan r (c :: b) a' n []
              end
          | None => split_scan r (c :: b) a' 0 (c :: cur)
          end
      end
  end.

(** [re.split(pattern, string)] *)
Definition split (r : regex) (s : string) : list string :=
  map string_of_list_ascii (split_scan r [] (list_ascii_of_string s) 0 []).

(** A pattern that never looks behind. *)
Fixpoint behind_free (r : regex) : bool :=
  match r with
  | NotBehind _ => false
  | Seq r1 r2 | Alt r1 r2 => behind_free r1 && behind_free r2
  | Group r' => behind_free r'
  | Eps | Lit _ | LazyPlus _ | NotAhead _ => true
  end.

(** Two results of the matcher that differ only in what lay behind the
    place where the match began: [b] for the one, [b'] for the other. *)
Definition shifted (b b' : text) (o o' : option mstate) : Prop :=
  match o, o' with
  | Some m, Some m' =>
      ahead m = ahead m' /\ group1 m = group1 m'
      /\ exists w, behind m = w ++ b /\ behind m' = w ++ b'
  | None, None => True
  | _, _ => False
  end.

End Re.

(* ===================================================================== *)
(** * lambda/index.py *)
(* ===================================================================== *)

Module Index.

(** [detect_event_type(event)] *)
Definition detect_event_type (event : dict) : outcome string :=
  if dict_mem "requestContext" event then
    request_context <- getitem (VDict event) "requestContext" ;;
    has_http <- contains "http" request_context ;;
    is_function_url <-
      (if has_http
       then domain <- get request_context "domainName" VNone ;;
            Return (truthy domain)
       else Return false) ;;
    if is_function_url then Return "function_url"
    else
      has_http' <- contains "http" request_context ;;
      if has_http' then Return "api_gateway_v2"
      else
        nested <- contains "httpMethod" request_context ;;
        if nested || dict_mem "httpMethod" event
        then Return "api_gateway_v1"
        else Return "unknown"
  else Return "unknown".

(** The test of Path 1 in [handler]:
    ["Records" in event and
     event.get("Records", [{}])[0].get("eventSource") == "aws:sqs"]. *)
Definition is_sqs_batch (event : dict) : outcome bool :=
  if dict_mem "Records" event then
    first <- getitem0 (dict_get event "Records" (VList [VDict []])) ;;
    source <- get first "eventSource" VNone ;;
    Return (eq_str source "aws:sqs")
  else Return false.

(** What the entry point reaches outside this repository: the [json]
    module, the queue client, Slack Bolt's request handler and Powertools'
    batch driver.  [None] from [json_loads] stands for [JSONDecodeError];
    the other members give the answer of a call, its effect being
    recorded by the caller. *)
Class Platform : Type := {
  json_loads : string -> option value;
  json_dumps : value -> string;
  sqs_send_message : string -> string -> option string -> outcome unit;
  slack_handle : value -> outcome value;
  process_partial_response : dict -> (value -> run unit) -> run value
}.

(** [os.environ], as far as the handler reads it. *)
Record environ : Type := Environ {
  SQS_QUEUE_URL : option string
}.

(** The Lambda context object, as far as the handler reads it. *)
Record lambda_context : Type := LambdaContext {
  aws_request_id : string
}.

Local Open Scope run_scope.

(** [json.loads(x)] for any value [x]: only text can be decoded. *)
Definition loads `{Platform} (x : value) : outcome value :=
  match x with
  | VStr s =>
      match json_loads s with
      | Some v => Return v
      | None => Raise JSONDecodeError
      end
  | _ => Raise TypeError
  end.

(** Line 41 of [record_handler]: [json.loads(record.body)], where the
    [body] of an [SQSRecord] is [record["body"]]. *)
Definition original_event `{Platform} (record : value) : outcome value :=
  body <- getitem record "body" ;;
  loads body.

(** [a or b] on two computed values. *)
Definition py_or (a : value) (b : outcome value) : outcome value :=
  if truthy a then Return a else b.

(** The value logged as [event_type] by [record_handler]. *)
Definition logged_method (original : value) : outcome value :=
  rc <- get original "requestContext" (VDict []) ;;
  http <- get rc "http" (VDict []) ;;
  method <- get http "method" VNone ;;
  py_or method
        (rc' <- get original "requestContext" (VDict []) ;;
         get rc' "httpMethod" VNone).

(** [record_handler(record, context)] *)
Definition record_handler `{Platform} (record : value)
    (context : lambda_context) : run unit :=
  original <~ lift (original_event record) ;;
  _ <~ lift (logged_method original) ;;
  emit (SlackHandle original) ;;;
  response <~ lift (slack_handle original) ;;
  _ <~ lift (get response "statusCode" VNone) ;;
  ret tt.

(** [typed_event.body] : both Powertools data classes read the [body]
    entry of the wrapped event, [None] when it is absent. *)
Definition typed_event_body (event : dict) : value :=
  dict_get event "body" VNone.

(** The reply to Slack's URL verification. *)
Definition challenge_response (challenge : value) : value :=
  VDict [ ("statusCode", VInt 200);
          ("headers", VDict [("x-slack-no-retry", VStr "1")]);
          ("body", challenge) ].

(** The [try] block of lines 107 to 118: [Some response] when it returns
    from the handler, [None] when control goes on below it. *)
Definition url_verification `{Platform} (body : value)
    : outcome (option value) :=
  match body with
  | VStr s =>
      match json_loads s with
      | None => Return None
      | Some body_json =>
          type <- get body_json "type" VNone ;;
          if eq_str type "url_verification" then
            challenge <- get body_json "challenge" VNone ;;
            Return (Some (challenge_response challenge))
          else Return None
      end
  | _ => Raise TypeError
  end.

(** [queue_url.endswith(".fifo")] *)
Definition endswith (suffix s : string) : bool :=
  let n := String.length suffix in
  let m := String.length s in
  (n <=? m)%nat && String.eqb (String.substring (m - n) n s) suffix.

Definition accepted : value :=
  VDict [("statusCode", VInt 200); ("body", VStr "")].

Definition unknown_event_type : value :=
  VDict [("statusCode", VInt 400); ("body", VStr "Unknown event type")].

(** The tests of lines 95 and 98: the types [handler] goes on with, each
    read through a Powertools data class with the same [body]. *)
Definition webhook_type (event_type : string) : bool :=
  String.eqb event_type "function_url"
  || existsb (String.eqb event_type) ["api_gateway_v1"; "api_gateway_v2"].

(** [handler(event, context)] *)
Definition handler `{Platform} (env : environ) (event : dict)
    (context : lambda_context) : run value :=
  batch <~ lift (is_sqs_batch event) ;;
  if batch then
    emit (BatchProcess (VDict event)) ;;;
    process_partial_response event
      (fun record => record_handler record context)
  else
    event_type <~ lift (detect_event_type event) ;;
    if webhook_type event_type then
      let body := typed_event_body event in
      verification <~ (if truthy body then lift (url_verification body)
                       else ret None) ;;
      match verification with
      | Some response => ret response
      | None =>
          match SQS_QUEUE_URL env with
          | Some queue_url =>
              if negb (String.eqb queue_url "") then
                let group :=
                  if endswith ".fifo" queue_url
                  then Some (aws_request_id context) else None in
                let message := json_dumps (VDict event) in
                emit (SqsSendMessage queue_url message group) ;;;
                lift (sqs_send_message queue_url message group) ;;;
                ret accepted
              else
                emit (SlackHandle (VDict event)) ;;;
                lift (slack_handle (VDict event))
          | None =>
              emit (SlackHandle (VDict event)) ;;;
              lift (slack_handle (VDict event))
          end
      end
    else ret unknown_event_type.

End Index.

(* ===================================================================== *)
(** * A concrete JSON reader and writer *)
(* ===================================================================== *)

(** The code reaches JSON only through [json.loads] and [json.dumps], which
    [Index] takes as parameters.  This module gives one concrete pair, with
    the output format of Python's defaults, for the values of [Py], which
    have no float.  The writer is [json.dumps] on every such value.  The
    reader is [json.loads] on the texts that hold no number with a
    fraction or an exponent, no [NaN] or [Infinity], and no escape of a
    code point above 255: Python reads the other texts into values that
    [Py] does not have, and the reader has no answer that would be right
    there.  It answers [None] on them, as it does on a text that is no
    JSON, and that is not what Python does; so it is evaluated below only
    on what the writer wrote and on the literal texts of the sample
    inputs, which are all in its domain, and no statement is made of it
    on an arbitrary text. *)
Module MiniJson.

Definition text : Type := list ascii.

Definition dquote : ascii := "034"%char.
Definition backslash : ascii := "\"%char.

Definition is_ws (c : ascii) : bool :=
  let n := nat_of_ascii c in
  ((n =? 32) || (n =? 9) || (n =? 10) || (n =? 13))%nat.

Fixpoint skip_ws (s : text) : text :=
  match s with
  | c :: s' => if is_ws c then skip_ws s' else s
  | [] => []
  end.

Definition is_digit (c : ascii) : bool :=
  let n := nat_of_ascii c in ((48 <=? n) && (n <=? 57))%nat.

Definition digit_value (c : ascii) : Z := Z.of_nat (nat_of_ascii c) - 48.

(** The digits at the front of [s], read into [acc]. *)
Fixpoint read_digits (s : text) (acc : Z) : Z * text :=
  match s with
  | c :: s' =>
      if is_digit c then read_digits s' (10 * acc + digit_value c)
      else (acc, s)
  | [] => (acc, [])
  end.

(** After the integer part, a fraction or an exponent would make a float. *)
Definition starts_float_tail (s : text) : bool :=
  match s with
  | c :: _ => Ascii.eqb c "." || Ascii.eqb c "e" || Ascii.eqb c "E"
  | [] => false
  end.

(** [0|[1-9][0-9]*] *)
Definition read_nat (s : text) : option (Z * text) :=
  match s with
  | c :: s' =>
      if Ascii.eqb c "0" then
        if starts_float_tail s' then None else Some (0%Z, s')
      else if is_digit c then
        let (n, rest) := read_digits s 0 in
        if starts_float_tail rest then None else Some (n, rest)
      else None
  | [] => None
  end.

Definition hex_value (c : ascii) : option nat :=
  let n := nat_of_ascii c in
  if ((48 <=? n) && (n <=? 57))%nat then Some (n - 48)%nat
  else if ((97 <=? n) && (n <=? 102))%nat then Some (n - 87)%nat
  else if ((65 <=? n) && (n <=? 70))%nat then Some (n - 55)%nat
  else None.

(** The inside of a string literal, up to its closing quote. *)
Fixpoint read_string (s : text) (acc : text) : option (string * text) :=
  match s with
  | [] => None
  | c :: s' =>
      if Ascii.eqb c dquote then Some (string_of_list_ascii (rev acc), s')
      else if Ascii.eqb c backslash then
        match s' with
        | e :: s'' =>
            if Ascii.eqb e "u" then
              match s'' with
              | h1 :: h2 :: h3 :: h4 :: s3 =>
                  match hex_value h1, hex_value h2, hex_value h3, hex_value h4 with
                  | Some 0%nat, Some 0%nat, Some a, Some b =>
                      read_string s3 (ascii_of_nat (16 * a + b) :: acc)
                  | _, _, _, _ => None
                  end
              | _ => None
              end
            else
              let plain (c' : ascii) := read_string s'' (c' :: acc) in
              if Ascii.eqb e dquote then plain dquote
              else if Ascii.eqb e backslash then plain backslash
              else if Ascii.eqb e "/" then plain "/"%char
              else if Ascii.eqb e "b" then plain "008"%char
              else if Ascii.eqb e "f" then plain "012"%char
              else if Ascii.eqb e "n" then plain "010"%char
              else if Ascii.eqb e "r" then plain "013"%char
              else if Ascii.eqb e "t" then plain "009"%char
              else None
        | [] => None
        end
      else if (nat_of_ascii c <? 32)%nat then None
      else read_string s' (c :: acc)
  end.

(** [d[key] = v] : a key already there keeps its place. *)
Fixpoint dict_set (d : dict) (key : string) (v : value) : dict :=
  match d with
  | [] => [(key, v)]
  | (k, old) :: rest =>
      if String.eqb k key then (k, v) :: rest
      else (k, old) :: dict_set rest key v
  end.

Definition dict_of_pairs (pairs : list (string * value)) : dict :=
  fold_left (fun d kv => dict_set d (fst kv) (snd kv)) pairs [].

Definition starts_with (lit : string) (s : text) : option text :=
  let l := list_ascii_of_string lit in
  if String.eqb (string_of_list_ascii (firstn (length l) s)) lit
  then Some (skipn (length l) s) else None.

(** The elements of an array after the first [[]: [pv] reads one value. *)
Fixpoint read_items (pv : text -> option (value * text)) (fuel : nat)
    (s : text) (acc : list value) : option (list value * text) :=
  match fuel with
  | O => None
  | S fuel' =>
      match pv s with
      | Some (v, s1) =>
          match skip_ws s1 with
          | c :: s2 =>
              if Ascii.eqb c "," then read_items pv fuel' (skip_ws s2) (v :: acc)
              else if Ascii.eqb c "]" then Some (rev (v :: acc), s2)
              else None
          | [] => None
          end
      | None => None
      end
  end.

(** The members of an object, each a string, a colon and a value. *)
Fixpoint read_members (pv : text -> option (value * text)) (fuel : nat)
    (s : text) (acc : list (string * value))
    : option (list (string * value) * text) :=
  match fuel with
  | O => None
  | S fuel' =>
      match s with
      | q :: s0 =>
          if Ascii.eqb q dquote then
            match read_string s0 [] with
            | Some (key, s1) =>
                match skip_ws s1 with
                | colon :: s2 =>
                    if Ascii.eqb colon ":" then
                      match pv (skip_ws s2) with
                      | Some (v, s3) =>
                          match skip_ws s3 with
                          | c :: s4 =>
                              if Ascii.eqb c "," then
                                read_members pv fuel' (skip_ws s4)
                                             ((key, v) :: acc)
                              else if Ascii.eqb c "}" then
                                Some (rev ((key, v) :: acc), s4)
                              else None
                          | [] => None
                          end
                      | None => None
                      end
                    else None
                | [] => None
                end
            | None => None
            end
          else None
      | [] => None
      end
  end.

(** One JSON value at the front of [s], and what follows it. *)
Fixpoint read_value (fuel : nat) (s : text) : option (value * text) :=
  match fuel with
  | O => None
  | S fuel' =>
      match s with
      | [] => None
      | c :: s' =>
          if Ascii.eqb c dquote then
            match read_string s' [] with
            | Some (str, rest) => Some (VStr str, rest)
            | None => None
            end
          else if Ascii.eqb c "[" then
            match skip_ws s' with
            | c' :: rest =>
                if Ascii.eqb c' "]" then Some (VList [], rest)
                else
                  match read_items (read_value fuel') fuel' (c' :: rest) [] with
                  | Some (l, rest') => Some (VList l, rest')
                  | None => None
                  end
            | [] => None
            end
          else if Ascii.eqb c "{" then
            match skip_ws s' with
            | c' :: rest =>
                if Ascii.eqb c' "}" then Some (VDict [], rest)
                else
                  match read_members (read_value fuel') fuel' (c' :: rest) [] with
                  | Some (pairs, rest') => Some (VDict (dict_of_pairs pairs), rest')
                  | None => None
                  end
            | [] => None
            end
          else if Ascii.eqb c "-" then
            match read_nat s' with
            | Some (n, rest) => Some (VInt (- n), rest)
            | None => None
            end
          else if is_digit c then
            match read_nat s with
            | Some (n, rest) => Some (VInt n, rest)
            | None => None
            end
          else
            match starts_with "null" s with
            | Some rest => Some (VNone, rest)
            | None =>
                match starts_with "true" s with
                | Some rest => Some (VBool true, rest)
                | None =>
                    match starts_with "false" s with
                    | Some rest => Some (VBool false, rest)
                    | None => None
                    end
                end
            end
      end
  end.

(** [json.loads(s)] for a text [s] without floats (see above): [None]
    stands for [JSONDecodeError]. *)
Definition loads (s : string) : option value :=
  let t := list_ascii_of_string s in
  match read_value (S (length t)) (skip_ws t) with
  | Some (v, rest) =>
      match skip_ws rest with
      | [] => Some v
      | _ :: _ => None
      end
  | None => None
  end.

Definition hex_digit (n : nat) : ascii :=
  if (n <? 10)%nat then ascii_of_nat (48 + n) else ascii_of_nat (87 + n).

(** One character inside a string literal, with [ensure_ascii]. *)
Definition escape_char (c : ascii) : text :=
  let n := nat_of_ascii c in
  if Ascii.eqb c dquote then [backslash; dquote]
  else if Ascii.eqb c backslash then [backslash; backslash]
  else if (n =? 10)%nat then [backslash; "n"%char]
  else if (n =? 13)%nat then [backslash; "r"%char]
  else if (n =? 9)%nat then [backslash; "t"%char]
  else if (n =? 8)%nat then [backslash; "b"%char]
  else if (n =? 12)%nat then [backslash; "f"%char]
  else if ((n <? 32) || (126 <? n))%nat then
    [backslash; "u"%char; "0"%char; "0"%char;
     hex_digit (n / 16); hex_digit (n mod 16)]
  else [c].

Definition write_string (s : string) : text :=
  dquote :: flat_map escape_char (list_ascii_of_string s) ++ [dquote].

Definition write_int (z : Z) : text :=
  list_ascii_of_string (NilZero.string_of_int (Z.to_int z)).

Definition comma_space : text := [","%char; " "%char].
Definition colon_space : text := [":"%char; " "%char].

Fixpoint join (sep : text) (parts : list text) : text :=
  match parts with
  | [] => []
  | [p] => p
  | p :: rest => p ++ sep ++ join sep rest
  end.

Fixpoint write_value (v : value) : text :=
  match v with
  | VNone => list_ascii_of_string "null"
  | VBool true => list_ascii_of_string "true"
  | VBool false => list_ascii_of_string "false"
  | VInt z => write_int z
  | VStr s => write_string s
  | VList l => "["%char :: join comma_space (map write_value l) ++ ["]"%char]
  | VDict d =>
      "{"%char
      :: join comma_space
           (map (fun kv => write_string (fst kv) ++ colon_space
                             ++ write_value (snd kv)) d)
      ++ ["}"%char]
  end.

(** [json.dumps(v)] *)
Definition dumps (v : value) : string :=
  string_of_list_ascii (write_value v).

(** The values a Python program can hold and [json.dumps] can write
    without loss: no dictionary has the same key twice. *)
Inductive keys_distinct : value -> Prop :=
| distinct_none : keys_distinct VNone
| distinct_bool (b : bool) : keys_distinct (VBool b)
| distinct_int (z : Z) : keys_distinct (VInt z)
| distinct_str (s : string) : keys_distinct (VStr s)
| distinct_list (l : list value) :
    Forall keys_distinct l -> keys_distinct (VList l)
| distinct_dict (d : dict) :
    NoDup (map fst d) ->
    Forall (fun kv => keys_distinct (snd kv)) d ->
    keys_distinct (VDict d).

(** Fuel that is enough to read a value back. *)
Fixpoint need (v : value) : nat :=
  match v with
  | VList l =>
      S (Nat.max (length l) (fold_right (fun x n => Nat.max (need x) n) 0%nat l))
  | VDict d =>
      S (Nat.max (length d)
           (fold_right (fun kv n => Nat.max (need (snd kv)) n) 0%nat d))
  | _ => 1%nat
  end.

(** The characters of a decimal numeral. *)
Definition uint_chars (d : Decimal.uint) : text :=
  list_ascii_of_string (NilEmpty.string_of_uint d).

(** How a dictionary entry is written. *)
Definition write_member (kv : string * value) : text :=
  write_string (fst kv) ++ colon_space ++ write_value (snd kv).

(** A character that can begin a written value: no whitespace, and none
    of the two closing brackets. *)
Definition value_start (c : ascii) : bool :=
  negb (is_ws c) && negb (Ascii.eqb c "]") && negb (Ascii.eqb c "}").

(** What may follow a number: anything but a digit, a point or an
    exponent. *)
Definition ends_number (rest : text) : bool :=
  match rest with
  | [] => true
  | c :: _ => negb (is_digit c) && negb (starts_float_tail rest)
  end.

(** JSON text written with apostrophes in place of double quotes. *)
Definition quoted (s : string) : string :=
  string_of_list_ascii
    (map (fun c => if Ascii.eqb c "'" then dquote else c)
         (list_ascii_of_string s)).

End MiniJson.

(* ===================================================================== *)
(** * lambda/listeners/llm_caller.py *)
(* ===================================================================== *)

Module LlmCaller.
Import Re.
Local Open Scope re_scope.

Definition star : ascii := "*"%char.
Definition underscore : ascii := "_"%char.
Definition tilde : ascii := "~"%char.
Definition backtick : ascii := "`"%char.

(** [(?s)(```.+?```|`[^`\n]+?`)] *)
Definition code_span : regex :=
  Group (Alt (lits "```" >> LazyPlus CAny >> lits "```")
             (Lit backtick >> LazyPlus (CNoneOf [backtick; newline])
                >> Lit backtick)).

(** [\*\*\*(?!\s)([^\*\n]+?)(?<!\s)\*\*\*] *)
Definition bold_italic : regex :=
  lits "***" >> NotAhead CSpace >> Group (LazyPlus (CNoneOf [star; newline]))
    >> NotBehind CSpace >> lits "***".

(** [(?<![\*_])\*(?!\s)([^\*\n]+?)(?<!\s)\*(?![\*_])] *)
Definition italic : regex :=
  NotBehind (COneOf [star; underscore]) >> Lit star >> NotAhead CSpace
    >> Group (LazyPlus (CNoneOf [star; newline]))
    >> NotBehind CSpace >> Lit star >> NotAhead (COneOf [star; underscore]).

(** [\*\*(?!\s)([^\*\n]+?)(?<!\s)\*\*] *)
Definition bold : regex :=
  lits "**" >> NotAhead CSpace >> Group (LazyPlus (CNoneOf [star; newline]))
    >> NotBehind CSpace >> lits "**".

(** [__(?!\s)([^_\n]+?)(?<!\s)__] *)
Definition bold_underscore : regex :=
  lits "__" >> NotAhead CSpace
    >> Group (LazyPlus (CNoneOf [underscore; newline]))
    >> NotBehind CSpace >> lits "__".

(** [~~(?!\s)([^~\n]+?)(?<!\s)~~] *)
Definition strike : regex :=
  lits "~~" >> NotAhead CSpace >> Group (LazyPlus (CNoneOf [tilde; newline]))
    >> NotBehind CSpace >> lits "~~".

(** The list the inner loop of [markdown_to_slack] runs over, in its
    order: pattern and replacement. *)
Definition substitutions : list (regex * list titem) :=
  [ (bold_italic,     [TText "_*"; TGroup1; TText "*_"]);
    (italic,          [TText "_";  TGroup1; TText "_"]);
    (bold,            [TText "*";  TGroup1; TText "*"]);
    (bold_underscore, [TText "*";  TGroup1; TText "*"]);
    (strike,          [TText "~";  TGroup1; TText "~"]) ].

(** The body of the outer loop for one part: what is appended to
    [result]. *)
Definition transcode_part (part : string) : string :=
  if String.prefix "```" part || String.prefix "`" part then part
  else fold_left (fun part' on => Re.sub (fst on) (snd on) part')
                 substitutions part.

(** [markdown_to_slack(content)] *)
Definition markdown_to_slack (content : string) : string :=
  let parts := Re.split code_span content in
  fold_left (fun result part => result ++ transcode_part part)%string
            parts "".

(** A captured span that is not empty and has no whitespace at either
    end. *)
Definition well_delimited (span : text) : bool :=
  match span with
  | [] => false
  | c :: _ => negb (is_space c) && negb (is_space (last span c))
  end.

(** What a match of one of the five patterns looks like: the delimiter,
    the captured span, the delimiter again; and the span is well
    delimited. *)
Definition emphasis_match (pattern : regex) (delimiter : string) : Prop :=
  forall b a : text,
    match match_here pattern b a with
    | Some m =>
        a = list_ascii_of_string delimiter ++ group1 m
            ++ list_ascii_of_string delimiter ++ ahead m
        /\ well_delimited (group1 m) = true
    | None => True
    end.

(** A fenced block: three backticks, something, three backticks. *)
Definition fenced_block (g : string) : Prop :=
  exists inside : string,
    inside <> "" /\ g = ("```" ++ inside ++ "```")%string.

(** An inline code span: a backtick, something without backtick or
    newline, a backtick. *)
Definition inline_code (g : string) : Prop :=
  exists inside : string,
    inside <> ""
    /\ forallb (cmatch (CNoneOf [backtick; newline]))
               (list_ascii_of_string inside) = true
    /\ g = ("`" ++ inside ++ "`")%string.

(** The parts of a split, text and code span in turn, where every code
    span is a fenced block or an inline span and is kept as it is. *)
Inductive code_kept : list string -> Prop :=
| code_kept_last (t : string) : code_kept [t]
| code_kept_cons (t g : string) (rest : list string) :
    fenced_block g \/ inline_code g ->
    transcode_part g = g ->
    code_kept rest ->
    code_kept (t :: g :: rest).

(** A code span begins the text [a]: some front part of [a] is a fenced
    block or an inline span. *)
Definition code_begins (a : string) : Prop :=
  exists g rest : string,
    a = (g ++ rest)%string /\ (fenced_block g \/ inline_code g).

(** No code span begins anywhere inside [before] when [after] follows
    it. *)
Definition code_free (before after : string) : Prop :=
  forall p s : string,
    before = (p ++ s)%string -> s <> "" -> ~ code_begins (s ++ after).

(** A fenced block that ends at its first closing fence: no three
    backticks begin at a place inside it, after its first character. *)
Definition closes_first (inside : string) : Prop :=
  forall p s : string,
    inside = (p ++ s)%string -> p <> "" -> s <> "" ->
    String.prefix "```" (s ++ "```") = false.

(** The code span that a reader going from left to right takes where it
    stands: an inline span, or a fenced block up to its first closing
    fence. *)
Definition code_span_here (span : string) : Prop :=
  inline_code span
  \/ exists inside : string,
       inside <> "" /\ closes_first inside
       /\ span = ("```" ++ inside ++ "```")%string.




(** A captured span that stays on one line and does not hold the
    character its delimiter is made of. *)
Definition span_within_line (pattern : regex) (delimiter : ascii) : Prop :=
  forall b a : text,
    match match_here pattern b a with
    | Some m => ~ In newline (group1 m) /\ ~ In delimiter (group1 m)
    | None => True
    end.

(** The characters the five patterns are made of. *)
Definition markup (c : ascii) : bool :=
  Ascii.eqb c star || Ascii.eqb c underscore || Ascii.eqb c tilde.

(** What the listeners reach outside this repository: the Bedrock runtime
    client, the Slack web client with its [chat_stream] helper, and the
    Bolt utilities handed to a listener.  Each member gives the answer of
    a call; the caller records the call itself.  An upstream stream is a
    finite sequence whose every pull yields an event or raises.
    [conversations_history] is asked at most twice, so its answer also
    depends on the attempt; [py_str] is Python's [str()], as used by
    f-strings. *)
Class Services : Type := {
  converse_stream : list value -> string
                    -> outcome (option (list (outcome value)));
  chat_stream : value -> value -> value -> value -> outcome unit;
  streamer_append : string -> outcome unit;
  streamer_stop : outcome unit;
  conversations_replies : value -> value -> value -> Z -> outcome dict;
  conversations_history : nat -> value -> Z -> outcome dict;
  conversations_join : value -> outcome unit;
  get_thread_context : outcome value;
  set_status : string -> outcome unit;
  say : string -> outcome unit;
  py_str : value -> string
}.

Local Open Scope run_scope.

Definition DEFAULT_SYSTEM_CONTENT : string :=
"
You're an assistant in a Slack workspace.
Users in the workspace will ask you to help them write something or to think deeply about a specific topic.
You'll respond to those questions in a professional way.
When you include markdown text, convert them to Slack compatible ones.
When a prompt has Slack's special syntax like <@USER_ID> or <#CHANNEL_ID>, you must keep them as-is in your response.
".

(** [for x in xs: body] for a body that may raise. *)
Fixpoint for_each {A : Type} (xs : list A) (body : A -> run unit) : run unit :=
  match xs with
  | [] => ret tt
  | x :: rest => body x ;;; for_each rest body
  end.

(** [[f(x) for x in xs]], stopping at the first exception. *)
Fixpoint map_outcome {A B : Type} (f : A -> outcome B) (xs : list A)
    : outcome (list B) :=
  match xs with
  | [] => Return []
  | x :: rest =>
      (y <- f x ;; ys <- map_outcome f rest ;; Return (y :: ys))%py
  end.

(** One thread message in Bedrock's format:
    [{"role": msg["role"], "content": [{"text": msg["content"]}]}]. *)
Definition formatted_msg (msg : value) : outcome value :=
  (role <- getitem msg "role" ;;
   content <- getitem msg "content" ;;
   Return (VDict [ ("role", role);
                   ("content", VList [VDict [("text", content)]]) ]))%py.

(** [markdown_to_slack(x)] for any value [x]: [re.split] wants text. *)
Definition markdown_to_slack_value (x : value) : outcome string :=
  match x with
  | VStr s => Return (markdown_to_slack s)
  | _ => Raise TypeError
  end.

(** The [contentBlockDelta] branch of the loop. *)
Definition on_content_delta `{Services} (event : value) : run unit :=
  isdelta <~ lift (contains "contentBlockDelta" event) ;;
  if isdelta then
    delta_text <~ lift (block <- getitem event "contentBlockDelta" ;;
                        delta <- getitem block "delta" ;;
                        getitem delta "text")%py ;;
    markdown_text <~ lift (markdown_to_slack_value delta_text) ;;
    emit (StreamerAppend markdown_text) ;;;
    lift (streamer_append markdown_text)
  else ret tt.

(** The [messageStop] branch of the loop. *)
Definition on_message_stop (event : value) : run unit :=
  isstop <~ lift (contains "messageStop" event) ;;
  if isstop then
    reason <~ lift (stop <- getitem event "messageStop" ;;
                    getitem stop "stopReason")%py ;;
    emit (LogStopReason reason)
  else ret tt.

(** The [metadata] branch of the loop. *)
Definition on_metadata (event : value) : run unit :=
  ismeta <~ lift (contains "metadata" event) ;;
  if ismeta then
    metadata <~ lift (getitem event "metadata") ;;
    hasusage <~ lift (contains "usage" metadata) ;;
    if hasusage then
      usage <~ lift (getitem metadata "usage") ;;
      input_tokens <~ lift (getitem usage "inputTokens") ;;
      usage' <~ lift (getitem metadata "usage") ;;
      output_tokens <~ lift (getitem usage' "outputTokens") ;;
      usage'' <~ lift (getitem metadata "usage") ;;
      total_tokens <~ lift (getitem usage'' "totalTokens") ;;
      emit (LogUsage input_tokens output_tokens total_tokens)
    else ret tt
  else ret tt.

(** One turn of [for event in stream]: the pull, then the three tests. *)
Definition on_event `{Services} (pulled : outcome value) : run unit :=
  event <~ lift pulled ;;
  emit (StreamNext event) ;;;
  on_content_delta event ;;;
  on_message_stop event ;;;
  on_metadata event.

(** [call_bedrock_stream(messages_in_thread, system_content, client,
    channel, thread_ts, team_id, user_id)].  The model identifier and the
    inference configuration are constants of the upstream call; the
    [except] clause logs and raises again, so an exception leaves as it
    came. *)
Definition call_bedrock_stream `{Services} (messages_in_thread : list value)
    (system_content : string)
    (channel thread_ts team_id user_id : value) : run value :=
  messages <~ lift (map_outcome formatted_msg messages_in_thread) ;;
  emit (ConverseStream messages system_content) ;;;
  stream <~ lift (converse_stream messages system_content) ;;
  emit (ChatStreamOpen channel thread_ts team_id user_id) ;;;
  lift (chat_stream channel thread_ts team_id user_id) ;;;
  match stream with
  | Some events => for_each events on_event
  | None => ret tt
  end ;;;
  emit StreamerStop ;;;
  lift streamer_stop ;;;
  ret (VStr "").

(** The text a content-delta event carries, when the event is one and
    carries text. *)
Definition content_delta (event : value) : option string :=
  match contains "contentBlockDelta" event with
  | Return true =>
      match (block <- getitem event "contentBlockDelta" ;;
             delta <- getitem block "delta" ;;
             getitem delta "text")%py with
      | Return (VStr s) => Some s
      | _ => None
      end
  | _ => None
  end.

(** The events of the response's stream; none when there is no stream. *)
Definition events_of (stream : option (list (outcome value)))
    : list (outcome value) :=
  match stream with
  | Some events => events
  | None => []
  end.

(** The calls on the live-update sink, and the pulls from the upstream
    stream. *)
Definition sink_or_pull (e : effect) : bool :=
  match e with
  | ChatStreamOpen _ _ _ _ | StreamNext _ | StreamerAppend _ | StreamerStop =>
      true
  | _ => false
  end.

(** What one pulled event must leave in that view of the trace. *)
Definition pull_and_append (event : value) : list effect :=
  StreamNext event
  :: match content_delta event with
     | Some s => [StreamerAppend (markdown_to_slack s)]
     | None => []
     end.

(** What [call_bedrock_stream] does to the outside world: the upstream
    call, the calls on the sink, the pulls and the two log records. *)
Definition stream_effect (e : effect) : bool :=
  match e with
  | ConverseStream _ _ | ChatStreamOpen _ _ _ _ | StreamNext _
  | StreamerAppend _ | StreamerStop | LogStopReason _ | LogUsage _ _ _ =>
      true
  | _ => false
  end.

(** How [call_bedrock_stream] ends once the loop is over: with what
    [streamer.stop()] raises, or else with the empty string. *)
Definition after_stop `{Services} : outcome value :=
  (_ <- streamer_stop ;; Return (VStr ""))%py.

End LlmCaller.

(* ===================================================================== *)
(** * lambda/listeners/assistant.py *)
(* ===================================================================== *)

Module Assistant.
Import LlmCaller.
Local Open Scope run_scope.

(** The Bolt context, as far as the listener reads it. *)
Record bolt_context : Type := BoltContext {
  channel_id : value;
  thread_ts : value;
  team_id : value
}.

Definition summary_request : string :=
  "Can you generate a brief summary of the referred channel?".

Definition apology : string :=
  "Sorry, there was an error communicating with AWS Bedrock. The good news is that your Slack App works! If you want to get Bedrock working, check that you've "
  ++ "<https://docs.aws.amazon.com/bedrock/latest/userguide/model-access-modify.html|enabled model access> "
  ++ "and are using the correct <https://docs.aws.amazon.com/bedrock/latest/userguide/cross-region-inference.html#cross-region-inference-use|inference profile>. "
  ++ "If both of these are true, there is some other error. Check your lambda logs for more info.".

Definition nl : string := String Re.newline EmptyString.

(** The elements a [for] loop sees. *)
Definition iterate (v : value) : outcome (list value) :=
  match v with
  | VList l => Return l
  | VStr s =>
      Return (map (fun c => VStr (String c EmptyString)) (list_ascii_of_string s))
  | VDict d => Return (map (fun kv => VStr (fst kv)) d)
  | VNone | VBool _ | VInt _ => Raise TypeError
  end.

(** [reversed(v)], as a [for] loop sees it. *)
Definition py_reversed (v : value) : outcome (list value) :=
  (l <- iterate v ;; Return (rev l))%py.

(** [user_message[:50] if user_message else ""], for the log record. *)
Definition message_preview (user_message : value) : outcome value :=
  if truthy user_message then
    match user_message with
    | VStr s => Return (VStr (String.substring 0 50 s))
    | VList l => Return (VList (firstn 50 l))
    | _ => Raise TypeError
    end
  else Return (VStr "").

(** The body of the loop of lines 96 to 98: one fetched message becomes
    one turn. *)
Definition turn_of (message : value) : outcome value :=
  (bot_id <- get message "bot_id" VNone ;;
   let role := if is_none bot_id then "user" else "assistant" in
   text <- getitem message "text" ;;
   Return (VDict [("role", VStr role); ("content", text)]))%py.

(** A message that is a dictionary with a text. *)
Definition has_text (message : value) : Prop :=
  exists (d : dict) (text : value),
    message = VDict d /\ dict_lookup "text" d = Some text.

(** The body of the loop of lines 65 to 67: what one channel message adds
    to the prompt. *)
Definition summary_line `{Services} (message : value) : outcome string :=
  (user <- get message "user" VNone ;;
   if negb (is_none user) then
     user' <- getitem message "user" ;;
     text <- getitem message "text" ;;
     Return (nl ++ "<@" ++ py_str user' ++ "> says: " ++ py_str text ++ nl)%string
   else Return "")%py.

(** The history of the referred channel, joining it once when the bot is
    not a member. *)
Definition fetch_channel_history `{Services} (referred : value) : run dict :=
  emit (ConversationsHistory referred 50) ;;;
  match conversations_history 0 referred 50 with
  | Return h => ret h
  | Raise (SlackApiError error) =>
      if String.eqb error "not_in_channel" then
        emit (ConversationsJoin referred) ;;;
        lift (conversations_join referred) ;;;
        emit (ConversationsHistory referred 50) ;;;
        lift (conversations_history 1 referred 50)
      else throw (SlackApiError error)
  | Raise e => throw e
  end.

(** The branch of lines 44 to 82. *)
Definition summarize_channel `{Services} (context : bolt_context)
    (user_id : value) : run unit :=
  emit GetThreadContext ;;;
  thread_context <~ lift get_thread_context ;;
  referred <~ lift (get thread_context "channel_id" VNone) ;;
  channel_history <~ fetch_channel_history referred ;;
  let prompt0 :=
    ("Can you generate a brief summary of these messages in a Slack channel <#"
     ++ py_str referred ++ ">?" ++ nl ++ nl)%string in
  messages <~ lift (py_reversed (dict_get channel_history "messages" VNone)) ;;
  lines <~ lift (map_outcome summary_line messages) ;;
  let prompt := (prompt0 ++ String.concat "" lines)%string in
  let messages_in_thread := [VDict [("role", VStr "user"); ("content", VStr prompt)]] in
  emit (SetStatus "is thinking...") ;;;
  lift (set_status "is thinking...") ;;;
  call_bedrock_stream messages_in_thread DEFAULT_SYSTEM_CONTENT
    (channel_id context) (thread_ts context) (team_id context) user_id ;;;
  ret tt.

(** The [try] block of lines 88 to 116. *)
Definition reply_in_thread `{Services} (context : bolt_context)
    (user_id : value) : run unit :=
  emit (ConversationsReplies (channel_id context) (thread_ts context)
          (thread_ts context) 10) ;;;
  replies <~ lift (conversations_replies (channel_id context)
                     (thread_ts context) (thread_ts context) 10) ;;
  messages <~ lift (iterate (dict_get replies "messages" VNone)) ;;
  messages_in_thread <~ lift (map_outcome turn_of messages) ;;
  emit (SetStatus "is thinking...") ;;;
  lift (set_status "is thinking...") ;;;
  call_bedrock_stream messages_in_thread DEFAULT_SYSTEM_CONTENT
    (channel_id context) (thread_ts context) (team_id context) user_id ;;;
  ret tt.

(** [process_message_lazily(payload, logger, context, set_status,
    get_thread_context, client, say)] *)
Definition process_message_lazily `{Services} (payload : dict)
    (context : bolt_context) : run unit :=
  user_message <~ lift (getitem (VDict payload) "text") ;;
  let user_id := dict_get payload "user" VNone in
  _ <~ lift (message_preview user_message) ;;
  if eq_str user_message summary_request then
    summarize_channel context user_id
  else if negb (truthy user_message) then ret tt
  else
    try_except (reply_in_thread context user_id)
      (fun _ => emit (Say apology) ;;; lift (say apology)).

(** Views of a trace: what was said, and what was asked of the referred
    channel. *)
Definition is_say (e : effect) : bool :=
  match e with
  | Say _ => true
  | _ => false
  end.

Definition is_fetch (e : effect) : bool :=
  match e with
  | ConversationsHistory _ _ | ConversationsJoin _ => true
  | _ => false
  end.

(** [e.response["error"] == "not_in_channel"] for what a call raised. *)
Definition not_in_channel {A : Type} (o : outcome A) : bool :=
  match o with
  | Raise (SlackApiError error) => String.eqb error "not_in_channel"
  | _ => false
  end.

(** A channel message the summary can take: a dictionary that, when it
    has a user, has a text. *)
Definition summarisable (message : value) : Prop :=
  exists d : dict,
    message = VDict d
    /\ (is_none (dict_get d "user" VNone) = false ->
        exists text, dict_lookup "text" d = Some text).

(** The first line of the summary prompt. *)
Definition summary_header `{Services} (referred : value) : string :=
  ("Can you generate a brief summary of these messages in a Slack channel <#"
   ++ py_str referred ++ ">?" ++ nl ++ nl)%string.

(** ** [start_assistant_thread] *)

(** What the listener of [thread_started] needs besides the services
    above: the utility that sets the suggested prompts, the attribute
    [channel_id] of a thread context, and the text of an exception in an
    f-string. *)
Class ThreadStarted : Type := {
  set_suggested_prompts : list value -> outcome unit;
  attr_channel_id : value -> outcome value;
  format_exn : exn -> string
}.

(** Its effects: those of the other listener, and the suggested
    prompts. *)
Inductive start_effect : Type :=
| Did (e : effect)
| SetSuggestedPrompts (prompts : list value).

Definition start_run (A : Type) : Type := list start_effect * outcome A.

Definition sbind {A B : Type} (m : start_run A) (k : A -> start_run B)
    : start_run B :=
  match m with
  | (t, Return a) => let (t', r) := k a in (t ++ t', r)
  | (t, Raise e) => (t, Raise e)
  end.

(** A call on the outside world: it is made, then it returns or raises. *)
Definition call {A : Type} (e : start_effect) (m : outcome A) : start_run A :=
  ([e], m).

(** A computation that touches nothing outside. *)
Definition pure {A : Type} (m : outcome A) : start_run A := ([], m).

Definition greeting : string := ":wave: Hi, how can I help you today?".

Definition summarize_channel_prompt : value :=
  VDict [ ("title", VStr "Summarize the referred channel");
          ("message",
           VStr "Can you generate a brief summary of the referred channel?") ].

Definition warning `{ThreadStarted} (e : exn) : string :=
  (":warning: Something went wrong! (" ++ format_exn e ++ ")")%string.

(** [thread_context.channel_id is not None] *)
Definition has_channel `{ThreadStarted} (thread_context : value)
    : outcome bool :=
  (c <- attr_channel_id thread_context ;; Return (negb (is_none c)))%py.

(** The [try] block of lines 136 to 156. *)
Definition greet_and_suggest `{Services} `{ThreadStarted} : start_run unit :=
  sbind (call (Did (Say greeting)) (say greeting)) (fun _ =>
  sbind (call (Did GetThreadContext) get_thread_context)
    (fun thread_context =>
  sbind (pure (if truthy thread_context then has_channel thread_context
               else Return false)) (fun _ =>
  sbind (pure (if negb (is_none thread_context)
               then has_channel thread_context
               else Return false)) (fun offer =>
  let prompts := if offer then [summarize_channel_prompt] else [] in
  call (SetSuggestedPrompts prompts) (set_suggested_prompts prompts))))).

(** What was said, in a trace of this listener. *)
Definition said (e : start_effect) : bool :=
  match e with
  | Did (Say _) => true
  | _ => false
  end.

(** [start_assistant_thread(say, get_thread_context,
    set_suggested_prompts, context, logger)] *)
Definition start_assistant_thread `{Services} `{ThreadStarted}
    : start_run unit :=
  match greet_and_suggest with
  | (t, Return a) => (t, Return a)
  | (t, Raise e) => (t ++ [Did (Say (warning e))], say (warning e))
  end.

End Assistant.

(* ===================================================================== *)
(** * A concrete platform, to run the code on concrete inputs *)
(* ===================================================================== *)

Module Concrete.
Import Index LlmCaller Assistant.
Local Open Scope run_scope.

(** The item identifier Powertools reports for a failed record. *)
Definition item_failure (record : value) : value :=
  VDict [("itemIdentifier",
          match record with
          | VDict d => dict_get d "messageId" VNone
          | _ => VNone
          end)].

(** Every record is handled; a record whose handler raises is reported. *)
Fixpoint run_records (record_handler : value -> run unit)
    (records : list value) : run (list value) :=
  match records with
  | [] => ret []
  | r :: rest =>
      failed <~ (let (t, o) := record_handler r in
                 (t, Return (match o with
                             | Return _ => []
                             | Raise _ => [item_failure r]
                             end))) ;;
      others <~ run_records record_handler rest ;;
      ret (failed ++ others)
  end.

(** Powertools' partial batch response: the failed records are listed,
    and a batch that failed entirely raises. *)
Definition partial_response (event : dict)
    (record_handler : value -> run unit) : run value :=
  records <~ lift (iterate (dict_get event "Records" (VList []))) ;;
  failures <~ run_records record_handler records ;;
  if negb (length records =? 0)%nat && (length failures =? length records)%nat
  then throw (OtherError "BatchProcessingError")
  else ret (VDict [("batchItemFailures", VList failures)]).

(** A platform where every outside call succeeds.  Its [json] module is
    that of [MiniJson], to be used on texts without floats. *)
#[export] Instance platform : Platform := {
  json_loads := MiniJson.loads;
  json_dumps := MiniJson.dumps;
  sqs_send_message := fun _ _ _ => Return tt;
  slack_handle := fun _ => Return accepted;
  process_partial_response := partial_response
}.

(** Upstream events. *)
Definition delta_event (s : string) : value :=
  VDict [("contentBlockDelta", VDict [("delta", VDict [("text", VStr s)])])].

Definition stop_event : value :=
  VDict [("messageStop", VDict [("stopReason", VStr "end_turn")])].

Definition usage_event : value :=
  VDict [("metadata",
          VDict [("usage", VDict [ ("inputTokens", VInt 12);
                                   ("outputTokens", VInt 3);
                                   ("totalTokens", VInt 15) ])])].

(** A thread of three messages, oldest first; the second is the bot's. *)
Definition thread : list value :=
  [ VDict [("user", VStr "U1"); ("text", VStr "hi <@U2>")];
    VDict [("bot_id", VStr "B1"); ("text", VStr "hello")];
    VDict [("user", VStr "U1"); ("text", VStr "thanks")] ].

(** Services where every call succeeds: the model answers with two
    deltas, a stop and the usage; the thread is the one above, cut to the
    limit asked for. *)
#[export] Instance services : Services := {
  converse_stream := fun _ _ =>
    Return (Some [ Return (delta_event "Hello ");
                   Return (delta_event "*world*");
                   Return stop_event;
                   Return usage_event ]);
  chat_stream := fun _ _ _ _ => Return tt;
  streamer_append := fun _ => Return tt;
  streamer_stop := Return tt;
  conversations_replies := fun _ _ _ limit =>
    Return [("ok", VBool true);
            ("messages", VList (firstn (Z.to_nat limit) thread))];
  conversations_history := fun _ _ limit =>
    Return [("ok", VBool true);
            ("messages", VList (firstn (Z.to_nat limit) (rev thread)))];
  conversations_join := fun _ => Return tt;
  get_thread_context := Return (VDict [("channel_id", VStr "C9")]);
  set_status := fun _ => Return tt;
  say := fun _ => Return tt;
  py_str := fun v => match v with VStr s => s | _ => "" end
}.

Definition assistant_context : bolt_context :=
  BoltContext (VStr "D1") (VStr "1700000000.000100") (VStr "T1").

Definition queue : environ :=
  Environ (Some "https://sqs.us-east-1.amazonaws.com/123456789012/slack.fifo").

Definition no_queue : environ := Environ None.

Definition invocation : lambda_context := LambdaContext "req-1".

Definition verification_body : string :=
  MiniJson.quoted "{'type': 'url_verification', 'challenge': 'abc123'}".

(** The three webhook shapes, around a given body. *)
Definition function_url_event (body : string) : dict :=
  [ ("requestContext",
     VDict [ ("http", VDict [("method", VStr "POST")]);
             ("domainName", VStr "abc.lambda-url.us-east-1.on.aws") ]);
    ("body", VStr body) ].

Definition gateway_v2_event (body : string) : dict :=
  [ ("requestContext", VDict [("http", VDict [("method", VStr "POST")])]);
    ("body", VStr body) ].

Definition gateway_v1_event (body : string) : dict :=
  [ ("httpMethod", VStr "POST");
    ("requestContext", VDict [("httpMethod", VStr "POST")]);
    ("body", VStr body) ].

(** Services whose model stream breaks after the first delta; every
    other call succeeds. *)
Definition broken_stream : Services := {|
  converse_stream := fun _ _ =>
    Return (Some [ Return (delta_event "Hello ");
                   Raise (OtherError "EventStreamError");
                   Return (delta_event "*world*") ]);
  chat_stream := fun _ _ _ _ => Return tt;
  streamer_append := fun _ => Return tt;
  streamer_stop := Return tt;
  conversations_replies := @conversations_replies services;
  conversations_history := @conversations_history services;
  conversations_join := fun _ => Return tt;
  get_thread_context := @get_thread_context services;
  set_status := fun _ => Return tt;
  say := fun _ => Return tt;
  py_str := @py_str services
|}.

(** One turn of a thread. *)
Definition hi : list value :=
  [VDict [("role", VStr "user"); ("content", VStr "hi")]].

(** Services that refuse the history of a channel the bot is not in,
    until it has joined. *)
Definition outside_channel : Services := {|
  converse_stream := @converse_stream services;
  chat_stream := fun _ _ _ _ => Return tt;
  streamer_append := fun _ => Return tt;
  streamer_stop := Return tt;
  conversations_replies := @conversations_replies services;
  conversations_history := fun attempt channel limit =>
    match attempt with
    | O => Raise (SlackApiError "not_in_channel")
    | S _ => @conversations_history services attempt channel limit
    end;
  conversations_join := fun _ => Return tt;
  get_thread_context := @get_thread_context services;
  set_status := fun _ => Return tt;
  say := fun _ => Return tt;
  py_str := @py_str services
|}.

(** Services that cannot read the thread context. *)
Definition no_thread_context : Services := {|
  converse_stream := @converse_stream services;
  chat_stream := fun _ _ _ _ => Return tt;
  streamer_append := fun _ => Return tt;
  streamer_stop := Return tt;
  conversations_replies := @conversations_replies services;
  conversations_history := @conversations_history services;
  conversations_join := fun _ => Return tt;
  get_thread_context := Raise (OtherError "thread context");
  set_status := fun _ => Return tt;
  say := fun _ => Return tt;
  py_str := @py_str services
|}.

(** A thread context reads its channel from the dictionary it is. *)
Definition thread_started : ThreadStarted := {|
  set_suggested_prompts := fun _ => Return tt;
  attr_channel_id := fun thread_context =>
    match thread_context with
    | VDict d => Return (dict_get d "channel_id" VNone)
    | _ => Raise AttributeError
    end;
  format_exn := fun _ => "error"
|}.

End Concrete.

(* ===================================================================== *)
(** * The concrete JSON reader undoes the writer *)
(* ===================================================================== *)

Module JsonFacts.
Import MiniJson.

(** Induction over values, with the hypothesis for every element of a
    list and every entry of a dictionary. *)
Lemma value_induction (P : value -> Prop) :
  P VNone ->
  (forall b, P (VBool b)) ->
  (forall z, P (VInt z)) ->
  (forall s, P (VStr s)) ->
  (forall l, Forall P l -> P (VList l)) ->
  (forall d, Forall (fun kv => P (snd kv)) d -> P (VDict d)) ->
  forall v : value, P v.
Proof.
  intros Hnone Hbool Hint Hstr Hlist Hdict.
  fix F 1. intros [|b|z|s|l|d].
  - exact Hnone.
  - apply Hbool.
  - apply Hint.
  - apply Hstr.
  - apply Hlist. induction l as [|x l IHl]; constructor.
    + apply F.
    + exact IHl.
  - apply Hdict. induction d as [|kv d IHd]; constructor.
    + apply F.
    + exact IHd.
Qed.

(** ** Strings *)

(** Reading the escape of a character gives the character. *)
Lemma read_escape (c : ascii) :
  forall rest acc : text,
    read_string (escape_char c ++ rest) acc = read_string rest (c :: acc).
Proof.
  destruct c as [[|] [|] [|] [|] [|] [|] [|] [|]]; intros rest acc;
    reflexivity.
Qed.

Lemma read_escaped (s : text) :
  forall rest acc : text,
    read_string (flat_map escape_char s ++ dquote :: rest) acc
    = Some (string_of_list_ascii (rev acc ++ s), rest).
Proof.
  induction s as [|c s IH]; intros rest acc.
  - cbn. rewrite app_nil_r. reflexivity.
  - cbn [flat_map]. rewrite <- app_assoc, read_escape, IH.
    cbn [rev]. rewrite <- app_assoc. reflexivity.
Qed.

Lemma read_write_string (s : string) (rest : text) :
  exists tail : text,
    write_string s ++ rest = dquote :: tail
    /\ read_string tail [] = Some (s, rest).
Proof.
  unfold write_string. eexists. split.
  - cbn [app]. rewrite <- app_assoc. reflexivity.
  - cbn [app]. rewrite read_escaped. cbn [rev app].
    rewrite string_of_list_ascii_of_string. reflexivity.
Qed.

(** ** Integers *)

Lemma ends_number_cases (rest : text) :
  ends_number rest = true ->
  starts_float_tail rest = false
  /\ match rest with [] => True | c :: _ => is_digit c = false end.
Proof.
  destruct rest as [|c rest]; [cbn; auto|].
  unfold ends_number. intros H. apply andb_true_iff in H as [H1 H2].
  apply negb_true_iff in H1, H2. auto.
Qed.

Lemma read_digits_done (rest : text) (acc : Z) :
  ends_number rest = true -> read_digits rest acc = (acc, rest).
Proof.
  intros H. destruct (ends_number_cases _ H) as [_ Hd].
  destruct rest as [|c rest]; [reflexivity|]. cbn. rewrite Hd. reflexivity.
Qed.

(** Reading a numeral into a positive accumulator is [Pos.of_uint_acc]. *)
Lemma read_digits_acc (d : Decimal.uint) :
  forall (acc : positive) (rest : text),
    ends_number rest = true ->
    read_digits (uint_chars d ++ rest) (Zpos acc)
    = (Zpos (Pos.of_uint_acc d acc), rest).
Proof.
  induction d as [|d IH|d IH|d IH|d IH|d IH|d IH|d IH|d IH|d IH|d IH];
    intros acc rest Hrest;
    [ apply read_digits_done, Hrest
    | cbn [uint_chars NilEmpty.string_of_uint list_ascii_of_string app
           read_digits Pos.of_uint_acc];
      fold (uint_chars d);
      match goal with
      | |- context [is_digit ?c] => change (is_digit c) with true
      end;
      cbv iota; rewrite <- IH by exact Hrest; f_equal;
      try match goal with
          | |- context [digit_value ?c] =>
              let v := eval vm_compute in (digit_value c) in
              change (digit_value c) with v
          end; lia .. ].
Qed.

(** Reading a numeral from zero is [Pos.of_uint]. *)
Lemma read_digits_zero (d : Decimal.uint) :
  forall rest : text,
    ends_number rest = true ->
    read_digits (uint_chars d ++ rest) 0 = (Z.of_N (Pos.of_uint d), rest).
Proof.
  induction d as [|d IH|d IH|d IH|d IH|d IH|d IH|d IH|d IH|d IH|d IH];
    intros rest Hrest;
    [ apply read_digits_done, Hrest
    | cbn [uint_chars NilEmpty.string_of_uint list_ascii_of_string app
           read_digits Pos.of_uint];
      fold (uint_chars d);
      match goal with
      | |- context [is_digit ?c] => change (is_digit c) with true
      end;
      cbv iota;
      first [ apply IH, Hrest
            | cbn [Z.of_N]; rewrite <- read_digits_acc by exact Hrest;
              reflexivity ] .. ].
Qed.

(** The numeral of a positive number starts with a digit other than 0. *)
Lemma to_uint_leading (p : positive) :
  forall d : Decimal.uint, Pos.to_uint p <> Decimal.D0 d.
Proof.
  intros d E.
  pose proof (DecimalPos.Unsigned.to_of (Pos.to_uint p)) as H.
  rewrite DecimalPos.Unsigned.of_to in H. cbn [N.to_uint] in H.
  rewrite E in H. rewrite DecimalFacts.unorm_D0 in H.
  unfold Decimal.unorm in H.
  destruct (Decimal.nzhead d) as [|u|u|u|u|u|u|u|u|u|u] eqn:Hd;
    try discriminate.
  - injection H as ->.
    exact (DecimalPos.Unsigned.to_uint_nonzero p E).
  - exact (DecimalFacts.nzhead_nonzero _ _ Hd).
Qed.

Lemma read_nat_pos (p : positive) (rest : text) :
  ends_number rest = true ->
  exists (c : ascii) (tail : text),
    uint_chars (Pos.to_uint p) ++ rest = c :: tail
    /\ is_digit c = true
    /\ read_nat (c :: tail) = Some (Zpos p, rest).
Proof.
  intros Hrest.
  pose proof (read_digits_zero (Pos.to_uint p) rest Hrest) as Hread.
  rewrite DecimalPos.Unsigned.of_to in Hread. cbn [Z.of_N] in Hread.
  destruct (ends_number_cases _ Hrest) as [Hfloat _].
  pose proof (to_uint_leading p) as Hlead.
  pose proof (DecimalPos.Unsigned.to_uint_nonnil p) as Hnil.
  destruct (Pos.to_uint p) as [|d|d|d|d|d|d|d|d|d|d];
    [ congruence | exfalso; exact (Hlead _ eq_refl) | .. ];
    cbn [uint_chars NilEmpty.string_of_uint list_ascii_of_string app] in *;
    fold (uint_chars d) in *;
    eexists _, _; (split; [reflexivity|]); (split; [reflexivity|]);
    unfold read_nat;
    match goal with
    | |- context [Ascii.eqb ?c "0"] => change (Ascii.eqb c "0") with false
    end;
    match goal with
    | |- context [is_digit ?c] => change (is_digit c) with true
    end;
    cbv iota; rewrite Hread, Hfloat; reflexivity.
Qed.

Lemma write_int_pos (p : positive) :
  write_int (Zpos p) = uint_chars (Pos.to_uint p).
Proof.
  unfold write_int, uint_chars. cbn [Z.to_int NilZero.string_of_int].
  unfold NilZero.string_of_uint.
  pose proof (DecimalPos.Unsigned.to_uint_nonnil p) as Hnil.
  destruct (Pos.to_uint p); [congruence|reflexivity..].
Qed.

Lemma write_int_neg (p : positive) :
  write_int (Zneg p) = "-"%char :: uint_chars (Pos.to_uint p).
Proof.
  unfold write_int, uint_chars. cbn [Z.to_int NilZero.string_of_int].
  unfold NilZero.string_of_uint.
  pose proof (DecimalPos.Unsigned.to_uint_nonnil p) as Hnil.
  destruct (Pos.to_uint p); [congruence|reflexivity..].
Qed.

(** ** Lists and dictionaries *)

Lemma skip_ws_start (c : ascii) (t : text) :
  value_start c = true -> skip_ws (c :: t) = c :: t.
Proof.
  unfold value_start. intros H.
  apply andb_true_iff in H as [H _]. apply andb_true_iff in H as [H _].
  apply negb_true_iff in H. cbn. rewrite H. reflexivity.
Qed.

Lemma digit_is_start (c : ascii) : is_digit c = true -> value_start c = true.
Proof.
  destruct c as [[|] [|] [|] [|] [|] [|] [|] [|]]; intros H;
    solve [reflexivity | discriminate H].
Qed.

(** Every written value begins with such a character. *)
Lemma write_value_head (v : value) :
  exists (c : ascii) (tail : text),
    write_value v = c :: tail /\ value_start c = true.
Proof.
  destruct v as [|[|]|z|s|l|d]; try (eexists _, _; split; reflexivity).
  destruct z as [|p|p]; try (eexists _, _; split; reflexivity).
  destruct (read_nat_pos p [] eq_refl) as (c & tail & E & Hd & _).
  rewrite app_nil_r in E. exists c, tail. split; [|apply digit_is_start, Hd].
  rewrite <- E. apply write_int_pos.
Qed.

Lemma join_two (sep p q : text) (parts : list text) :
  join sep (p :: q :: parts) = p ++ sep ++ join sep (q :: parts).
Proof. reflexivity. Qed.

Lemma join_head (sep p : text) (parts : list text) :
  exists tail : text, join sep (p :: parts) = p ++ tail.
Proof.
  destruct parts as [|q parts].
  - exists []. cbn. rewrite app_nil_r. reflexivity.
  - eexists. apply join_two.
Qed.

(** Whitespace is skipped up to the next written value, not into it. *)
Lemma skip_ws_values (x : value) (l : list value) (rest : text) :
  skip_ws (join comma_space (map write_value (x :: l)) ++ rest)
  = join comma_space (map write_value (x :: l)) ++ rest.
Proof.
  cbn [map]. destruct (join_head comma_space (write_value x)
                         (map write_value l)) as (tail & ->).
  destruct (write_value_head x) as (c & t & -> & Hc).
  cbn [app]. apply skip_ws_start, Hc.
Qed.

Lemma write_member_head (kv : string * value) :
  exists tail : text, write_member kv = dquote :: tail.
Proof. unfold write_member, write_string. eexists. reflexivity. Qed.

Lemma skip_ws_members (kv : string * value) (d : dict) (rest : text) :
  skip_ws (join comma_space (map write_member (kv :: d)) ++ rest)
  = join comma_space (map write_member (kv :: d)) ++ rest.
Proof.
  cbn [map]. destruct (join_head comma_space (write_member kv)
                         (map write_member d)) as (tail & ->).
  destruct (write_member_head kv) as (t & ->).
  reflexivity.
Qed.

(** Decides the tests on literal characters that stand in the goal. *)
Ltac literal_chars :=
  repeat (match goal with
          | |- context [is_ws (Ascii ?a ?b ?c ?d ?e ?f ?g ?h)] =>
              let t := constr:(is_ws (Ascii a b c d e f g h)) in
              let v := eval vm_compute in t in
              change t with v
          | |- context [Ascii.eqb (Ascii ?a ?b ?c ?d ?e ?f ?g ?h)
                                  (Ascii ?a' ?b' ?c' ?d' ?e' ?f' ?g' ?h')] =>
              let t := constr:(Ascii.eqb (Ascii a b c d e f g h)
                                         (Ascii a' b' c' d' e' f' g' h')) in
              let v := eval vm_compute in t in
              change t with v
          | |- context [is_digit (Ascii ?a ?b ?c ?d ?e ?f ?g ?h)] =>
              let t := constr:(is_digit (Ascii a b c d e f g h)) in
              let v := eval vm_compute in t in
              change t with v
          end; cbv beta iota).

(** The elements of a written list are read back, one by one. *)
Lemma read_items_written (pv : text -> option (value * text)) :
  forall (l : list value) (x : value) (acc : list value) (fuel : nat)
         (rest : text),
    Forall (fun y => forall r, ends_number r = true ->
                               pv (write_value y ++ r) = Some (y, r))
           (x :: l) ->
    length (x :: l) <= fuel ->
    read_items pv fuel
      (join comma_space (map write_value (x :: l)) ++ "]"%char :: rest) acc
    = Some (rev acc ++ x :: l, rest).
Proof.
  induction l as [|x1 l IH]; intros x acc fuel rest Hall Hfuel;
    (destruct fuel as [|fuel]; [cbn in Hfuel; lia|]);
    inversion Hall as [|? ? Hx Hl]; subst.
  - cbn [map join read_items]. rewrite Hx by reflexivity.
    cbn. reflexivity.
  - cbn [map]. rewrite join_two, <- !app_assoc.
    change (write_value x1 :: map write_value l)
      with (map write_value (x1 :: l)).
    remember (join comma_space (map write_value (x1 :: l))
                ++ "]"%char :: rest) as next eqn:Enext.
    cbn [read_items]. rewrite Hx by reflexivity.
    do 2 (cbn [comma_space app skip_ws]; literal_chars). subst next.
    rewrite skip_ws_values, IH; [|exact Hl|cbn in Hfuel |- *; lia].
    cbn [rev]. rewrite <- app_assoc. reflexivity.
Qed.

(** One written entry is read back as its key and its value. *)
Lemma read_member_written (pv : text -> option (value * text))
    (k : string) (v : value) (next : text) :
  (forall r, ends_number r = true -> pv (write_value v ++ r) = Some (v, r)) ->
  ends_number next = true ->
  exists tail : text,
    write_member (k, v) ++ next = dquote :: tail
    /\ exists after_key : text,
         read_string tail [] = Some (k, after_key)
         /\ exists c s2,
              skip_ws after_key = c :: s2
              /\ Ascii.eqb c ":" = true
              /\ pv (skip_ws s2) = Some (v, next).
Proof.
  intros Hv Hnext. unfold write_member. cbn [fst snd].
  rewrite <- !app_assoc.
  destruct (read_write_string k (colon_space ++ write_value v ++ next))
    as (tail & -> & Hk).
  exists tail. split; [reflexivity|].
  eexists. split; [exact Hk|].
  exists ":"%char, (" "%char :: write_value v ++ next).
  split; [reflexivity|]. split; [reflexivity|].
  change (skip_ws (" "%char :: write_value v ++ next))
    with (skip_ws (write_value v ++ next)).
  destruct (write_value_head v) as (c & t & Ev & Hc).
  rewrite Ev at 1. cbn [app]. rewrite (skip_ws_start _ _ Hc).
  change (c :: t ++ next) with ((c :: t) ++ next).
  rewrite <- Ev. apply Hv, Hnext.
Qed.

(** The entries of a written dictionary are read back, one by one. *)
Lemma read_members_written (pv : text -> option (value * text)) :
  forall (d : dict) (kv : string * value) (acc : list (string * value))
         (fuel : nat) (rest : text),
    Forall (fun e => forall r, ends_number r = true ->
                               pv (write_value (snd e) ++ r) = Some (snd e, r))
           (kv :: d) ->
    length (kv :: d) <= fuel ->
    read_members pv fuel
      (join comma_space (map write_member (kv :: d)) ++ "}"%char :: rest) acc
    = Some (rev acc ++ kv :: d, rest).
Proof.
  induction d as [|kv1 d IH]; intros [k v] acc fuel rest Hall Hfuel;
    (destruct fuel as [|fuel]; [cbn in Hfuel; lia|]);
    inversion Hall as [|? ? Hx Hl]; subst; cbn [snd] in Hx.
  - cbn [map join].
    destruct (read_member_written pv k v ("}"%char :: rest) Hx eq_refl)
      as (tail & -> & after_key & Hk & c & s2 & Hskip & Hc & Hv).
    cbn [read_members]. change (Ascii.eqb dquote dquote) with true.
    cbv iota. rewrite Hk, Hskip, Hc, Hv. cbn. reflexivity.
  - cbn [map]. rewrite join_two, <- !app_assoc.
    change (write_member kv1 :: map write_member d)
      with (map write_member (kv1 :: d)).
    remember (join comma_space (map write_member (kv1 :: d))
                ++ "}"%char :: rest) as next eqn:Enext.
    destruct (read_member_written pv k v (comma_space ++ next) Hx eq_refl)
      as (tail & -> & after_key & Hk & c & s2 & Hskip & Hc & Hv).
    cbn [read_members]. change (Ascii.eqb dquote dquote) with true.
    cbv iota. rewrite Hk, Hskip, Hc, Hv.
    do 2 (cbn [comma_space app skip_ws]; literal_chars). subst next.
    rewrite skip_ws_members, IH; [|exact Hl|cbn in Hfuel |- *; lia].
    cbn [rev]. rewrite <- app_assoc. reflexivity.
Qed.

(** Entries with distinct keys make the dictionary they are listed in. *)
Lemma dict_set_fresh (d : dict) (k : string) (v : value) :
  ~ In k (map fst d) -> dict_set d k v = d ++ [(k, v)].
Proof.
  induction d as [|[k' v'] d IH]; intros Hk; [reflexivity|].
  cbn in Hk |- *. destruct (String.eqb_spec k' k) as [->|_].
  - exfalso. apply Hk. left. reflexivity.
  - rewrite IH; [reflexivity|]. intros Hin. apply Hk. right. exact Hin.
Qed.

Lemma dict_of_pairs_distinct (pairs : list (string * value)) :
  NoDup (map fst pairs) -> dict_of_pairs pairs = pairs.
Proof.
  unfold dict_of_pairs.
  enough (Hgen : forall acc : dict,
             NoDup (map fst (acc ++ pairs)) ->
             fold_left (fun d kv => dict_set d (fst kv) (snd kv)) pairs acc
             = acc ++ pairs) by (intros H; apply (Hgen [] H)).
  induction pairs as [|[k v] pairs IH]; intros acc Hnd.
  - cbn. rewrite app_nil_r. reflexivity.
  - cbn [fold_left fst snd]. rewrite dict_set_fresh.
    + rewrite IH; rewrite <- app_assoc; [reflexivity|exact Hnd].
    + rewrite map_app in Hnd. cbn in Hnd.
      apply NoDup_remove_2 in Hnd. intros Hin. apply Hnd.
      apply in_or_app. left. exact Hin.
Qed.

(** ** Values *)

Lemma need_in (l : list value) (x : value) :
  In x l -> need x <= fold_right (fun y n => Nat.max (need y) n) 0 l.
Proof.
  induction l as [|y l IH]; intros Hin; [contradiction|].
  cbn [fold_right]. destruct Hin as [->|Hin]; [lia|].
  specialize (IH Hin). lia.
Qed.

Lemma need_in_dict (d : dict) (kv : string * value) :
  In kv d ->
  need (snd kv) <= fold_right (fun e n => Nat.max (need (snd e)) n) 0 d.
Proof.
  induction d as [|e d IH]; intros Hin; [contradiction|].
  cbn [fold_right]. destruct Hin as [->|Hin]; [lia|].
  specialize (IH Hin). lia.
Qed.

Lemma digit_is_no_opener (c : ascii) :
  is_digit c = true ->
  Ascii.eqb c dquote = false /\ Ascii.eqb c "[" = false
  /\ Ascii.eqb c "{" = false /\ Ascii.eqb c "-" = false.
Proof.
  destruct c as [[|] [|] [|] [|] [|] [|] [|] [|]]; intros H;
    solve [repeat split; reflexivity | discriminate H].
Qed.

Lemma start_is_no_closer (c : ascii) :
  value_start c = true ->
  Ascii.eqb c "]" = false /\ Ascii.eqb c "}" = false.
Proof.
  unfold value_start. intros H.
  apply andb_true_iff in H as [H H2]. apply andb_true_iff in H as [_ H1].
  apply negb_true_iff in H1, H2. auto.
Qed.

(** The reader undoes the writer, whatever comes after the value, given
    fuel for its depth and width. *)
Theorem read_written :
  forall v : value,
    keys_distinct v ->
    forall (fuel : nat) (rest : text),
      need v <= fuel ->
      ends_number rest = true ->
      read_value fuel (write_value v ++ rest) = Some (v, rest).
Proof.
  induction v as [|b|z|s|l IH|d IH] using value_induction;
    intros Hkd fuel rest Hfuel Hrest;
    (destruct fuel as [|fuel]; [cbn in Hfuel; lia|]).
  - reflexivity.
  - destruct b; reflexivity.
  - destruct (ends_number_cases _ Hrest) as [Hfloat _].
    destruct z as [|p|p].
    + change (write_value (VInt 0) ++ rest) with ("0"%char :: rest).
      cbn [read_value]. literal_chars. unfold read_nat. literal_chars.
      rewrite Hfloat. reflexivity.
    + destruct (read_nat_pos p rest Hrest) as (c & tail & E & Hd & Hread).
      cbn [write_value]. rewrite write_int_pos, E. cbn [read_value].
      destruct (digit_is_no_opener c Hd) as (-> & -> & -> & ->).
      rewrite Hd, Hread. reflexivity.
    + destruct (read_nat_pos p rest Hrest) as (c & tail & E & Hd & Hread).
      cbn [write_value]. rewrite write_int_neg. cbn [app read_value].
      literal_chars. rewrite E, Hread. reflexivity.
  - cbn [write_value].
    destruct (read_write_string s rest) as (tail & -> & Hk).
    cbn [read_value]. change (Ascii.eqb dquote dquote) with true.
    cbv iota. rewrite Hk. reflexivity.
  - destruct l as [|x l]; [reflexivity|].
    inversion Hkd as [| | | |? Hall|]; subst.
    cbn [need] in Hfuel.
    cbn [write_value app]. rewrite <- app_assoc. cbn [app read_value].
    literal_chars. rewrite skip_ws_values.
    assert (Hhead : exists c t,
               join comma_space (map write_value (x :: l))
                 ++ "]"%char :: rest = c :: t
               /\ value_start c = true).
    { cbn [map]. destruct (join_head comma_space (write_value x)
                             (map write_value l)) as (tail & ->).
      destruct (write_value_head x) as (c & t & -> & Hc).
      eexists _, _. split; [reflexivity|exact Hc]. }
    destruct Hhead as (c & t & E & Hc). rewrite E.
    destruct (start_is_no_closer c Hc) as [-> _]. rewrite <- E.
    rewrite read_items_written; [reflexivity| |lia].
    rewrite Forall_forall in IH, Hall |- *. intros y Hy r Hr.
    apply IH; [exact Hy|apply Hall, Hy| |exact Hr].
    pose proof (need_in _ _ Hy). lia.
  - destruct d as [|kv d]; [reflexivity|].
    inversion Hkd as [| | | | |? Hnd Hall]; subst.
    cbn [need] in Hfuel.
    cbn [write_value app]. rewrite <- app_assoc. cbn [app read_value].
    literal_chars.
    change (map (fun kv0 => write_string (fst kv0) ++ colon_space
                              ++ write_value (snd kv0)) (kv :: d))
      with (map write_member (kv :: d)).
    rewrite skip_ws_members.
    assert (Hhead : exists t,
               join comma_space (map write_member (kv :: d))
                 ++ "}"%char :: rest = dquote :: t).
    { cbn [map]. destruct (join_head comma_space (write_member kv)
                             (map write_member d)) as (tail & ->).
      destruct (write_member_head kv) as (t & ->).
      eexists. reflexivity. }
    destruct Hhead as (t & E). rewrite E.
    change (Ascii.eqb dquote "}") with false. cbv iota. rewrite <- E.
    rewrite read_members_written; [|  |lia].
    + rewrite dict_of_pairs_distinct by exact Hnd. reflexivity.
    + rewrite Forall_forall in IH, Hall |- *. intros e He r Hr.
      apply IH; [exact He|apply Hall, He| |exact Hr].
      pose proof (need_in_dict _ _ He). lia.
Qed.

(** ** Fuel *)

Lemma join_length (sep : text) (parts : list text) :
  Forall (fun p => 1 <= length p) parts ->
  length parts <= length (join sep parts).
Proof.
  induction 1 as [|p parts Hp _ IH]; [reflexivity|].
  destruct parts as [|q parts]; [cbn; lia|].
  rewrite join_two, !length_app. cbn [length] in *. unfold text in *. lia.
Qed.

Lemma join_bound (sep : text) (parts : list text) (p : text) :
  In p parts -> length p <= length (join sep parts).
Proof.
  induction parts as [|q parts IH]; intros Hin; [contradiction|].
  destruct parts as [|q' parts].
  - destruct Hin as [->|[]]. reflexivity.
  - rewrite join_two, !length_app. destruct Hin as [->|Hin]; [lia|].
    specialize (IH Hin). unfold text in *. lia.
Qed.

Lemma fold_max_bound {A : Type} (f : A -> nat) (l : list A) (n : nat) :
  (forall x, In x l -> f x <= n) ->
  fold_right (fun x m => Nat.max (f x) m) 0 l <= n.
Proof.
  induction l as [|x l IH]; intros H; cbn [fold_right]; [lia|].
  pose proof (H x (or_introl eq_refl)).
  assert (fold_right (fun x m => Nat.max (f x) m) 0 l <= n).
  { apply IH. intros y Hy. apply H. right. exact Hy. }
  lia.
Qed.

Lemma write_value_nonempty (v : value) : 1 <= length (write_value v).
Proof.
  destruct (write_value_head v) as (c & t & -> & _). cbn. lia.
Qed.

(** The text of a value is at least as long as the fuel it needs. *)
Lemma need_le_length :
  forall v : value, need v <= length (write_value v).
Proof.
  induction v as [|b|z|s|l IH|d IH] using value_induction;
    try apply write_value_nonempty.
  - cbn [need write_value length]. rewrite length_app. cbn [length].
    assert (length l <= length (join comma_space (map write_value l))).
    { rewrite <- (length_map write_value l). apply join_length.
      apply Forall_forall. intros p Hp. apply in_map_iff in Hp.
      destruct Hp as (x & <- & _). apply write_value_nonempty. }
    assert (fold_right (fun y n => Nat.max (need y) n) 0 l
            <= length (join comma_space (map write_value l))).
    { apply fold_max_bound. intros x Hx.
      rewrite Forall_forall in IH. specialize (IH x Hx).
      pose proof (join_bound comma_space (map write_value l)
                    (write_value x) (in_map _ _ _ Hx)). lia. }
    lia.
  - cbn [need write_value length]. rewrite length_app. cbn [length].
    change (map (fun kv0 => write_string (fst kv0) ++ colon_space
                              ++ write_value (snd kv0)) d)
      with (map write_member d).
    assert (Hmember : forall kv, length (write_value (snd kv)) + 1
                                 <= length (write_member kv)).
    { intros kv. unfold write_member, write_string.
      cbn [app length]. rewrite !length_app. cbn [length]. lia. }
    assert (length d <= length (join comma_space (map write_member d))).
    { rewrite <- (length_map write_member d). apply join_length.
      apply Forall_forall. intros p Hp. apply in_map_iff in Hp.
      destruct Hp as (x & <- & _). specialize (Hmember x). lia. }
    assert (fold_right (fun e n => Nat.max (need (snd e)) n) 0 d
            <= length (join comma_space (map write_member d))).
    { apply (fold_max_bound (fun e => need (snd e))). intros x Hx.
      rewrite Forall_forall in IH. specialize (IH x Hx).
      pose proof (join_bound comma_space (map write_member d)
                    (write_member x) (in_map _ _ _ Hx)).
      specialize (Hmember x). lia. }
    lia.
Qed.

(** [json.loads(json.dumps(v)) == v] for every value without a repeated
    key. *)
Theorem loads_dumps :
  forall v : value, keys_distinct v -> loads (dumps v) = Some v.
Proof.
  intros v Hkd. unfold loads, dumps.
  rewrite list_ascii_of_string_of_list_ascii.
  destruct (write_value_head v) as (c & t & E & Hc).
  rewrite E, (skip_ws_start _ _ Hc), <- E.
  rewrite <- (app_nil_r (write_value v)) at 2.
  rewrite read_written; [reflexivity|exact Hkd| |reflexivity].
  pose proof (need_le_length v). lia.
Qed.

End JsonFacts.

(* ===================================================================== *)
(** * Facts about lambda/index.py *)
(* ===================================================================== *)

Module IndexFacts.
Import Index Concrete.
Local Open Scope run_scope.

Lemma dict_mem_true (key : string) (d : dict) (v : value) :
  dict_lookup key d = Some v -> dict_mem key d = true.
Proof. unfold dict_mem; intros ->; reflexivity. Qed.

Lemma dict_mem_false (key : string) (d : dict) :
  dict_lookup key d = None -> dict_mem key d = false.
Proof. unfold dict_mem; intros ->; reflexivity. Qed.

Lemma dict_get_found (key : string) (d : dict) (v default : value) :
  dict_lookup key d = Some v -> dict_get d key default = v.
Proof. unfold dict_get; intros ->; reflexivity. Qed.

(** C1, as amended.  With no request context the type is [unknown],
    whatever else the envelope holds.  With a dictionary as request
    context: [function_url] when it has the [http] entry and a truthy
    [domainName]; [api_gateway_v2] when it has the [http] entry and the
    domain is absent or falsy; [api_gateway_v1] when it has no [http]
    entry and [httpMethod] is in the request context or at the top level;
    [unknown] otherwise. *)
Theorem detect_event_type_cases : forall event : dict,
  match dict_lookup "requestContext" event with
  | None => detect_event_type event = Return "unknown"
  | Some (VDict rc) =>
      detect_event_type event =
      Return (if dict_mem "http" rc then
                if truthy (dict_get rc "domainName" VNone)
                then "function_url" else "api_gateway_v2"
              else if dict_mem "httpMethod" rc || dict_mem "httpMethod" event
                   then "api_gateway_v1" else "unknown")
  | Some _ => True
  end.
Proof.
  intros event. unfold detect_event_type.
  destruct (dict_lookup "requestContext" event) as [rc|] eqn:Hrc;
    [|rewrite (dict_mem_false _ _ Hrc); reflexivity].
  destruct rc as [| | | |l|rc]; try exact I.
  rewrite (dict_mem_true _ _ _ Hrc).
  cbn [getitem bind]. rewrite Hrc. cbn [bind contains get].
  destruct (dict_mem "http" rc); cbn [bind].
  - destruct (truthy (dict_get rc "domainName" VNone)); reflexivity.
  - destruct (dict_mem "httpMethod" rc || dict_mem "httpMethod" event);
      reflexivity.
Qed.

(** C1, as stated, fails twice: a top-level [httpMethod] without a
    request context gives [unknown], and an [http] entry beside a domain
    attribute that is present but empty gives [api_gateway_v2]. *)
Lemma detect_event_type_counterexample :
  dict_mem "httpMethod" [("httpMethod", VStr "POST")] = true
  /\ detect_event_type [("httpMethod", VStr "POST")] = Return "unknown"
  /\ dict_mem "domainName"
       [("http", VDict [("method", VStr "POST")]); ("domainName", VStr "")]
     = true
  /\ detect_event_type
       [("requestContext",
         VDict [("http", VDict [("method", VStr "POST")]);
                ("domainName", VStr "")])]
     = Return "api_gateway_v2".
Proof. repeat split; reflexivity. Qed.

(** C2.  An envelope that is no queue batch, has one of the three webhook
    types, and whose body decodes to a dictionary with [type]
    ["url_verification"] and [challenge] [c] is answered with status 200,
    the no-retry header and body [c]; the run performs no effect at all:
    nothing is sent to the queue and no handler is called. *)
Theorem url_verification_reply `{Platform} :
  forall (env : environ) (context : lambda_context) (event : dict)
         (event_type body : string) (body_json : dict) (c : value),
    is_sqs_batch event = Return false ->
    detect_event_type event = Return event_type ->
    webhook_type event_type = true ->
    dict_lookup "body" event = Some (VStr body) ->
    body <> "" ->
    json_loads body = Some (VDict body_json) ->
    dict_lookup "type" body_json = Some (VStr "url_verification") ->
    dict_lookup "challenge" body_json = Some c ->
    handler env event context =
    ([], Return (VDict [ ("statusCode", VInt 200);
                         ("headers", VDict [("x-slack-no-retry", VStr "1")]);
                         ("body", c) ])).
Proof.
  intros env context event event_type body body_json c
         Hbatch Htype Hweb Hbody Hne Hloads Hty Hch.
  unfold handler. rewrite Hbatch. cbn [lift rbind]. rewrite Htype.
  cbn [lift rbind]. rewrite Hweb.
  unfold typed_event_body. rewrite (dict_get_found _ _ _ _ Hbody).
  assert (Htruthy : truthy (VStr body) = true).
  { cbn. apply negb_true_iff, String.eqb_neq, Hne. }
  rewrite Htruthy. cbn [url_verification]. rewrite Hloads.
  cbn [get bind]. rewrite (dict_get_found _ _ _ _ Hty).
  cbn [eq_str]. rewrite String.eqb_refl.
  rewrite (dict_get_found _ _ _ _ Hch). reflexivity.
Qed.

(** The handshake of the specification, through a function URL. *)
Lemma url_verification_reply_witness :
  handler queue (function_url_event verification_body) invocation =
  ([], Return (VDict [ ("statusCode", VInt 200);
                       ("headers", VDict [("x-slack-no-retry", VStr "1")]);
                       ("body", VStr "abc123") ])).
Proof.
  apply (url_verification_reply queue invocation
           (function_url_event verification_body) "function_url"
           verification_body
           [("type", VStr "url_verification"); ("challenge", VStr "abc123")]
           (VStr "abc123"));
    solve [ reflexivity | discriminate ].
Defined.

(** The same handshake through the two gateway shapes, with and without
    a queue. *)
Example url_verification_any_shape :
  forall env, In env [queue; no_queue] ->
  forall event, In event [function_url_event verification_body;
                          gateway_v1_event verification_body;
                          gateway_v2_event verification_body] ->
  handler env event invocation = ([], Return (challenge_response (VStr "abc123"))).
Proof.
  intros env [<-|[<-|[]]] event [<-|[<-|[<-|[]]]]; reflexivity.
Qed.

(** What [handler] does once the handshake test lets the envelope
    through: it enqueues when a queue is configured. *)
Lemma handler_enqueues `{Platform} :
  forall (env : environ) (context : lambda_context) (event : dict)
         (event_type queue_url : string),
    is_sqs_batch event = Return false ->
    detect_event_type event = Return event_type ->
    webhook_type event_type = true ->
    (if truthy (typed_event_body event)
     then url_verification (typed_event_body event)
     else Return None) = Return None ->
    SQS_QUEUE_URL env = Some queue_url ->
    queue_url <> "" ->
    let group := if endswith ".fifo" queue_url
                 then Some (aws_request_id context) else None in
    sqs_send_message queue_url (json_dumps (VDict event)) group = Return tt ->
    handler env event context =
    ([SqsSendMessage queue_url (json_dumps (VDict event)) group],
     Return accepted).
Proof.
  intros env context event event_type queue_url
         Hbatch Htype Hweb Hnot Hq Hne group Hsent.
  unfold handler. rewrite Hbatch. cbn [lift rbind]. rewrite Htype.
  cbn [lift rbind]. rewrite Hweb.
  assert (Hv : (if truthy (typed_event_body event)
                then lift (url_verification (typed_event_body event))
                else ret None) = ([], Return None)).
  { destruct (truthy (typed_event_body event));
      [unfold lift; rewrite Hnot|]; reflexivity. }
  rewrite Hv. cbn [rbind]. rewrite Hq.
  apply String.eqb_neq in Hne. rewrite Hne. cbn [negb].
  fold group. cbn [emit lift rbind]. rewrite Hsent. reflexivity.
Qed.

(** What is enqueued and what the consumer decodes from it, for an
    envelope that the [json] module reads back as it wrote it. *)
Lemma enqueued_and_read_back `{Platform} :
  forall (env : environ) (context : lambda_context) (event : dict)
         (event_type queue_url : string),
    json_loads (json_dumps (VDict event)) = Some (VDict event) ->
    is_sqs_batch event = Return false ->
    detect_event_type event = Return event_type ->
    webhook_type event_type = true ->
    (if truthy (typed_event_body event)
     then url_verification (typed_event_body event)
     else Return None) = Return None ->
    SQS_QUEUE_URL env = Some queue_url ->
    queue_url <> "" ->
    sqs_send_message queue_url (json_dumps (VDict event))
      (if endswith ".fifo" queue_url
       then Some (aws_request_id context) else None) = Return tt ->
    exists group,
      handler env event context =
      ([SqsSendMessage queue_url (json_dumps (VDict event)) group],
       Return accepted)
      /\ forall record : value,
           getitem record "body" = Return (VStr (json_dumps (VDict event))) ->
           original_event record = Return (VDict event).
Proof.
  intros env context event event_type queue_url
         Hrt Hbatch Htype Hweb Hnot Hq Hne Hsent.
  eexists. split.
  - eapply handler_enqueues; eassumption.
  - intros record Hbody. unfold original_event. rewrite Hbody.
    cbn [bind loads]. rewrite Hrt. reflexivity.
Qed.

(** What [record_handler] does with a record whose body decodes to a
    given event: it raises where the value for the log cannot be
    computed, having done nothing; or it calls the Slack handler, once,
    with that event. *)
Lemma record_handler_decoded `{Platform} :
  forall (record original : value) (context : lambda_context),
    original_event record = Return original ->
    (exists e : exn,
        logged_method original = Raise e
        /\ record_handler record context = ([], Raise e))
    \/ fst (record_handler record context) = [SlackHandle original].
Proof.
  intros record original context Hdecoded. unfold record_handler.
  rewrite Hdecoded. cbn [lift rbind].
  destruct (logged_method original) as [m|e]; [right|left; eauto].
  cbn. destruct (slack_handle original) as [response|e]; [|reflexivity].
  cbn. destruct (get response "statusCode" VNone); reflexivity.
Qed.

(** C3.  Let the [json] module read back every value it writes, as long
    as no dictionary in the value repeats a key; and take an envelope of
    that kind on the enqueue path: no queue batch, a webhook type, no
    handshake, a queue configured, the send accepted.  Then [handler]
    sends exactly one message and answers at once; the body of the
    message is [json.dumps] of the whole envelope; and [record_handler],
    run on any record that carries this message as its body, has decoded
    the very envelope the producer received: it hands that envelope to
    the Slack handler as its one call, unless the value it logs before
    that call cannot be computed from the envelope, in which case it
    raises that exception and has called nothing. *)
Theorem enqueue_round_trip `{Platform} :
  forall (env : environ) (context context' : lambda_context) (event : dict)
         (event_type queue_url : string),
    (forall v : value,
       MiniJson.keys_distinct v -> json_loads (json_dumps v) = Some v) ->
    MiniJson.keys_distinct (VDict event) ->
    is_sqs_batch event = Return false ->
    detect_event_type event = Return event_type ->
    webhook_type event_type = true ->
    (if truthy (typed_event_body event)
     then url_verification (typed_event_body event)
     else Return None) = Return None ->
    SQS_QUEUE_URL env = Some queue_url ->
    queue_url <> "" ->
    sqs_send_message queue_url (json_dumps (VDict event))
      (if endswith ".fifo" queue_url
       then Some (aws_request_id context) else None) = Return tt ->
    exists (group : option string) (message : string),
      handler env event context =
      ([SqsSendMessage queue_url message group], Return accepted)
      /\ message = json_dumps (VDict event)
      /\ forall record : value,
           getitem record "body" = Return (VStr message) ->
           (exists e : exn,
               logged_method (VDict event) = Raise e
               /\ record_handler record context' = ([], Raise e))
           \/ fst (record_handler record context')
              = [SlackHandle (VDict event)].
Proof.
  intros env context context' event event_type queue_url
         Hjson Hevent Hbatch Htype Hweb Hnot Hq Hne Hsent.
  pose proof (Hjson _ Hevent) as Hrt.
  destruct (enqueued_and_read_back env context event event_type queue_url
              Hrt Hbatch Htype Hweb Hnot Hq Hne Hsent)
    as (group & Hrun & Hback).
  exists group, (json_dumps (VDict event)).
  split; [exact Hrun|]. split; [reflexivity|].
  intros record Hbody.
  apply record_handler_decoded, Hback, Hbody.
Qed.

(** An envelope through API Gateway v2 with a form-encoded body, sent to
    a FIFO queue and read back from the record, with the concrete JSON
    reader and writer. *)
Lemma enqueue_round_trip_witness :
  exists (group : option string) (message : string),
    handler queue (gateway_v2_event "payload=xyz") invocation =
    ([SqsSendMessage
        "https://sqs.us-east-1.amazonaws.com/123456789012/slack.fifo"
        message group],
     Return accepted)
    /\ message = json_dumps (VDict (gateway_v2_event "payload=xyz"))
    /\ forall record : value,
         getitem record "body" = Return (VStr message) ->
         (exists e : exn,
             logged_method (VDict (gateway_v2_event "payload=xyz")) = Raise e
             /\ record_handler record invocation = ([], Raise e))
         \/ fst (record_handler record invocation)
            = [SlackHandle (VDict (gateway_v2_event "payload=xyz"))].
Proof.
  apply (enqueue_round_trip queue invocation invocation
           (gateway_v2_event "payload=xyz") "api_gateway_v2"
           "https://sqs.us-east-1.amazonaws.com/123456789012/slack.fifo").
  - exact JsonFacts.loads_dumps.
  - repeat constructor; cbn; intuition discriminate.
  - reflexivity.
  - reflexivity.
  - reflexivity.
  - reflexivity.
  - reflexivity.
  - discriminate.
  - reflexivity.
Defined.

(** The record of that run, through the concrete platform: the message
    is the envelope in JSON, and the consumer's one call is the envelope. *)
Example enqueued_record_is_handled :
  fst (handler queue (gateway_v2_event "payload=xyz") invocation)
  = [SqsSendMessage
       "https://sqs.us-east-1.amazonaws.com/123456789012/slack.fifo"
       (MiniJson.quoted
          "{'requestContext': {'http': {'method': 'POST'}}, 'body': 'payload=xyz'}")
       (Some "req-1")]
  /\ record_handler
       (VDict [("messageId", VStr "m-1");
               ("body",
                VStr (MiniJson.quoted
                        "{'requestContext': {'http': {'method': 'POST'}}, 'body': 'payload=xyz'}"));
               ("eventSource", VStr "aws:sqs")])
       invocation
     = ([SlackHandle (VDict (gateway_v2_event "payload=xyz"))], Return tt).
Proof. split; reflexivity. Qed.

(** The same record in a batch of one, through [handler] itself: the
    batch driver is started, and the consumer's one call is the
    envelope. *)
Example batch_of_one_is_handled :
  handler queue
    [("Records",
      VList [VDict [("messageId", VStr "m-1");
                    ("body",
                     VStr (json_dumps
                             (VDict (gateway_v2_event "payload=xyz"))));
                    ("eventSource", VStr "aws:sqs")]])]
    invocation
  = ([ BatchProcess
         (VDict [("Records",
                  VList [VDict [("messageId", VStr "m-1");
                                ("body",
                                 VStr (json_dumps
                                         (VDict (gateway_v2_event
                                                   "payload=xyz"))));
                                ("eventSource", VStr "aws:sqs")]])]);
       SlackHandle (VDict (gateway_v2_event "payload=xyz")) ],
     Return (VDict [("batchItemFailures", VList [])])).
Proof. reflexivity. Qed.

(** The part of C4 that the code keeps: a body that is no JSON at all is
    no handshake, and the envelope goes on to the queue. *)
Lemma undecodable_body_is_enqueued `{Platform} :
  forall (env : environ) (context : lambda_context) (event : dict)
         (event_type body queue_url : string),
    is_sqs_batch event = Return false ->
    detect_event_type event = Return event_type ->
    webhook_type event_type = true ->
    dict_lookup "body" event = Some (VStr body) ->
    json_loads body = None ->
    SQS_QUEUE_URL env = Some queue_url ->
    queue_url <> "" ->
    sqs_send_message queue_url (json_dumps (VDict event))
      (if endswith ".fifo" queue_url
       then Some (aws_request_id context) else None) = Return tt ->
    snd (handler env event context) = Return accepted.
Proof.
  intros env context event event_type body queue_url
         Hbatch Htype Hweb Hbody Hloads Hq Hne Hsent.
  erewrite handler_enqueues; try eassumption; [reflexivity|].
  unfold typed_event_body. rewrite (dict_get_found _ _ _ _ Hbody).
  cbn [url_verification]. rewrite Hloads.
  destruct (truthy (VStr body)); reflexivity.
Qed.

(** C4 at its failing input: a body that is valid JSON but no object.
    [json.loads] returns a list, the list has no [get], and the
    [AttributeError] is not the exception the [except] clause names: the
    handler raises instead of going on to the queue. *)
Theorem non_object_body_raises :
  MiniJson.loads "[]" = Some (VList [])
  /\ detect_event_type (function_url_event "[]") = Return "function_url"
  /\ handler queue (function_url_event "[]") invocation
     = ([], Raise AttributeError)
  /\ handler no_queue (function_url_event "[]") invocation
     = ([], Raise AttributeError).
Proof. repeat split; reflexivity. Qed.

(** C5 at its failing inputs.  With [Records] present but empty, the
    default of [event.get("Records", [{}])] is not used, [[][0]] raises
    and [handler] ends with [IndexError] on every platform; with a
    request context that is [None], the membership test of
    [detect_event_type] raises [TypeError]. *)
Theorem classification_raises `{Platform} :
  forall (env : environ) (context : lambda_context),
    is_sqs_batch [("Records", VList [])] = Raise IndexError
    /\ handler env [("Records", VList [])] context = ([], Raise IndexError)
    /\ detect_event_type [("requestContext", VNone)] = Raise TypeError
    /\ handler env [("requestContext", VNone)] context = ([], Raise TypeError).
Proof. intros env context. repeat split; reflexivity. Qed.

End IndexFacts.

(* ===================================================================== *)
(** * Facts about the matcher *)
(* ===================================================================== *)

Module ReFacts.
Import Re.

(** [cl+?] returns only through its continuation, after at least one
    character of the class. *)
Lemma lazy_plus_sound (cl : cclass) (k : mstate -> option mstate) :
  forall (a b g : text) (m : mstate),
    lazy_plus cl b a g k = Some m ->
    exists w rest,
      w <> [] /\ forallb (cmatch cl) w = true /\ a = w ++ rest
      /\ k (MState (rev w ++ b) rest g) = Some m.
Proof.
  induction a as [|c a IH]; intros b g m Hm; [discriminate|].
  cbn in Hm. destruct (cmatch cl c) eqn:Hc; [|discriminate].
  destruct (k (MState (c :: b) a g)) as [m'|] eqn:Hk.
  - injection Hm as <-. exists [c], a. cbn. rewrite Hc.
    repeat split; [discriminate|assumption].
  - destruct (IH _ _ _ Hm) as (w & rest & Hne & Hall & -> & Hk').
    exists (c :: w), rest. cbn. rewrite Hc, Hall.
    repeat split; [discriminate|].
    rewrite <- app_assoc. exact Hk'.
Qed.

Lemma consumed_app (b w a a' g g' : text) :
  consumed (MState b a g) (MState (rev w ++ b) a' g') = w.
Proof.
  unfold consumed. cbn [behind].
  rewrite length_app, length_rev, Nat.add_sub.
  rewrite <- (length_rev w) at 1.
  rewrite firstn_app, Nat.sub_diag, firstn_all, firstn_O, app_nil_r.
  apply rev_involutive.
Qed.

(** Soundness of the matcher: a match is a word of the pattern's
    language, taken from the front of what was ahead. *)
Lemma rmatch_sound (r : regex) :
  forall (s : mstate) (k : mstate -> option mstate) (m : mstate),
    rmatch r s k = Some m ->
    exists w rest g',
      lang r (behind s) w rest (group1 s) g'
      /\ ahead s = w ++ rest
      /\ k (MState (rev w ++ behind s) rest g') = Some m.
Proof.
  induction r as [|c|cl|cl|cl|r1 IH1 r2 IH2|r1 IH1 r2 IH2|r IH];
    intros [b a g] k m Hm; cbn [rmatch behind ahead group1] in *.
  - exists [], a, g. cbn. auto.
  - destruct a as [|c' a]; [discriminate|].
    destruct (Ascii.eqb c c') eqn:Hc; [|discriminate].
    apply Ascii.eqb_eq in Hc. subst c'.
    exists [c], a, g. cbn. auto.
  - destruct (lazy_plus_sound _ _ _ _ _ _ Hm) as (w & rest & ? & ? & ? & ?).
    exists w, rest, g. cbn. auto.
  - exists [], a, g. cbn.
    destruct a as [|c a]; [auto|].
    destruct (cmatch cl c); [discriminate|auto].
  - exists [], a, g. cbn.
    destruct b as [|c b]; [auto|].
    destruct (cmatch cl c); [discriminate|auto].
  - destruct (IH1 _ _ _ Hm) as (w1 & rest1 & g1 & L1 & E1 & K1).
    destruct (IH2 _ _ _ K1) as (w2 & rest & g' & L2 & E2 & K2).
    cbn [behind ahead group1] in *. subst a rest1.
    exists (w1 ++ w2), rest, g'. cbn [lang].
    rewrite rev_app_distr, <- !app_assoc. repeat split; [|assumption].
    exists w1, w2, g1. auto.
  - destruct (rmatch r1 (MState b a g) k) as [m'|] eqn:H1.
    + injection Hm as <-.
      destruct (IH1 _ _ _ H1) as (w & rest & g' & L & E & K).
      exists w, rest, g'. cbn [lang]. auto.
    + destruct (IH2 _ _ _ Hm) as (w & rest & g' & L & E & K).
      exists w, rest, g'. cbn [lang]. auto.
  - destruct (IH _ _ _ Hm) as (w & rest & g0 & L & E & K).
    cbn [behind ahead group1] in *.
    rewrite consumed_app in K.
    exists w, rest, w. cbn [lang]. repeat split; eauto.
Qed.

Lemma match_here_sound (r : regex) (b a : text) (m : mstate) :
  match_here r b a = Some m ->
  exists w,
    lang r b w (ahead m) [] (group1 m)
    /\ a = w ++ ahead m
    /\ behind m = rev w ++ b.
Proof.
  unfold match_here. intros Hm.
  destruct (rmatch_sound _ _ _ _ Hm) as (w & rest & g' & L & E & K).
  cbn [behind ahead group1] in *. injection K as <-.
  exists w. cbn. auto.
Qed.

(** ** Patterns that do not look behind *)

Lemma shifted_refl (b b' w a g : text) :
  shifted b b' (Some (MState (w ++ b) a g)) (Some (MState (w ++ b') a g)).
Proof. cbn. eauto. Qed.

Lemma lazy_plus_shift (cl : cclass) (b b' : text)
    (k k' : mstate -> option mstate) :
  (forall w a g,
      shifted b b' (k (MState (w ++ b) a g)) (k' (MState (w ++ b') a g))) ->
  forall a w g,
    shifted b b' (lazy_plus cl (w ++ b) a g k) (lazy_plus cl (w ++ b') a g k').
Proof.
  intros Hk. induction a as [|c a IH]; intros w g; cbn [lazy_plus];
    [exact I|].
  destruct (cmatch cl c); [|exact I].
  pose proof (Hk (c :: w) a g) as Hc. cbn [app] in Hc.
  destruct (k (MState (c :: w ++ b) a g)),
           (k' (MState (c :: w ++ b') a g)); try contradiction.
  - exact Hc.
  - apply (IH (c :: w)).
Qed.

(** What lies behind the start of a match does not matter to a pattern
    that never looks behind. *)
Lemma rmatch_shift (b b' : text) (r : regex) :
  behind_free r = true ->
  forall (w a g : text) (k k' : mstate -> option mstate),
    (forall w a g,
        shifted b b' (k (MState (w ++ b) a g)) (k' (MState (w ++ b') a g))) ->
    shifted b b' (rmatch r (MState (w ++ b) a g) k)
                 (rmatch r (MState (w ++ b') a g) k').
Proof.
  induction r as [|c|cl|cl|cl|r1 IH1 r2 IH2|r1 IH1 r2 IH2|r IH];
    intros Hfree w a g k k' Hk; cbn [rmatch behind ahead group1].
  - apply Hk.
  - destruct a as [|c' a]; [exact I|].
    destruct (Ascii.eqb c c'); [|exact I]. apply (Hk (c' :: w)).
  - apply lazy_plus_shift, Hk.
  - destruct a as [|c a]; [apply Hk|].
    destruct (cmatch cl c); [exact I|apply Hk].
  - discriminate.
  - cbn in Hfree. apply andb_prop in Hfree as [H1 H2].
    apply IH1; [exact H1|]. intros w' a' g'. apply IH2; assumption.
  - cbn in Hfree. apply andb_prop in Hfree as [H1 H2].
    pose proof (IH1 H1 w a g k k' Hk) as Hfirst.
    destruct (rmatch r1 (MState (w ++ b) a g) k),
             (rmatch r1 (MState (w ++ b') a g) k'); try contradiction.
    + exact Hfirst.
    + apply IH2; assumption.
  - cbn in Hfree. apply IH; [exact Hfree|]. intros w' a' g'.
    cbn [behind ahead].
    assert (Hc : forall base : text,
               consumed (MState (w ++ base) a g) (MState (w' ++ base) a' g')
               = rev (firstn (length w' - length w) w')).
    { intros base. unfold consumed. cbn [behind].
      rewrite !length_app.
      replace (length w' + length base - (length w + length base))
        with (length w' - length w) by lia.
      rewrite firstn_app.
      replace (length w' - length w - length w') with 0 by lia.
      rewrite firstn_O, app_nil_r. reflexivity. }
    rewrite !Hc. apply Hk.
Qed.

Lemma match_here_shift (r : regex) (b b' a : text) :
  behind_free r = true ->
  shifted b b' (match_here r b a) (match_here r b' a).
Proof.
  intros Hfree. unfold match_here.
  apply (rmatch_shift b b' r Hfree [] a []).
  intros w a' g. apply shifted_refl.
Qed.

(** So the split by such a pattern does not depend on what was read
    before. *)
Lemma split_scan_shift (r : regex) :
  behind_free r = true ->
  forall (a b b' : text) (skip : nat) (cur : text),
    split_scan r b a skip cur = split_scan r b' a skip cur.
Proof.
  intros Hfree. induction a as [|c a IH]; intros b b' skip cur;
    cbn [split_scan].
  - destruct skip; [|reflexivity].
    pose proof (match_here_shift r b b' [] Hfree) as Hm.
    destruct (match_here r b []) as [m|], (match_here r b' []) as [m'|];
      try contradiction; [|reflexivity].
    destruct Hm as (_ & -> & _). reflexivity.
  - destruct skip as [|n]; [|apply IH].
    pose proof (match_here_shift r b b' (c :: a) Hfree) as Hm.
    destruct (match_here r b (c :: a)) as [m|],
             (match_here r b' (c :: a)) as [m'|];
      try contradiction; [|apply IH].
    destruct Hm as (_ & Hg & w & Hb & Hb').
    unfold match_length. rewrite Hb, Hb', !length_app, !Nat.add_sub, Hg.
    destruct (length w); f_equal; f_equal; apply IH.
Qed.

(** ** Where a lazy repetition stops *)

(** [cl+?] stops at the first place, after one character at least,
    where the rest of the pattern matches. *)
Lemma lazy_plus_first (cl : cclass) (k : mstate -> option mstate) :
  forall (w b rest g : text) (m : mstate),
    w <> [] ->
    forallb (cmatch cl) w = true ->
    (forall w1 w2,
        w = w1 ++ w2 -> w1 <> [] -> w2 <> [] ->
        k (MState (rev w1 ++ b) (w2 ++ rest) g) = None) ->
    k (MState (rev w ++ b) rest g) = Some m ->
    lazy_plus cl b (w ++ rest) g k = Some m.
Proof.
  induction w as [|c w IH]; intros b rest g m Hne Hall Hbefore Hk;
    [congruence|].
  cbn in Hall. apply andb_prop in Hall as [Hc Hall].
  cbn [app lazy_plus]. rewrite Hc.
  destruct w as [|c' w].
  - cbn in Hk |- *. rewrite Hk. reflexivity.
  - assert (H0 := Hbefore [c] (c' :: w) eq_refl
                    ltac:(discriminate) ltac:(discriminate)).
    cbn in H0. cbn [app]. rewrite H0.
    change (c' :: w ++ rest) with ((c' :: w) ++ rest).
    apply IH; try assumption; try discriminate.
    + intros w1 w2 E Hw1 Hw2.
      specialize (Hbefore (c :: w1) w2). cbn in Hbefore.
      rewrite <- app_assoc in Hbefore. apply Hbefore;
        [rewrite E; reflexivity|discriminate|assumption].
    + cbn in Hk |- *. rewrite <- !app_assoc in Hk.
      rewrite <- app_assoc. exact Hk.
Qed.

End ReFacts.

(* ===================================================================== *)
(** * Facts about [markdown_to_slack] *)
(* ===================================================================== *)

Module TranscoderFacts.
Import Re LlmCaller ReFacts.

(** Takes a hypothesis apart into its atoms. *)
Ltac break :=
  repeat match goal with
         | H : _ /\ _ |- _ => destruct H
         | H : exists _, _ |- _ => destruct H
         | H : _ \/ _ |- _ => destruct H
         end; subst.

Lemma append_nil_r (s : string) : (s ++ "")%string = s.
Proof. induction s as [|c s IH]; cbn; [|rewrite IH]; reflexivity. Qed.

Lemma append_assoc (s t u : string) :
  ((s ++ t) ++ u)%string = (s ++ t ++ u)%string.
Proof. induction s as [|c s IH]; cbn; [|rewrite IH]; reflexivity. Qed.

Lemma concat_cons (x : string) (xs : list string) :
  String.concat "" (x :: xs) = (x ++ String.concat "" xs)%string.
Proof.
  destruct xs as [|y xs]; cbn [String.concat];
    [rewrite append_nil_r|]; reflexivity.
Qed.

Lemma string_of_text_app (u v : text) :
  string_of_list_ascii (u ++ v)
  = (string_of_list_ascii u ++ string_of_list_ascii v)%string.
Proof. induction u as [|c u IH]; cbn; [|rewrite IH]; reflexivity. Qed.

Lemma concat_string_of_text (parts : list text) :
  String.concat "" (map string_of_list_ascii parts)
  = string_of_list_ascii (List.concat parts).
Proof.
  induction parts as [|u parts IH]; [reflexivity|].
  cbn [map List.concat].
  rewrite concat_cons, string_of_text_app, IH. reflexivity.
Qed.

Lemma text_of_string_nonempty (x : text) :
  x <> [] -> string_of_list_ascii x <> "".
Proof. destruct x; [congruence|discriminate]. Qed.

(** The loop of [markdown_to_slack] appends the image of each part. *)
Lemma fold_append (f : string -> string) (parts : list string) :
  forall acc : string,
    fold_left (fun result part => (result ++ f part)%string) parts acc
    = (acc ++ String.concat "" (map f parts))%string.
Proof.
  induction parts as [|p parts IH]; intros acc; cbn [fold_left map].
  - cbn. symmetry. apply append_nil_r.
  - rewrite IH, concat_cons, append_assoc. reflexivity.
Qed.

Lemma markdown_to_slack_parts (content : string) :
  markdown_to_slack content
  = String.concat "" (map transcode_part (Re.split code_span content)).
Proof. unfold markdown_to_slack. cbn zeta. apply fold_append. Qed.

(** A part that begins with a backtick is appended as it is. *)
Lemma transcode_part_backtick (rest : string) :
  transcode_part (String backtick rest) = String backtick rest.
Proof.
  unfold transcode_part.
  replace (String.prefix "`" (String backtick rest)) with true;
    [rewrite orb_true_r; reflexivity|].
  cbn. destruct rest; reflexivity.
Qed.

(** What the code pattern matches has the shape of a code span, and is
    what group 1 captures. *)
Lemma code_span_lang (b w rest g g' : text) :
  lang code_span b w rest g g' ->
  g' = w
  /\ (fenced_block (string_of_list_ascii w)
      \/ inline_code (string_of_list_ascii w))
  /\ exists w', w = backtick :: w'.
Proof.
  cbn [code_span lang lits]. intros H. break.
  - split; [reflexivity|]. split; [|eexists; reflexivity]. left.
    match goal with Hne : ?x <> [] |- _ =>
      exists (string_of_list_ascii x); split;
        [apply text_of_string_nonempty, Hne|]
    end.
    cbn. rewrite !string_of_text_app. reflexivity.
  - split; [reflexivity|]. split; [|eexists; reflexivity]. right.
    match goal with Hne : ?x <> [] |- _ =>
      exists (string_of_list_ascii x); split;
        [apply text_of_string_nonempty, Hne|]
    end.
    rewrite list_ascii_of_string_of_list_ascii. split; [assumption|].
    cbn. rewrite !string_of_text_app. reflexivity.
Qed.

(** A match of the code pattern: a code span at the front of what was
    ahead, captured whole by group 1. *)
Lemma match_code_span (b a : text) (m : mstate) :
  match_here code_span b a = Some m ->
  exists w' : text,
    group1 m = backtick :: w'
    /\ a = (backtick :: w') ++ ahead m
    /\ match_length b m = S (length w')
    /\ (fenced_block (string_of_list_ascii (backtick :: w'))
        \/ inline_code (string_of_list_ascii (backtick :: w'))).
Proof.
  intros Hm. destruct (match_here_sound _ _ _ _ Hm) as (w & L & Ea & Eb).
  destruct (code_span_lang _ _ _ _ _ L) as (Eg & Hcode & w' & ->).
  exists w'. repeat split; try assumption.
  unfold match_length. rewrite Eb, length_app, length_rev, Nat.add_sub.
  reflexivity.
Qed.

Lemma no_code_span_at_end (b : text) : match_here code_span b [] = None.
Proof. reflexivity. Qed.

(** The split loses nothing and keeps every code span: its parts, put
    together again, are the text that was still to be scanned. *)
Lemma split_scan_code_span :
  forall (a b : text) (skip : nat) (cur : text),
    skip <= length a ->
    List.concat (split_scan code_span b a skip cur) = rev cur ++ skipn skip a
    /\ code_kept (map string_of_list_ascii (split_scan code_span b a skip cur)).
Proof.
  induction a as [|c a IH]; intros b skip cur Hskip.
  - destruct skip; [|cbn in Hskip; lia].
    cbn [split_scan]. rewrite no_code_span_at_end. cbn.
    split; [reflexivity|constructor].
  - destruct skip as [|n]; cbn [split_scan].
    + destruct (match_here code_span b (c :: a)) as [m|] eqn:Hm.
      * destruct (match_code_span _ _ _ Hm) as (w' & Eg & Ea & El & Hcode).
        rewrite El, Eg. cbn in Ea. injection Ea as -> Ea.
        destruct (IH (backtick :: b) (length w') [])
          as [Hcat Hkept]; [rewrite Ea, length_app; lia|].
        split.
        -- assert (Hs : skipn (length w') a = ahead m).
           { rewrite Ea, skipn_app, skipn_all, Nat.sub_diag. reflexivity. }
           cbn [List.concat]. rewrite Hcat, Hs. cbn.
           rewrite <- Ea. reflexivity.
        -- cbn [map]. constructor; [exact Hcode| |exact Hkept].
           apply transcode_part_backtick.
      * destruct (IH (c :: b) 0 (c :: cur)) as [Hcat Hkept]; [lia|].
        split; [|exact Hkept].
        rewrite Hcat. cbn [rev skipn]. rewrite <- app_assoc. reflexivity.
    + cbn in Hskip. apply IH. lia.
Qed.

(** C10.  Whatever part of the split begins with a backtick is appended
    as it is, code span or not; so a text with one unpaired backtick at
    its front, or with a fence that is never closed, comes back
    unchanged, emphasis marks included. *)
Theorem backtick_part_passes_through :
  (forall content : string,
     markdown_to_slack content
     = String.concat "" (map transcode_part (Re.split code_span content)))
  /\ (forall rest : string,
        transcode_part (String backtick rest) = String backtick rest)
  /\ Re.split code_span "`*x*" = ["`*x*"]
  /\ markdown_to_slack "`*x*" = "`*x*"
  /\ Re.split code_span "```**x**" = ["```**x**"]
  /\ markdown_to_slack "```**x**" = "```**x**".
Proof.
  repeat split.
  - apply markdown_to_slack_parts.
  - apply transcode_part_backtick.
Qed.

(** A span with a character that is no whitespace right after it begins
    and right before it ends. *)
Lemma well_delimited_intro (x t1 t2 b' : text) :
  x <> [] ->
  match (x ++ t1) ++ t2 with
  | [] => True
  | c :: _ => cmatch CSpace c = false
  end ->
  match rev x ++ b' with
  | [] => True
  | c :: _ => cmatch CSpace c = false
  end ->
  well_delimited x = true.
Proof.
  intros Hne Hfirst Hlast.
  destruct (exists_last Hne) as (y & l & E).
  destruct x as [|c x]; [congruence|].
  cbn in Hfirst. unfold well_delimited. rewrite Hfirst.
  rewrite E in Hlast |- *. rewrite rev_app_distr in Hlast. cbn in Hlast.
  rewrite last_last, Hlast. reflexivity.
Qed.

Ltac emphasis :=
  let Hm := fresh "Hm" in
  let w := fresh "w" in
  let L := fresh "L" in
  let Ea := fresh "Ea" in
  let Eb := fresh "Eb" in
  intros b a; destruct (match_here _ b a) as [m|] eqn:Hm; [|exact I];
  destruct (match_here_sound _ _ _ _ Hm) as (w & L & Ea & Eb);
  cbn [bold_italic italic bold bold_underscore strike lang lits] in L;
  break; split;
  [ cbn; rewrite <- ?app_assoc; reflexivity
  | eapply well_delimited_intro; eassumption ].

Lemma bold_italic_match : emphasis_match bold_italic "***".
Proof. unfold emphasis_match. emphasis. Qed.

Lemma italic_match : emphasis_match italic "*".
Proof. unfold emphasis_match. emphasis. Qed.

Lemma bold_match : emphasis_match bold "**".
Proof. unfold emphasis_match. emphasis. Qed.

Lemma bold_underscore_match : emphasis_match bold_underscore "__".
Proof. unfold emphasis_match. emphasis. Qed.

Lemma strike_match : emphasis_match strike "~~".
Proof. unfold emphasis_match. emphasis. Qed.

Lemma length_string_of_text (t : text) :
  String.length (string_of_list_ascii t) = length t.
Proof. induction t as [|c t IH]; cbn; [|rewrite IH]; reflexivity. Qed.

Lemma length_text_of_string (s : string) :
  length (list_ascii_of_string s) = String.length s.
Proof. induction s as [|c s IH]; cbn; [|rewrite IH]; reflexivity. Qed.

Lemma length_string_append (s t : string) :
  String.length (s ++ t) = String.length s + String.length t.
Proof. induction s as [|c s IH]; cbn; [|rewrite IH]; reflexivity. Qed.

(** A match of one of the five patterns is as long as twice its
    delimiter and its span, and lies within what was ahead. *)
Lemma emphasis_length (pattern : regex) (delimiter : string) :
  emphasis_match pattern delimiter ->
  forall (b a : text) (m : mstate),
    match_here pattern b a = Some m ->
    match_length b m = 2 * String.length delimiter + length (group1 m)
    /\ match_length b m <= length a.
Proof.
  intros Hmatch b a m Hm.
  destruct (match_here_sound _ _ _ _ Hm) as (w & _ & Ea & Eb).
  specialize (Hmatch b a). rewrite Hm in Hmatch. destruct Hmatch as [E _].
  unfold text in *.
  assert (Hw : match_length b m = length w).
  { unfold match_length. rewrite Eb, length_app, length_rev. lia. }
  assert (Hlen : length a = length w + length (ahead m)).
  { rewrite Ea at 1. apply length_app. }
  assert (Hspan : length a
                  = String.length delimiter
                    + (length (group1 m)
                       + (String.length delimiter + length (ahead m)))).
  { rewrite E at 1. rewrite !length_app, !length_text_of_string.
    reflexivity. }
  lia.
Qed.

Lemma text_of_string_append (s t : string) :
  list_ascii_of_string (s ++ t)
  = list_ascii_of_string s ++ list_ascii_of_string t.
Proof. induction s as [|c s IH]; cbn; [|rewrite IH]; reflexivity. Qed.

(** ** Where the split finds a code span *)

Lemma forallb_any (w : text) : forallb (cmatch CAny) w = true.
Proof. induction w as [|c w IH]; [reflexivity|exact IH]. Qed.

Lemma rev_fence (w b : text) :
  rev (backtick :: backtick :: backtick :: w
       ++ [backtick; backtick; backtick]) ++ b
  = backtick :: backtick :: backtick :: rev w
    ++ backtick :: backtick :: backtick :: b.
Proof.
  cbn [rev]. rewrite rev_app_distr. cbn [rev app].
  rewrite <- !app_assoc. reflexivity.
Qed.

Lemma rev_inline (w b : text) :
  rev (backtick :: w ++ [backtick]) ++ b
  = backtick :: rev w ++ backtick :: b.
Proof.
  cbn [rev]. rewrite rev_app_distr. cbn [rev app].
  rewrite <- !app_assoc. reflexivity.
Qed.

(** Three backticks at the front of a text, as [str.startswith] and as
    the matcher see them. *)
Lemma no_fence_ahead (a : text) :
  String.prefix "```" (string_of_list_ascii a) = false ->
  match a with
  | c0 :: c1 :: c2 :: _ =>
      Ascii.eqb "`" c0 && Ascii.eqb "`" c1 && Ascii.eqb "`" c2 = false
  | _ => True
  end.
Proof.
  destruct a as [|c0 [|c1 [|c2 a]]]; try exact (fun _ => I).
  cbn [string_of_list_ascii String.prefix]. intros Hp.
  destruct (ascii_dec "`" c0) as [<-|H0];
    [|apply Ascii.eqb_neq in H0; rewrite H0; reflexivity].
  destruct (ascii_dec "`" c1) as [<-|H1];
    [|apply Ascii.eqb_neq in H1; rewrite H1; reflexivity].
  destruct (ascii_dec "`" c2) as [<-|H2];
    [|apply Ascii.eqb_neq in H2; rewrite H2; reflexivity].
  destruct (string_of_list_ascii a); discriminate.
Qed.

(** An inline span at the front of a text is what the pattern matches
    there. *)
Lemma inline_found (b w after : text) :
  w <> [] ->
  forallb (cmatch (CNoneOf [backtick; newline])) w = true ->
  match_here code_span b ((backtick :: w ++ [backtick]) ++ after)
  = Some (MState (rev (backtick :: w ++ [backtick]) ++ b) after
                 (backtick :: w ++ [backtick])).
Proof.
  intros Hne Hall.
  assert (Hin : forall c, In c w -> Ascii.eqb backtick c = false).
  { intros c Hc. rewrite forallb_forall in Hall. specialize (Hall c Hc).
    cbn in Hall. rewrite Ascii.eqb_sym.
    destruct (Ascii.eqb c backtick); [discriminate|reflexivity]. }
  destruct w as [|c w]; [congruence|].
  unfold match_here, code_span.
  cbn [rmatch lits behind ahead group1 app].
  rewrite <- app_assoc. cbn [app].
  change (Ascii.eqb "`" c) with (Ascii.eqb backtick c).
  rewrite (Hin c (or_introl eq_refl)). cbn [andb].
  change (Ascii.eqb "`" backtick) with true. cbn match.
  rewrite Ascii.eqb_refl.
  change (c :: w ++ backtick :: after) with ((c :: w) ++ backtick :: after).
  erewrite lazy_plus_first; [reflexivity| discriminate | exact Hall | |].
  - intros w1 w2 E Hw1 Hw2. cbn [ahead].
    destruct w2 as [|c2 w2]; [congruence|]. cbn [app].
    rewrite Hin; [reflexivity|].
    rewrite E. apply in_or_app. right. left. reflexivity.
  - cbn [ahead behind group1]. rewrite Ascii.eqb_refl.
    change (backtick :: c :: w ++ [backtick])
      with (backtick :: (c :: w) ++ [backtick]).
    rewrite rev_inline. f_equal. f_equal.
    rewrite <- (rev_inline (c :: w) b). apply consumed_app.
Qed.

(** A fenced block that ends at its first closing fence, at the front
    of a text, is what the pattern matches there. *)
Lemma fenced_found (b w after : text) :
  w <> [] ->
  (forall w1 w2,
      w = w1 ++ w2 -> w1 <> [] -> w2 <> [] ->
      String.prefix "```"
        (string_of_list_ascii (w2 ++ [backtick; backtick; backtick]))
      = false) ->
  match_here code_span b
    ((backtick :: backtick :: backtick :: w
      ++ [backtick; backtick; backtick]) ++ after)
  = Some (MState (rev (backtick :: backtick :: backtick :: w
                       ++ [backtick; backtick; backtick]) ++ b)
                 after
                 (backtick :: backtick :: backtick :: w
                  ++ [backtick; backtick; backtick])).
Proof.
  intros Hne Hfirst.
  unfold match_here, code_span.
  cbn [rmatch lits behind ahead group1 app].
  change (Ascii.eqb "`" backtick) with true. cbn match.
  rewrite <- app_assoc. cbn [app].
  erewrite lazy_plus_first;
    [reflexivity| exact Hne | apply forallb_any | |].
  - intros w1 w2 E Hw1 Hw2. cbn [ahead].
    pose proof (no_fence_ahead _ (Hfirst w1 w2 E Hw1 Hw2)) as Hno.
    destruct w2 as [|c0 [|c1 [|c2 w2]]]; [congruence| | |];
      cbn [app] in Hno |- *;
      repeat match goal with
             | |- context [Ascii.eqb ?x ?y] =>
                 destruct (Ascii.eqb x y); try reflexivity
             end;
      discriminate.
  - cbn [ahead behind group1].
    change (Ascii.eqb "`" backtick) with true. cbn match.
    rewrite rev_fence. f_equal. f_equal.
    rewrite <- (rev_fence w b). apply consumed_app.
Qed.

(** ** The split around a code span *)

(** Where the pattern matches, a code span begins. *)
Lemma match_begins (b a : text) (m : mstate) :
  match_here code_span b a = Some m ->
  code_begins (string_of_list_ascii a).
Proof.
  intros Hm. destruct (match_code_span _ _ _ Hm) as (w' & _ & Ea & _ & Hg).
  exists (string_of_list_ascii (backtick :: w')),
         (string_of_list_ascii (ahead m)).
  split; [|exact Hg]. rewrite <- string_of_text_app, <- Ea. reflexivity.
Qed.

(** A code span begins with a backtick. *)
Lemma code_begins_backtick (a : string) :
  code_begins a -> exists a', a = String backtick a'.
Proof.
  intros (g & rest & -> & [(inside & _ & ->) | (inside & _ & _ & ->)]);
    eexists; reflexivity.
Qed.

Lemma code_free_without_backtick (before after : string) :
  forallb (fun c => negb (Ascii.eqb c backtick))
          (list_ascii_of_string before) = true ->
  code_free before after.
Proof.
  intros Hnone p s -> Hs Hcode.
  destruct (code_begins_backtick _ Hcode) as (a' & Ea).
  destruct s as [|c s]; [congruence|]. cbn in Ea. injection Ea as -> _.
  rewrite text_of_string_append, forallb_app in Hnone.
  apply andb_prop in Hnone as [_ Hs']. cbn in Hs'. discriminate.
Qed.

Lemma code_free_alone (before after : string) :
  code_free before after -> code_free before "".
Proof.
  intros Hfree p s E Hs (g & rest & Ea & Hg).
  apply (Hfree p s E Hs). exists g, (rest ++ after)%string.
  split; [|exact Hg].
  rewrite append_nil_r in Ea. rewrite Ea, append_assoc. reflexivity.
Qed.

(** Over a stretch where no code span begins, the scan only gathers
    characters. *)
Lemma split_scan_text (rest : text) :
  forall B b cur : text,
    (forall p s,
        B = p ++ s -> s <> [] ->
        forall b0, match_here code_span b0 (s ++ rest) = None) ->
    split_scan code_span b (B ++ rest) 0 cur
    = split_scan code_span (rev B ++ b) rest 0 (rev B ++ cur).
Proof.
  induction B as [|c B IH]; intros b cur Hfree; [reflexivity|].
  pose proof (Hfree [] (c :: B) eq_refl ltac:(discriminate) b) as Hhere.
  cbn [app] in Hhere |- *. cbn [split_scan]. rewrite Hhere.
  rewrite IH.
  - cbn [rev]. rewrite <- !app_assoc. reflexivity.
  - intros p s E Hs b0. apply (Hfree (c :: p) s); [|exact Hs].
    rewrite E. reflexivity.
Qed.

(** The characters of a match, once its first is passed, are passed
    over one by one. *)
Lemma split_scan_skip (r : regex) (rest : text) :
  forall w b cur : text,
    split_scan r b (w ++ rest) (length w) cur
    = split_scan r (rev w ++ b) rest 0 cur.
Proof.
  induction w as [|c w IH]; intros b cur; [reflexivity|].
  cbn [app length split_scan]. rewrite IH. cbn [rev].
  rewrite <- app_assoc. reflexivity.
Qed.

(** At a code span the scan closes the text it has gathered, keeps the
    span, and goes on behind it as if it began there. *)
Lemma split_scan_span (G A b cur : text) :
  G <> [] ->
  match_here code_span b (G ++ A) = Some (MState (rev G ++ b) A G) ->
  split_scan code_span b (G ++ A) 0 cur
  = rev cur :: G :: split_scan code_span [] A 0 [].
Proof.
  intros Hne Hm. destruct G as [|c G]; [congruence|].
  cbn [app] in Hm |- *. cbn [split_scan]. rewrite Hm.
  unfold match_length. cbn [behind group1].
  rewrite length_app, length_rev, Nat.add_sub. cbn [length].
  rewrite split_scan_skip.
  rewrite (split_scan_shift code_span eq_refl A _ []). reflexivity.
Qed.

Lemma text_of_string_empty (s : string) :
  list_ascii_of_string s = [] -> s = "".
Proof. destruct s; [reflexivity|discriminate]. Qed.

(** The span that is taken at a place is what the pattern matches
    there. *)
Lemma code_span_found (span : string) (b A : text) :
  code_span_here span ->
  list_ascii_of_string span <> []
  /\ match_here code_span b (list_ascii_of_string span ++ A)
     = Some (MState (rev (list_ascii_of_string span) ++ b) A
                    (list_ascii_of_string span)).
Proof.
  intros [(inside & Hne & Hall & ->) | (inside & Hne & Hfirst & ->)].
  - rewrite !text_of_string_append.
    change (list_ascii_of_string "`") with [backtick].
    cbn [app]. split; [discriminate|].
    apply inline_found; [|exact Hall].
    intros E. apply Hne, text_of_string_empty, E.
  - rewrite !text_of_string_append.
    change (list_ascii_of_string "```")
      with [backtick; backtick; backtick].
    cbn [app]. split; [discriminate|].
    apply fenced_found.
    + intros E. apply Hne, text_of_string_empty, E.
    + intros w1 w2 E Hw1 Hw2.
      rewrite string_of_text_app.
      apply (Hfirst (string_of_list_ascii w1)).
      * rewrite <- string_of_text_app, <- E.
        symmetry. apply string_of_list_ascii_of_string.
      * apply text_of_string_nonempty, Hw1.
      * apply text_of_string_nonempty, Hw2.
Qed.

(** The split of a text around the first code span in it: the text
    before, the span, and the split of what follows. *)
Lemma split_around_span (before span after : string) :
  code_free before (span ++ after) ->
  code_span_here span ->
  Re.split code_span (before ++ span ++ after)
  = before :: span :: Re.split code_span after.
Proof.
  intros Hfree Hspan. unfold Re.split.
  rewrite !text_of_string_append.
  destruct (code_span_found span (rev (list_ascii_of_string before) ++ [])
              (list_ascii_of_string after) Hspan) as [Hne Hfound].
  rewrite split_scan_text.
  - rewrite (split_scan_span _ _ _ _ Hne Hfound). cbn [map].
    rewrite app_nil_r, rev_involutive, !string_of_list_ascii_of_string.
    reflexivity.
  - intros p s E Hs b0.
    destruct (match_here code_span b0 _) as [m|] eqn:Hm; [|reflexivity].
    exfalso. apply match_begins in Hm.
    apply (Hfree (string_of_list_ascii p) (string_of_list_ascii s)).
    + rewrite <- string_of_text_app, <- E.
      symmetry. apply string_of_list_ascii_of_string.
    + apply text_of_string_nonempty, Hs.
    + rewrite <- text_of_string_append in Hm.
      rewrite string_of_text_app, string_of_list_ascii_of_string in Hm.
      exact Hm.
Qed.

(** A text in which no code span begins is one part. *)
Lemma split_text (t : string) :
  code_free t "" -> Re.split code_span t = [t].
Proof.
  intros Hfree. unfold Re.split.
  rewrite <- (app_nil_r (list_ascii_of_string t)).
  rewrite split_scan_text.
  - cbn [split_scan]. rewrite no_code_span_at_end. cbn [map].
    rewrite app_nil_r, rev_involutive, string_of_list_ascii_of_string.
    reflexivity.
  - intros p s E Hs b0. rewrite app_nil_r.
    destruct (match_here code_span b0 s) as [m|] eqn:Hm; [|reflexivity].
    exfalso. apply match_begins in Hm.
    apply (Hfree (string_of_list_ascii p) (string_of_list_ascii s)).
    + rewrite <- string_of_text_app, <- E.
      symmetry. apply string_of_list_ascii_of_string.
    + apply text_of_string_nonempty, Hs.
    + rewrite append_nil_r. exact Hm.
Qed.

Lemma code_span_here_backtick (span : string) :
  code_span_here span -> exists rest, span = String backtick rest.
Proof.
  intros [(inside & _ & _ & ->) | (inside & _ & _ & ->)];
    eexists; reflexivity.
Qed.

(** What [markdown_to_slack] does around the first code span of a
    text. *)
Lemma markdown_to_slack_around (before span after : string) :
  code_free before (span ++ after) ->
  code_span_here span ->
  markdown_to_slack (before ++ span ++ after)
  = (transcode_part before ++ span ++ markdown_to_slack after)%string.
Proof.
  intros Hfree Hspan.
  rewrite !markdown_to_slack_parts, (split_around_span _ _ _ Hfree Hspan).
  cbn [map]. rewrite !concat_cons.
  destruct (code_span_here_backtick _ Hspan) as (rest & ->).
  rewrite transcode_part_backtick. reflexivity.
Qed.

Lemma markdown_to_slack_text (t : string) :
  code_free t "" -> markdown_to_slack t = transcode_part t.
Proof.
  intros Hfree. rewrite markdown_to_slack_parts, (split_text _ Hfree).
  reflexivity.
Qed.

(** C7.  Reading a text from left to right, take the first place where
    a code span begins: the text before it holds no beginning of a span,
    and the span is an inline span or a fenced block that ends at its
    first closing fence.  Then the output is the transcoded text before,
    the span itself, character for character and whatever it holds, and
    the transcoded rest, in which the next span is found in the same
    way.  The span of the specification comes out as it went in. *)
Theorem code_spans_pass_through :
  (forall before span after : string,
      code_free before (span ++ after) ->
      code_span_here span ->
      markdown_to_slack (before ++ span ++ after)
      = (markdown_to_slack before ++ span ++ markdown_to_slack after)%string)
  /\ markdown_to_slack "`*not italic*`" = "`*not italic*`".
Proof.
  split; [|reflexivity].
  intros before span after Hfree Hspan.
  rewrite (markdown_to_slack_around _ _ _ Hfree Hspan).
  rewrite (markdown_to_slack_text before (code_free_alone _ _ Hfree)).
  reflexivity.
Qed.

(** An inline span in the middle of a text, with an emphasis inside it
    and one after it. *)
Lemma code_spans_pass_through_witness :
  markdown_to_slack ("see " ++ "`*b*`" ++ " and **c**")
  = (markdown_to_slack "see " ++ "`*b*`"
     ++ markdown_to_slack " and **c**")%string.
Proof.
  apply (proj1 code_spans_pass_through "see " "`*b*`" " and **c**").
  - apply code_free_without_backtick. reflexivity.
  - left. exists "*b*". repeat split. discriminate.
Defined.

(** C7, as stated, fails: after a fence that is never closed, the third
    backtick of the fence opens an inline span of its own, which ends at
    the next backtick on the line; the inline span that begins at that
    backtick in the eyes of a reader is cut in two, and the emphasis in
    it is rewritten. *)
Lemma code_span_counterexample :
  inline_code "`*a*`"
  /\ "``` `*a*` " = ("``` " ++ "`*a*`" ++ " ")%string
  /\ Re.split code_span "``` `*a*` " = ["``"; "` `"; "*a*` "]
  /\ markdown_to_slack "``` `*a*` " = "``` `_a_` "
  /\ substring_of "`*a*`" (markdown_to_slack "``` `*a*` ") = false.
Proof.
  repeat split. exists "*a*". repeat split. discriminate.
Qed.

(** A fenced block without a backtick inside ends at its first closing
    fence. *)
Lemma closes_first_without_backtick (inside : string) :
  forallb (fun c => negb (Ascii.eqb c backtick))
          (list_ascii_of_string inside) = true ->
  closes_first inside.
Proof.
  intros Hnone p s -> _ Hs.
  rewrite text_of_string_append, forallb_app in Hnone.
  apply andb_prop in Hnone as [_ Hnone].
  destruct s as [|c s]; [congruence|]. cbn in Hnone.
  apply andb_prop in Hnone as [Hc _].
  cbn [append String.prefix].
  destruct (ascii_dec "`" c) as [<-|]; [discriminate|reflexivity].
Qed.

(** A fenced block over three lines, between two emphases. *)
Example fenced_block_kept :
  markdown_to_slack
    ("**run** "
     ++ ("```" ++ String newline "a = *b*" ++ String newline "" ++ "```")
     ++ " ~~now~~")
  = ("*run* "
     ++ ("```" ++ String newline "a = *b*" ++ String newline "" ++ "```")
     ++ " ~now~")%string.
Proof.
  rewrite markdown_to_slack_around; [reflexivity| |].
  - apply code_free_without_backtick. reflexivity.
  - right. exists (String newline "a = *b*" ++ String newline "")%string.
    repeat split; [discriminate|].
    apply closes_first_without_backtick. reflexivity.
Qed.

(** The spans of the specification and of a longer text: an inline span
    alone, two spans in a row, a fenced block over several lines. *)
Example code_spans_kept :
  markdown_to_slack "`*not italic*`" = "`*not italic*`"
  /\ markdown_to_slack "a `*b*` c" = "a `*b*` c"
  /\ markdown_to_slack "*x* `*y*` **z** `__w__`" = "_x_ `*y*` *z* `__w__`"
  /\ markdown_to_slack
       ("**run** ```" ++ String newline "a = *b*"
        ++ String newline "``` ~~now~~")
     = ("*run* ```" ++ String newline "a = *b*"
        ++ String newline "``` ~now~")%string.
Proof. repeat split. Qed.

(** ** What a substitution does *)






End TranscoderFacts.

(* ===================================================================== *)
(** * Facts about [call_bedrock_stream] *)
(* ===================================================================== *)

Module StreamFacts.
Import LlmCaller Concrete.
Local Open Scope run_scope.

(** A sequence that returns did so in both of its steps. *)
Lemma rbind_returns {A B : Type} (m : run A) (k : A -> run B)
    (t : list effect) (b : B) :
  rbind m k = (t, Return b) ->
  exists t1 a t2,
    m = (t1, Return a) /\ k a = (t2, Return b) /\ t = t1 ++ t2.
Proof.
  destruct m as [t1 [a|e]]; cbn; [|discriminate].
  destruct (k a) as [t2 o] eqn:Hk. intros [= <- ->].
  exists t1, a, t2. auto.
Qed.

Lemma lift_returns {A : Type} (m : outcome A) (t : list effect) (a : A) :
  lift m = (t, Return a) -> m = Return a /\ t = [].
Proof. unfold lift. intros [= <- ->]. auto. Qed.

(** Splits a returning run into its steps. *)
Ltac steps :=
  repeat match goal with
         | H : rbind _ _ = (_, Return _) |- _ =>
             let t1 := fresh "t" in
             let a := fresh "a" in
             let t2 := fresh "t" in
             apply rbind_returns in H;
             destruct H as (t1 & a & t2 & ? & ? & ?)
         | H : lift _ = (_, Return _) |- _ =>
             apply lift_returns in H; destruct H
         | H : emit _ = (_, Return _) |- _ =>
             unfold emit in H; injection H as <- <-
         | H : ret _ = (_, Return _) |- _ =>
             unfold ret in H; injection H as <- <-
         end; subst.

(** The stop and usage branches only log. *)
Lemma on_message_stop_quiet (event : value) :
  filter sink_or_pull (fst (on_message_stop event)) = [].
Proof.
  unfold on_message_stop.
  destruct (contains "messageStop" event) as [[|]|]; try reflexivity.
  cbn. destruct (getitem event "messageStop") as [stop|]; try reflexivity.
  cbn. destruct (getitem stop "stopReason"); reflexivity.
Qed.

Lemma on_metadata_quiet (event : value) :
  filter sink_or_pull (fst (on_metadata event)) = [].
Proof.
  unfold on_metadata.
  destruct (contains "metadata" event) as [[|]|]; try reflexivity.
  cbn. destruct (getitem event "metadata") as [metadata|]; try reflexivity.
  cbn. destruct (contains "usage" metadata) as [[|]|]; try reflexivity.
  cbn. destruct (getitem metadata "usage") as [usage|]; try reflexivity.
  cbn. destruct (getitem usage "inputTokens"); try reflexivity.
  cbn. destruct (getitem usage "outputTokens"); try reflexivity.
  cbn. destruct (getitem usage "totalTokens"); reflexivity.
Qed.

(** A content delta that goes through is appended once, transcoded; an
    event of another kind is not appended at all. *)
Lemma on_content_delta_returns `{Services} (event : value)
    (t : list effect) :
  on_content_delta event = (t, Return tt) ->
  filter sink_or_pull t =
  match content_delta event with
  | Some s => [StreamerAppend (markdown_to_slack s)]
  | None => []
  end.
Proof.
  unfold on_content_delta, content_delta. intros Hrun.
  destruct (contains "contentBlockDelta" event) as [[|]|];
    cbn in Hrun; try discriminate.
  - destruct (block <- getitem event "contentBlockDelta" ;;
              delta <- getitem block "delta" ;;
              getitem delta "text")%py as [text|]; cbn in Hrun;
      [|discriminate].
    destruct text; cbn in Hrun; try discriminate.
    destruct (streamer_append (markdown_to_slack s)) as [[]|];
      cbn in Hrun; [|discriminate].
    injection Hrun as <-. reflexivity.
  - injection Hrun as <-. reflexivity.
Qed.

(** One turn of the loop that goes through: the pull yielded an event,
    and the sink saw what that event asks for. *)
Lemma on_event_returns `{Services} (pulled : outcome value)
    (t : list effect) :
  on_event pulled = (t, Return tt) ->
  exists event,
    pulled = Return event /\ filter sink_or_pull t = pull_and_append event.
Proof.
  unfold on_event. intros Hrun. steps.
  exists a. split; [reflexivity|].
  match goal with
  | Hd : on_content_delta a = (?td, Return ?u),
    Hs : on_message_stop a = (?ts, Return _),
    Hm : on_metadata a = (?tm, Return _) |- _ =>
      destruct u;
      pose proof (on_content_delta_returns _ _ Hd) as Ed;
      pose proof (on_message_stop_quiet a) as Es; rewrite Hs in Es;
      pose proof (on_metadata_quiet a) as Em; rewrite Hm in Em
  end.
  cbn [fst] in *. cbn [app filter sink_or_pull].
  rewrite !filter_app, Ed, Es, Em, !app_nil_r. reflexivity.
Qed.

Lemma for_each_returns `{Services} (events : list (outcome value)) :
  forall t : list effect,
    for_each events on_event = (t, Return tt) ->
    exists evs,
      events = map Return evs
      /\ filter sink_or_pull t = flat_map pull_and_append evs.
Proof.
  induction events as [|p events IH]; intros t Hrun; cbn [for_each] in Hrun.
  - injection Hrun as <-. exists []. auto.
  - steps.
    match goal with
    | H1 : on_event p = (_, Return ?u), H2 : for_each events _ = _ |- _ =>
        destruct u;
        destruct (on_event_returns _ _ H1) as (e & -> & E1);
        destruct (IH _ H2) as (evs & -> & E2)
    end.
    exists (e :: evs). split; [reflexivity|].
    rewrite filter_app, E1, E2. reflexivity.
Qed.

(** C8.  In every run of [call_bedrock_stream] that returns: every pull
    from the upstream stream yielded an event; and the trace, reduced to
    the calls on the sink and the pulls, is the opening of the sink, then
    for each event in upstream order its pull followed, when it is a
    content delta, by one append of its transcoded text, then one stop.
    So the sink is open before the first pull, appends keep the order of
    the deltas, and the stop comes once, after the last event, whatever
    that event is. *)
Theorem stream_reaches_sink `{Services} :
  forall (messages_in_thread : list value) (system_content : string)
         (channel thread_ts team_id user_id : value)
         (t : list effect) (r : value),
    call_bedrock_stream messages_in_thread system_content
      channel thread_ts team_id user_id = (t, Return r) ->
    exists (messages : list value) (stream : option (list (outcome value)))
           (evs : list value),
      map_outcome formatted_msg messages_in_thread = Return messages
      /\ converse_stream messages system_content = Return stream
      /\ events_of stream = map Return evs
      /\ filter sink_or_pull t =
         ChatStreamOpen channel thread_ts team_id user_id
         :: flat_map pull_and_append evs ++ [StreamerStop].
Proof.
  intros msgs sys ch ts team user t r Hrun.
  unfold call_bedrock_stream in Hrun. steps.
  match goal with
  | Hs : converse_stream ?m sys = Return ?st,
    Hl : match ?st with _ => _ end = (?tl, Return ?u) |- _ =>
      exists m, st;
      assert (Hloop : exists evs,
                 events_of st = map Return evs
                 /\ filter sink_or_pull tl = flat_map pull_and_append evs);
      [ destruct u; destruct st as [events|]; cbn [events_of];
        [ apply (for_each_returns _ _ Hl)
        | injection Hl as <-; exists []; auto ]
      | destruct Hloop as (evs & Eev & Eloop) ]
  end.
  exists evs. repeat split; try assumption.
  cbn [app filter sink_or_pull]. rewrite !filter_app. cbn [filter sink_or_pull].
  rewrite Eloop. reflexivity.
Qed.

(** The run of the specification: the deltas ["Hello "] and ["*world*"],
    then a stop and the usage. *)
Lemma stream_reaches_sink_witness :
  exists (messages : list value) (stream : option (list (outcome value)))
         (evs : list value),
    map_outcome formatted_msg
      [VDict [("role", VStr "user"); ("content", VStr "hi")]]
    = Return messages
    /\ converse_stream messages DEFAULT_SYSTEM_CONTENT = Return stream
    /\ events_of stream = map Return evs
    /\ filter sink_or_pull
         (fst (call_bedrock_stream
                 [VDict [("role", VStr "user"); ("content", VStr "hi")]]
                 DEFAULT_SYSTEM_CONTENT
                 (VStr "D1") (VStr "17.01") (VStr "T1") (VStr "U1")))
       = ChatStreamOpen (VStr "D1") (VStr "17.01") (VStr "T1") (VStr "U1")
         :: flat_map pull_and_append evs ++ [StreamerStop].
Proof.
  apply (stream_reaches_sink
           [VDict [("role", VStr "user"); ("content", VStr "hi")]]
           DEFAULT_SYSTEM_CONTENT
           (VStr "D1") (VStr "17.01") (VStr "T1") (VStr "U1")
           _ (VStr "")).
  reflexivity.
Defined.

(** What the sink receives in that run: two appends in order, the second
    transcoded, and one stop after the stop event. *)
Example hello_world_on_the_sink :
  filter (fun e => sink_or_pull e
                   && negb match e with StreamNext _ => true | _ => false end)
    (fst (call_bedrock_stream
            [VDict [("role", VStr "user"); ("content", VStr "hi")]]
            DEFAULT_SYSTEM_CONTENT
            (VStr "D1") (VStr "17.01") (VStr "T1") (VStr "U1")))
  = [ ChatStreamOpen (VStr "D1") (VStr "17.01") (VStr "T1") (VStr "U1");
      StreamerAppend "Hello ";
      StreamerAppend "_world_";
      StreamerStop ].
Proof. reflexivity. Qed.

End StreamFacts.

(* ===================================================================== *)
(** * Facts about [process_message_lazily] *)
(* ===================================================================== *)

Module AssistantFacts.
Import LlmCaller Assistant Concrete.
Local Open Scope run_scope.

Lemma rbind_emit {B : Type} (e : effect) (k : unit -> run B) :
  fst (rbind (emit e) k) = e :: fst (k tt).
Proof. cbn. destruct (k tt). reflexivity. Qed.

Lemma rbind_lift_return {A B : Type} (a : A) (k : A -> run B) :
  rbind (lift (Return a)) k = k a.
Proof. cbn. destruct (k a). reflexivity. Qed.

Lemma fst_rbind_cons {A B : Type} (m : run A) (k : A -> run B)
    (e : effect) (rest : list effect) :
  fst m = e :: rest -> exists rest', fst (rbind m k) = e :: rest'.
Proof.
  destruct m as [t [a|x]]; cbn; intros ->.
  - destruct (k a) as [t' r]. cbn. eauto.
  - eauto.
Qed.

Lemma fst_try_except_cons {A : Type} (m : run A) (h : exn -> run A)
    (prefix rest : list effect) :
  fst m = prefix ++ rest ->
  exists rest', fst (try_except m h) = prefix ++ rest'.
Proof.
  destruct m as [t [a|x]]; cbn; intros ->.
  - eauto.
  - destruct (h x) as [t' r]. cbn. rewrite <- app_assoc. eauto.
Qed.

(** The upstream call is the first thing [call_bedrock_stream] does, and
    it carries the thread in Bedrock's format. *)
Lemma call_bedrock_stream_starts `{Services}
    (messages_in_thread messages : list value) (system_content : string)
    (channel thread_ts team_id user_id : value) :
  map_outcome formatted_msg messages_in_thread = Return messages ->
  exists rest,
    fst (call_bedrock_stream messages_in_thread system_content
           channel thread_ts team_id user_id)
    = ConverseStream messages system_content :: rest.
Proof.
  intros Hfmt. unfold call_bedrock_stream.
  rewrite Hfmt, rbind_lift_return, rbind_emit. eauto.
Qed.

(** The loop over the fetched messages: one turn for each, in their
    order, with the role read off [bot_id]; and every turn can be put in
    Bedrock's format. *)
Lemma turns_of_thread (messages : list value) :
  Forall has_text messages ->
  exists turns formatted : list value,
    map_outcome turn_of messages = Return turns
    /\ length turns = length messages
    /\ (forall (i : nat) (d : dict),
          nth_error messages i = Some (VDict d) ->
          nth_error turns i =
          Some (VDict [ ("role",
                         VStr (if is_none (dict_get d "bot_id" VNone)
                               then "user" else "assistant"));
                        ("content", dict_get d "text" VNone) ]))
    /\ map_outcome formatted_msg turns = Return formatted.
Proof.
  induction 1 as [|m messages (d & text & -> & Htext) _ IH].
  - exists [], []. repeat split; try reflexivity.
    intros [|i] d; discriminate.
  - destruct IH as (turns & formatted & Hturns & Hlen & Hnth & Hfmt).
    eexists (_ :: turns), (_ :: formatted).
    cbn [map_outcome turn_of get getitem bind]. rewrite Htext.
    cbn [bind]. rewrite Hturns. cbn [bind]. repeat split.
    + cbn. rewrite Hlen. reflexivity.
    + intros [|i] d' Hi; cbn in Hi |- *.
      * injection Hi as ->. unfold dict_get at 3. rewrite Htext. reflexivity.
      * apply Hnth, Hi.
    + cbn. rewrite Hfmt. reflexivity.
Qed.

(** C9.  On the default path (a text that is neither empty nor the
    request for a channel summary), with a platform that returns no more
    messages than the limit it is asked for: the thread is fetched with
    limit 10; every fetched message becomes one turn, at the same place
    in the sequence, with role [assistant] when it has a [bot_id] other
    than [None] and [user] otherwise, and its text as content; there are
    at most 10 turns; and they go to the model in that order. *)
Theorem thread_becomes_turns `{Services} :
  forall (payload : dict) (context : bolt_context) (user_message : string)
         (replies : dict) (messages : list value),
    (forall (ch ts oldest : value) (limit : Z) (r : dict) (ms : list value),
       (0 <= limit)%Z ->
       conversations_replies ch ts oldest limit = Return r ->
       dict_lookup "messages" r = Some (VList ms) ->
       (Z.of_nat (length ms) <= limit)%Z) ->
    dict_lookup "text" payload = Some (VStr user_message) ->
    user_message <> "" ->
    user_message <> summary_request ->
    conversations_replies (channel_id context) (thread_ts context)
      (thread_ts context) 10 = Return replies ->
    dict_lookup "messages" replies = Some (VList messages) ->
    Forall has_text messages ->
    set_status "is thinking..." = Return tt ->
    exists (turns formatted : list value) (rest : list effect),
      map_outcome turn_of messages = Return turns
      /\ length turns = length messages
      /\ length turns <= 10
      /\ (forall (i : nat) (d : dict),
            nth_error messages i = Some (VDict d) ->
            nth_error turns i =
            Some (VDict [ ("role",
                           VStr (if is_none (dict_get d "bot_id" VNone)
                                 then "user" else "assistant"));
                          ("content", dict_get d "text" VNone) ]))
      /\ map_outcome formatted_msg turns = Return formatted
      /\ fst (process_message_lazily payload context) =
         ConversationsReplies (channel_id context) (thread_ts context)
           (thread_ts context) 10
         :: SetStatus "is thinking..."
         :: ConverseStream formatted DEFAULT_SYSTEM_CONTENT
         :: rest.
Proof.
  intros payload context user_message replies messages
         Hlimit Htext Hne Hnot Hreplies Hmessages Hwf Hstatus.
  destruct (turns_of_thread messages Hwf)
    as (turns & formatted & Hturns & Hlen & Hnth & Hfmt).
  assert (Hten : length turns <= 10).
  { rewrite Hlen.
    pose proof (Hlimit _ _ _ 10%Z _ _ ltac:(lia) Hreplies Hmessages). lia. }
  assert (Hreply : exists rest,
             fst (reply_in_thread context (dict_get payload "user" VNone)) =
             [ ConversationsReplies (channel_id context) (thread_ts context)
                 (thread_ts context) 10;
               SetStatus "is thinking...";
               ConverseStream formatted DEFAULT_SYSTEM_CONTENT ] ++ rest).
  { unfold reply_in_thread.
    rewrite rbind_emit, Hreplies, rbind_lift_return.
    unfold dict_get at 1. rewrite Hmessages. cbn [iterate].
    rewrite rbind_lift_return, Hturns, rbind_lift_return, rbind_emit.
    rewrite Hstatus, rbind_lift_return.
    destruct (call_bedrock_stream_starts turns formatted
                DEFAULT_SYSTEM_CONTENT (channel_id context)
                (thread_ts context) (team_id context)
                (dict_get payload "user" VNone) Hfmt) as (rest & Hcall).
    destruct (fst_rbind_cons _ (fun _ => ret tt) _ _ Hcall) as (rest' & ->).
    exists rest'. reflexivity. }
  destruct Hreply as (rest & Hreply).
  destruct (fst_try_except_cons _
              (fun _ => emit (Say apology) ;;; lift (say apology))
              _ _ Hreply) as (rest' & Htry).
  exists turns, formatted, rest'. repeat split; try assumption.
  unfold process_message_lazily. cbn [getitem]. rewrite Htext.
  rewrite rbind_lift_return.
  assert (Htruthy : truthy (VStr user_message) = true).
  { cbn. apply negb_true_iff, String.eqb_neq, Hne. }
  unfold message_preview. rewrite Htruthy, rbind_lift_return.
  cbn [eq_str negb]. apply String.eqb_neq in Hnot. rewrite Hnot.
  exact Htry.
Qed.

(** The thread of three messages, the second from the bot. *)
Lemma thread_becomes_turns_witness :
  exists (turns formatted : list value) (rest : list effect),
    map_outcome turn_of thread = Return turns
    /\ length turns = length thread
    /\ length turns <= 10
    /\ (forall (i : nat) (d : dict),
          nth_error thread i = Some (VDict d) ->
          nth_error turns i =
          Some (VDict [ ("role",
                         VStr (if is_none (dict_get d "bot_id" VNone)
                               then "user" else "assistant"));
                        ("content", dict_get d "text" VNone) ]))
    /\ map_outcome formatted_msg turns = Return formatted
    /\ fst (process_message_lazily
              [("text", VStr "thanks"); ("user", VStr "U1")]
              assistant_context) =
       ConversationsReplies (channel_id assistant_context)
         (thread_ts assistant_context) (thread_ts assistant_context) 10
       :: SetStatus "is thinking..."
       :: ConverseStream formatted DEFAULT_SYSTEM_CONTENT
       :: rest.
Proof.
  apply (thread_becomes_turns
           [("text", VStr "thanks"); ("user", VStr "U1")]
           assistant_context "thanks"
           [("ok", VBool true); ("messages", VList thread)] thread).
  - intros ch ts oldest limit r ms Hpos [= <-] [= <-].
    rewrite length_firstn. lia.
  - reflexivity.
  - discriminate.
  - discriminate.
  - reflexivity.
  - reflexivity.
  - repeat constructor; eexists _, _; split; reflexivity.
  - reflexivity.
Defined.

(** The roles of that thread. *)
Example thread_roles :
  map_outcome turn_of thread =
  Return [ VDict [("role", VStr "user"); ("content", VStr "hi <@U2>")];
           VDict [("role", VStr "assistant"); ("content", VStr "hello")];
           VDict [("role", VStr "user"); ("content", VStr "thanks")] ].
Proof. reflexivity. Qed.

End AssistantFacts.

(* ===================================================================== *)
(** * More about lambda/index.py *)
(* ===================================================================== *)

Module IndexExtra.
Import Index Concrete IndexFacts.
Local Open Scope run_scope.

(** What the batch test answers when [Records] is absent, or when its
    first entry is a record of another source. *)
Lemma not_a_batch (event : dict) :
  dict_lookup "Records" event = None
  \/ (exists (first : dict) (others : list value),
        dict_lookup "Records" event = Some (VList (VDict first :: others))
        /\ eq_str (dict_get first "eventSource" VNone) "aws:sqs" = false) ->
  is_sqs_batch event = Return false.
Proof.
  unfold is_sqs_batch. intros [Hnone|(first & others & Hsome & Hsrc)].
  - rewrite (dict_mem_false _ _ Hnone). reflexivity.
  - rewrite (dict_mem_true _ _ _ Hsome), (dict_get_found _ _ _ _ Hsome).
    cbn. rewrite Hsrc. reflexivity.
Qed.

(** An envelope without a request context, that is no queue batch either
    (no [Records], or records of another source), is answered with
    status 400 and nothing is done with it: no message is sent, no
    handler is called, whatever the environment. *)
Theorem foreign_envelope_rejected `{Platform} :
  forall (env : environ) (context : lambda_context) (event : dict),
    dict_lookup "requestContext" event = None ->
    dict_lookup "Records" event = None
    \/ (exists (first : dict) (others : list value),
          dict_lookup "Records" event = Some (VList (VDict first :: others))
          /\ eq_str (dict_get first "eventSource" VNone) "aws:sqs" = false) ->
    handler env event context =
    ([], Return (VDict [ ("statusCode", VInt 400);
                         ("body", VStr "Unknown event type") ])).
Proof.
  intros env context event Hrc Hrecords.
  unfold handler. rewrite (not_a_batch _ Hrecords). cbn [lift rbind].
  unfold detect_event_type. rewrite (dict_mem_false _ _ Hrc).
  reflexivity.
Qed.

(** An S3 notification: records, but not from the queue. *)
Lemma foreign_envelope_rejected_witness :
  handler queue
    [("Records", VList [VDict [("eventSource", VStr "aws:s3")]])] invocation
  = ([], Return (VDict [ ("statusCode", VInt 400);
                         ("body", VStr "Unknown event type") ])).
Proof.
  apply (foreign_envelope_rejected queue invocation
           [("Records", VList [VDict [("eventSource", VStr "aws:s3")]])]).
  - reflexivity.
  - right. exists [("eventSource", VStr "aws:s3")], []. split; reflexivity.
Defined.




(** What is left of [handler] for a webhook envelope that is no
    handshake: the choice between the queue and the direct call. *)
Lemma handler_past_handshake `{Platform} :
  forall (env : environ) (context : lambda_context) (event : dict)
         (event_type : string),
    is_sqs_batch event = Return false ->
    detect_event_type event = Return event_type ->
    webhook_type event_type = true ->
    (if truthy (typed_event_body event)
     then url_verification (typed_event_body event)
     else Return None) = Return None ->
    handler env event context =
    match SQS_QUEUE_URL env with
    | Some queue_url =>
        if negb (String.eqb queue_url "") then
          emit (SqsSendMessage queue_url (json_dumps (VDict event))
                  (if endswith ".fifo" queue_url
                   then Some (aws_request_id context) else None)) ;;;
          lift (sqs_send_message queue_url (json_dumps (VDict event))
                  (if endswith ".fifo" queue_url
                   then Some (aws_request_id context) else None)) ;;;
          ret accepted
        else
          emit (SlackHandle (VDict event)) ;;;
          lift (slack_handle (VDict event))
    | None =>
        emit (SlackHandle (VDict event)) ;;;
        lift (slack_handle (VDict event))
    end.
Proof.
  intros env context event event_type Hbatch Htype Hweb Hnot.
  unfold handler. rewrite Hbatch. cbn [lift rbind]. rewrite Htype.
  cbn [lift rbind]. rewrite Hweb.
  assert (Hv : (if truthy (typed_event_body event)
                then lift (url_verification (typed_event_body event))
                else ret None) = ([], Return None)).
  { destruct (truthy (typed_event_body event));
      [unfold lift; rewrite Hnot|]; reflexivity. }
  rewrite Hv. cbn [rbind].
  destruct (SQS_QUEUE_URL env) as [queue_url|].
  - destruct (negb (String.eqb queue_url ""));
      destruct (_ ;;; _) as [t o]; reflexivity.
  - destruct (_ ;;; _) as [t o]. reflexivity.
Qed.

(** Without a queue, or with an empty queue URL, a webhook envelope that
    is no handshake is handed whole to the Slack handler, once, and the
    answer of that handler is the answer of [handler], an exception
    included; nothing is sent to a queue. *)
Theorem synchronous_fallback `{Platform} :
  forall (env : environ) (context : lambda_context) (event : dict)
         (event_type : string),
    is_sqs_batch event = Return false ->
    detect_event_type event = Return event_type ->
    webhook_type event_type = true ->
    (if truthy (typed_event_body event)
     then url_verification (typed_event_body event)
     else Return None) = Return None ->
    SQS_QUEUE_URL env = None \/ SQS_QUEUE_URL env = Some "" ->
    handler env event context =
    ([SlackHandle (VDict event)], slack_handle (VDict event)).
Proof.
  intros env context event event_type Hbatch Htype Hweb Hnot Hq.
  rewrite (handler_past_handshake env context event event_type
             Hbatch Htype Hweb Hnot).
  destruct Hq as [-> | ->]; cbn;
    destruct (slack_handle (VDict event)); reflexivity.
Qed.

Lemma synchronous_fallback_witness :
  handler no_queue (gateway_v2_event "payload=xyz") invocation =
  ([SlackHandle (VDict (gateway_v2_event "payload=xyz"))],
   slack_handle (VDict (gateway_v2_event "payload=xyz"))).
Proof.
  apply (synchronous_fallback no_queue invocation
           (gateway_v2_event "payload=xyz") "api_gateway_v2");
    solve [reflexivity | left; reflexivity].
Defined.

(** Outside the batch path, [handler] does at most one thing to the
    outside: nothing at all, or one call of the Slack handler with the
    whole envelope, or one message to the configured queue whose body is
    the whole envelope. *)
Theorem handler_acts_once `{Platform} :
  forall (env : environ) (context : lambda_context) (event : dict),
    is_sqs_batch event = Return false ->
    fst (handler env event context) = []
    \/ fst (handler env event context) = [SlackHandle (VDict event)]
    \/ exists queue_url : string,
         SQS_QUEUE_URL env = Some queue_url
         /\ queue_url <> ""
         /\ fst (handler env event context) =
            [SqsSendMessage queue_url (json_dumps (VDict event))
               (if endswith ".fifo" queue_url
                then Some (aws_request_id context) else None)].
Proof.
  intros env context event Hbatch.
  unfold handler. rewrite Hbatch. cbn [lift rbind].
  destruct (detect_event_type event) as [event_type|e]; [|left; reflexivity].
  cbn [lift rbind].
  destruct (webhook_type event_type); [|left; reflexivity].
  assert (Hv : exists o,
             (if truthy (typed_event_body event)
              then lift (url_verification (typed_event_body event))
              else ret None) = ([], o)).
  { destruct (truthy (typed_event_body event)); eexists; reflexivity. }
  destruct Hv as ([[response|]|e] & ->); cbn [rbind];
    try (left; reflexivity).
  destruct (SQS_QUEUE_URL env) as [queue_url|] eqn:Hq.
  - destruct (String.eqb_spec queue_url "") as [->|Hne]; cbn [negb].
    + right. left. cbn. destruct (slack_handle (VDict event)); reflexivity.
    + right. right. exists queue_url. repeat split; try assumption.
      cbn. destruct (sqs_send_message _ _ _); reflexivity.
  - right. left. cbn. destruct (slack_handle (VDict event)); reflexivity.
Qed.

Lemma handler_acts_once_witness :
  fst (handler queue (gateway_v2_event "[]") invocation) = []
  \/ fst (handler queue (gateway_v2_event "[]") invocation)
     = [SlackHandle (VDict (gateway_v2_event "[]"))]
  \/ exists queue_url : string,
       SQS_QUEUE_URL queue = Some queue_url
       /\ queue_url <> ""
       /\ fst (handler queue (gateway_v2_event "[]") invocation) =
          [SqsSendMessage queue_url (json_dumps (VDict (gateway_v2_event "[]")))
             (if endswith ".fifo" queue_url
              then Some (aws_request_id invocation) else None)].
Proof.
  apply (handler_acts_once queue invocation (gateway_v2_event "[]")).
  reflexivity.
Defined.

(** [record_handler] either raises before anything is done, or calls the
    Slack handler once, with what [json.loads] made of the record's
    body; it does nothing else to the outside, and in particular never
    sends to the queue. *)
Theorem record_handler_calls_slack_once `{Platform} :
  forall (record : value) (context : lambda_context),
    (exists e : exn, record_handler record context = ([], Raise e))
    \/ (exists v : value,
          original_event record = Return v
          /\ fst (record_handler record context) = [SlackHandle v]).
Proof.
  intros record context. unfold record_handler.
  destruct (original_event record) as [v|e]; [|left; eexists; reflexivity].
  cbn [lift rbind].
  destruct (logged_method v) as [m|e]; [|left; eexists; reflexivity].
  right. exists v. split; [reflexivity|].
  cbn. destruct (slack_handle v) as [response|e]; [|reflexivity].
  cbn. destruct (get response "statusCode" VNone); reflexivity.
Qed.

(** The value logged by [record_handler] can be computed whenever the
    request context and its [http] entry are absent or dictionaries. *)
Lemma logged_method_returns (event rc : dict) :
  dict_lookup "requestContext" event = Some (VDict rc) ->
  dict_lookup "http" rc = None
  \/ (exists h : dict, dict_lookup "http" rc = Some (VDict h)) ->
  exists m : value, logged_method (VDict event) = Return m.
Proof.
  intros Hrc Hhttp. unfold logged_method. cbn [get bind].
  rewrite (dict_get_found _ _ _ _ Hrc). cbn [get bind].
  assert (Hh : exists h, dict_get rc "http" (VDict []) = VDict h).
  { unfold dict_get. destruct Hhttp as [-> | (h & ->)]; eexists; reflexivity. }
  destruct Hh as (h & ->). cbn [get bind]. unfold py_or.
  destruct (truthy (dict_get h "method" VNone)); eexists; reflexivity.
Qed.

(** The deferred path does what the direct path does.  Take an envelope
    that the [json] module reads back as written, whose request context
    is a dictionary with an [http] entry that is absent or a dictionary,
    on the enqueue path.  Then [handler] sends one message to the queue,
    the envelope in JSON, and answers at once; [record_handler], given
    any record with that message as its body, calls the Slack handler
    once, with the envelope itself; and that is the one call [handler]
    makes with the same envelope when no queue is configured, where the
    answer of the Slack handler is the answer of [handler]. *)
Theorem queued_envelope_is_handled `{Platform} :
  forall (env : environ) (context context' : lambda_context)
         (event rc : dict) (event_type queue_url : string),
    (forall v : value,
       MiniJson.keys_distinct v -> json_loads (json_dumps v) = Some v) ->
    MiniJson.keys_distinct (VDict event) ->
    dict_lookup "requestContext" event = Some (VDict rc) ->
    dict_lookup "http" rc = None
    \/ (exists h : dict, dict_lookup "http" rc = Some (VDict h)) ->
    is_sqs_batch event = Return false ->
    detect_event_type event = Return event_type ->
    webhook_type event_type = true ->
    (if truthy (typed_event_body event)
     then url_verification (typed_event_body event)
     else Return None) = Return None ->
    SQS_QUEUE_URL env = Some queue_url ->
    queue_url <> "" ->
    sqs_send_message queue_url (json_dumps (VDict event))
      (if endswith ".fifo" queue_url
       then Some (aws_request_id context) else None) = Return tt ->
    exists message : string,
      handler env event context
      = ([SqsSendMessage queue_url message
            (if endswith ".fifo" queue_url
             then Some (aws_request_id context) else None)],
         Return accepted)
      /\ message = json_dumps (VDict event)
      /\ (forall record : value,
            getitem record "body" = Return (VStr message) ->
            fst (record_handler record context')
            = [SlackHandle (VDict event)])
      /\ handler (Environ None) event context
         = ([SlackHandle (VDict event)], slack_handle (VDict event)).
Proof.
  intros env context context' event rc event_type queue_url
         Hjson Hevent Hrc Hhttp Hbatch Htype Hweb Hnot Hq Hne Hsent.
  pose proof (Hjson _ Hevent) as Hrt.
  exists (json_dumps (VDict event)). repeat split.
  - apply (handler_enqueues env context event event_type queue_url);
      assumption.
  - intros record Hbody.
    assert (Hback : original_event record = Return (VDict event)).
    { unfold original_event. rewrite Hbody. cbn [bind loads].
      rewrite Hrt. reflexivity. }
    destruct (record_handler_decoded record (VDict event) context' Hback)
      as [(e & Hlog & _) | Hcall]; [|exact Hcall].
    destruct (logged_method_returns event rc Hrc Hhttp) as (m & Hm).
    rewrite Hm in Hlog. discriminate.
  - rewrite (handler_past_handshake (Environ None) context event event_type
               Hbatch Htype Hweb Hnot).
    cbn. destruct (slack_handle (VDict event)); reflexivity.
Qed.

Lemma queued_envelope_is_handled_witness :
  exists message : string,
    handler queue (gateway_v2_event "payload=xyz") invocation
    = ([SqsSendMessage
          "https://sqs.us-east-1.amazonaws.com/123456789012/slack.fifo"
          message
          (if endswith ".fifo"
                "https://sqs.us-east-1.amazonaws.com/123456789012/slack.fifo"
           then Some (aws_request_id invocation) else None)],
       Return accepted)
    /\ message = json_dumps (VDict (gateway_v2_event "payload=xyz"))
    /\ (forall record : value,
          getitem record "body" = Return (VStr message) ->
          fst (record_handler record invocation)
          = [SlackHandle (VDict (gateway_v2_event "payload=xyz"))])
    /\ handler (Environ None) (gateway_v2_event "payload=xyz") invocation
       = ([SlackHandle (VDict (gateway_v2_event "payload=xyz"))],
          slack_handle (VDict (gateway_v2_event "payload=xyz"))).
Proof.
  apply (queued_envelope_is_handled queue invocation invocation
           (gateway_v2_event "payload=xyz")
           [("http", VDict [("method", VStr "POST")])]
           "api_gateway_v2"
           "https://sqs.us-east-1.amazonaws.com/123456789012/slack.fifo").
  - exact JsonFacts.loads_dumps.
  - repeat constructor; cbn; intuition discriminate.
  - reflexivity.
  - right. eexists. reflexivity.
  - reflexivity.
  - reflexivity.
  - reflexivity.
  - reflexivity.
  - reflexivity.
  - discriminate.
  - reflexivity.
Defined.

(** ** The ordering key *)

Lemma length_append (p s : string) :
  String.length (p ++ s) = String.length p + String.length s.
Proof. induction p as [|c p IH]; cbn; [|rewrite IH]; reflexivity. Qed.

Lemma substring_whole (s : string) :
  String.substring 0 (String.length s) s = s.
Proof. induction s as [|c s IH]; cbn; [|rewrite IH]; reflexivity. Qed.

Lemma substring_after (p s : string) (n : nat) :
  String.substring (String.length p) n (p ++ s) = String.substring 0 n s.
Proof. induction p as [|c p IH]; cbn; [|rewrite IH]; reflexivity. Qed.

Lemma substring_split (s : string) :
  forall k : nat,
    k <= String.length s ->
    s = (String.substring 0 k s
         ++ String.substring k (String.length s - k) s)%string.
Proof.
  induction s as [|c s IH]; intros k Hk.
  - cbn in Hk. assert (k = 0) as -> by lia. reflexivity.
  - destruct k as [|k].
    + cbn [String.substring append]. cbn [String.length Nat.sub].
      rewrite substring_whole. reflexivity.
    + cbn [String.length] in Hk |- *. cbn [String.substring Nat.sub append].
      rewrite <- IH by lia. reflexivity.
Qed.

(** [endswith] is Python's [str.endswith]: the text is something followed
    by the suffix. *)
Lemma endswith_spec (suffix s : string) :
  endswith suffix s = true <-> exists p : string, s = (p ++ suffix)%string.
Proof.
  unfold endswith. split.
  - intros H. apply andb_true_iff in H as [Hle Heq].
    apply Nat.leb_le in Hle. apply String.eqb_eq in Heq.
    exists (String.substring 0 (String.length s - String.length suffix) s).
    pose proof (substring_split s (String.length s - String.length suffix)
                  ltac:(lia)) as Hs.
    replace (String.length s - (String.length s - String.length suffix))
      with (String.length suffix) in Hs by lia.
    rewrite Heq in Hs. exact Hs.
  - intros (p & ->). rewrite length_append.
    apply andb_true_iff. split; [apply Nat.leb_le; lia|].
    replace (String.length p + String.length suffix - String.length suffix)
      with (String.length p) by lia.
    rewrite substring_after, substring_whole. apply String.eqb_refl.
Qed.

(** When [handler] enqueues, the message group is the identifier of the
    invocation exactly when the queue URL ends in [.fifo], and is left
    out ([None]) exactly when it does not. *)
Theorem ordering_key_for_fifo_queues `{Platform} :
  forall (env : environ) (context : lambda_context) (event : dict)
         (event_type queue_url : string),
    is_sqs_batch event = Return false ->
    detect_event_type event = Return event_type ->
    webhook_type event_type = true ->
    (if truthy (typed_event_body event)
     then url_verification (typed_event_body event)
     else Return None) = Return None ->
    SQS_QUEUE_URL env = Some queue_url ->
    queue_url <> "" ->
    exists group : option string,
      fst (handler env event context) =
      [SqsSendMessage queue_url (json_dumps (VDict event)) group]
      /\ (group = Some (aws_request_id context)
          <-> exists p : string, queue_url = (p ++ ".fifo")%string)
      /\ (group = None
          <-> ~ exists p : string, queue_url = (p ++ ".fifo")%string).
Proof.
  intros env context event event_type queue_url
         Hbatch Htype Hweb Hnot Hq Hne.
  exists (if endswith ".fifo" queue_url
          then Some (aws_request_id context) else None).
  split.
  - rewrite (handler_past_handshake env context event event_type
               Hbatch Htype Hweb Hnot), Hq.
    apply String.eqb_neq in Hne. rewrite Hne. cbn.
    destruct (sqs_send_message _ _ _); reflexivity.
  - pose proof (endswith_spec ".fifo" queue_url) as Hspec.
    destruct (endswith ".fifo" queue_url); split; split; intros H';
      try reflexivity; try discriminate.
    + apply Hspec. reflexivity.
    + exfalso. apply H'. apply Hspec. reflexivity.
    + apply Hspec in H'. discriminate.
    + intros Hex. apply Hspec in Hex. discriminate.
Qed.

Lemma ordering_key_for_fifo_queues_witness :
  exists group : option string,
    fst (handler queue (gateway_v2_event "payload=xyz") invocation) =
    [SqsSendMessage
       "https://sqs.us-east-1.amazonaws.com/123456789012/slack.fifo"
       (json_dumps (VDict (gateway_v2_event "payload=xyz"))) group]
    /\ (group = Some (aws_request_id invocation)
        <-> exists p : string,
              "https://sqs.us-east-1.amazonaws.com/123456789012/slack.fifo"
              = (p ++ ".fifo")%string)
    /\ (group = None
        <-> ~ exists p : string,
              "https://sqs.us-east-1.amazonaws.com/123456789012/slack.fifo"
              = (p ++ ".fifo")%string).
Proof.
  apply (ordering_key_for_fifo_queues queue invocation
           (gateway_v2_event "payload=xyz") "api_gateway_v2"
           "https://sqs.us-east-1.amazonaws.com/123456789012/slack.fifo");
    solve [reflexivity | discriminate].
Defined.

End IndexExtra.

(* ===================================================================== *)
(** * More about [markdown_to_slack] *)
(* ===================================================================== *)

Module TranscoderExtra.
Import Re LlmCaller ReFacts TranscoderFacts.

(** ** Text without markup *)

(** A match of one of the five patterns starts with the character of its
    delimiter. *)
Lemma emphasis_starts (pattern : regex) (c : ascii) (delimiter : string) :
  emphasis_match pattern (String c delimiter) ->
  forall (b a : text) (m : mstate),
    match_here pattern b a = Some m -> exists a', a = c :: a'.
Proof.
  intros Hmatch b a m Hm. specialize (Hmatch b a). rewrite Hm in Hmatch.
  destruct Hmatch as [-> _]. cbn. eexists. reflexivity.
Qed.

(** Where no match can start, [re.sub] copies. *)
Lemma sub_scan_without (r : regex) (template : list titem) (c : ascii) :
  (forall (b a : text) (m : mstate),
      match_here r b a = Some m -> exists a', a = c :: a') ->
  forall a b : text, ~ In c a -> sub_scan r template b a 0 = a.
Proof.
  intros Hstart. induction a as [|x a IH]; intros b Hc; cbn [sub_scan].
  - destruct (match_here r b []) as [m|] eqn:Hm; [|reflexivity].
    destruct (Hstart _ _ _ Hm) as (a' & E). discriminate E.
  - destruct (match_here r b (x :: a)) as [m|] eqn:Hm.
    + destruct (Hstart _ _ _ Hm) as (a' & E). injection E as -> _.
      exfalso. apply Hc. left. reflexivity.
    + rewrite IH; [reflexivity|]. intros Hin. apply Hc. right. exact Hin.
Qed.

Lemma sub_without (r : regex) (template : list titem) (c : ascii)
    (delimiter s : string) :
  emphasis_match r (String c delimiter) ->
  ~ In c (list_ascii_of_string s) ->
  Re.sub r template s = s.
Proof.
  intros Hmatch Hc. unfold Re.sub.
  rewrite (sub_scan_without r template c (emphasis_starts r c delimiter Hmatch))
    by exact Hc.
  apply string_of_list_ascii_of_string.
Qed.

Lemma markup_free (t : text) (c : ascii) :
  forallb (fun x => negb (markup x)) t = true ->
  markup c = true -> ~ In c t.
Proof.
  intros Hall Hc Hin. rewrite forallb_forall in Hall.
  specialize (Hall c Hin). rewrite Hc in Hall. discriminate.
Qed.

(** The loop body leaves a part without markup characters as it is. *)
Lemma transcode_part_plain (part : string) :
  forallb (fun x => negb (markup x)) (list_ascii_of_string part) = true ->
  transcode_part part = part.
Proof.
  intros Hplain. unfold transcode_part.
  destruct (String.prefix "```" part || String.prefix "`" part);
    [reflexivity|].
  cbn [fold_left substitutions fst snd].
  rewrite (sub_without bold_italic _ star "**" part bold_italic_match)
    by (apply markup_free; [exact Hplain|reflexivity]).
  rewrite (sub_without italic _ star "" part italic_match)
    by (apply markup_free; [exact Hplain|reflexivity]).
  rewrite (sub_without bold _ star "*" part bold_match)
    by (apply markup_free; [exact Hplain|reflexivity]).
  rewrite (sub_without bold_underscore _ underscore "_" part
             bold_underscore_match)
    by (apply markup_free; [exact Hplain|reflexivity]).
  apply (sub_without strike _ tilde "~" part strike_match).
  apply markup_free; [exact Hplain|reflexivity].
Qed.

(** A text without asterisk, underscore or tilde comes back unchanged,
    backticks or not: what is no markup is never touched. *)
Theorem plain_text_is_unchanged :
  forall content : string,
    forallb (fun x => negb (markup x)) (list_ascii_of_string content) = true ->
    markdown_to_slack content = content.
Proof.
  intros content Hplain.
  rewrite markdown_to_slack_parts. unfold Re.split.
  destruct (split_scan_code_span (list_ascii_of_string content) [] 0 [])
    as [Hcat _]; [lia|].
  cbn in Hcat.
  rewrite map_map.
  rewrite (map_ext_in _ string_of_list_ascii).
  - rewrite concat_string_of_text, Hcat.
    apply string_of_list_ascii_of_string.
  - intros part Hpart. apply transcode_part_plain.
    rewrite list_ascii_of_string_of_list_ascii.
    apply forallb_forall. intros c Hc.
    rewrite forallb_forall in Hplain. apply Hplain.
    rewrite <- Hcat. apply in_concat. exists part. auto.
Qed.

Lemma plain_text_is_unchanged_witness :
  markdown_to_slack "Ask <@U123> in <#C42>: `x + y` costs 3"
  = "Ask <@U123> in <#C42>: `x + y` costs 3".
Proof.
  apply (plain_text_is_unchanged "Ask <@U123> in <#C42>: `x + y` costs 3").
  reflexivity.
Defined.

(** ** Length *)

(** The parts of the split, put together again, are the text. *)
Lemma concat_split (content : string) :
  String.concat "" (Re.split code_span content) = content.
Proof.
  unfold Re.split.
  destruct (split_scan_code_span (list_ascii_of_string content) [] 0 [])
    as [Hcat _]; [lia|].
  cbn in Hcat.
  rewrite concat_string_of_text, Hcat, string_of_list_ascii_of_string.
  reflexivity.
Qed.

(** [re.sub] does not lengthen, when no replacement is longer than what
    it replaces. *)
Lemma sub_scan_length (r : regex) (template : list titem) :
  (forall (b a : text) (m : mstate),
      match_here r b a = Some m ->
      length (expand template (group1 m)) <= match_length b m
      /\ 1 <= match_length b m /\ match_length b m <= length a) ->
  forall (a b : text) (skip : nat),
    skip <= length a ->
    length (sub_scan r template b a skip) + skip <= length a.
Proof.
  intros Hshrink. induction a as [|c a IH]; intros b skip Hskip.
  - cbn in Hskip. assert (skip = 0) as -> by lia. cbn [sub_scan].
    destruct (match_here r b []) as [m|] eqn:Hm; [|cbn; lia].
    destruct (Hshrink _ _ _ Hm) as (_ & H1 & H2). cbn in H2. lia.
  - destruct skip as [|n]; cbn [sub_scan].
    + destruct (match_here r b (c :: a)) as [m|] eqn:Hm.
      * destruct (Hshrink _ _ _ Hm) as (H0 & H1 & H2).
        destruct (match_length b m) as [|n]; [lia|].
        cbn [length] in H2 |- *. rewrite length_app.
        specialize (IH (c :: b) n ltac:(lia)). lia.
      * cbn [length]. specialize (IH (c :: b) 0 ltac:(lia)). lia.
    + cbn [length] in Hskip |- *. specialize (IH (c :: b) n ltac:(lia)). lia.
Qed.

Lemma sub_length (r : regex) (left right delimiter s : string) :
  emphasis_match r delimiter ->
  String.length left + String.length right <= 2 * String.length delimiter ->
  1 <= String.length delimiter ->
  String.length (Re.sub r [TText left; TGroup1; TText right] s)
  <= String.length s.
Proof.
  intros Hmatch Hshort Hne. unfold Re.sub.
  rewrite length_string_of_text, <- (length_text_of_string s).
  pose proof (sub_scan_length r [TText left; TGroup1; TText right]) as H.
  specialize (H ltac:(
    intros b a m Hm;
    destruct (emphasis_length r delimiter Hmatch b a m Hm) as [E Hle];
    cbn [expand]; rewrite app_nil_r, !length_app, !length_text_of_string;
    lia)).
  specialize (H (list_ascii_of_string s) [] 0 ltac:(lia)). lia.
Qed.

Lemma transcode_part_length (part : string) :
  String.length (transcode_part part) <= String.length part.
Proof.
  unfold transcode_part.
  destruct (String.prefix "```" part || String.prefix "`" part); [lia|].
  cbn [fold_left substitutions fst snd].
  eapply Nat.le_trans;
    [apply (sub_length strike "~" "~" "~~" _ strike_match); cbn; lia|].
  eapply Nat.le_trans;
    [apply (sub_length bold_underscore "*" "*" "__" _ bold_underscore_match);
     cbn; lia|].
  eapply Nat.le_trans;
    [apply (sub_length bold "*" "*" "**" _ bold_match); cbn; lia|].
  eapply Nat.le_trans;
    [apply (sub_length italic "_" "_" "*" _ italic_match); cbn; lia|].
  apply (sub_length bold_italic "_*" "*_" "***" _ bold_italic_match);
    cbn; lia.
Qed.

Lemma concat_map_length (f : string -> string) (parts : list string) :
  (forall part, String.length (f part) <= String.length part) ->
  String.length (String.concat "" (map f parts))
  <= String.length (String.concat "" parts).
Proof.
  intros Hf. induction parts as [|p parts IH]; [reflexivity|].
  cbn [map]. rewrite !concat_cons, !length_string_append.
  specialize (Hf p). lia.
Qed.

(** The output is never longer than the input: every replacement is at
    most as long as the marked-up span it stands for. *)
Theorem markdown_to_slack_never_lengthens :
  forall content : string,
    String.length (markdown_to_slack content) <= String.length content.
Proof.
  intros content. rewrite markdown_to_slack_parts.
  eapply Nat.le_trans;
    [apply concat_map_length, transcode_part_length|].
  rewrite concat_split. reflexivity.
Qed.

(** ** What is kept *)

Lemma filter_text_of_markup (s : string) :
  forallb markup (list_ascii_of_string s) = true ->
  filter (fun x => negb (markup x)) (list_ascii_of_string s) = [].
Proof.
  induction s as [|c s IH]; cbn; [reflexivity|].
  intros Hall. apply andb_prop in Hall as [Hc Hs].
  rewrite Hc. cbn. apply IH, Hs.
Qed.

(** [re.sub] keeps the characters that [keep] selects, when every
    replacement keeps those of the match it stands for. *)
Lemma sub_scan_keeps (keep : ascii -> bool) (r : regex)
    (template : list titem) :
  (forall (b a : text) (m : mstate),
      match_here r b a = Some m ->
      filter keep (expand template (group1 m))
      = filter keep (firstn (match_length b m) a)) ->
  forall (a b : text) (skip : nat),
    filter keep (sub_scan r template b a skip) = filter keep (skipn skip a).
Proof.
  intros Hkeeps. induction a as [|c a IH]; intros b skip.
  - destruct skip; cbn [sub_scan skipn]; [|reflexivity].
    destruct (match_here r b []) as [m|] eqn:Hm; [|reflexivity].
    rewrite (Hkeeps _ _ _ Hm), firstn_nil. reflexivity.
  - destruct skip as [|n]; cbn [sub_scan skipn]; [|apply IH].
    destruct (match_here r b (c :: a)) as [m|] eqn:Hm.
    + pose proof (Hkeeps _ _ _ Hm) as E.
      destruct (match_length b m) as [|n].
      * rewrite filter_app, E. cbn [firstn filter app].
        destruct (keep c); rewrite IH; reflexivity.
      * rewrite filter_app, E, IH. cbn [firstn].
        rewrite <- filter_app.
        change (c :: firstn n a) with ([c] ++ firstn n a).
        rewrite <- app_assoc, firstn_skipn. reflexivity.
    + cbn [filter]. rewrite IH. reflexivity.
Qed.

Lemma sub_keeps (r : regex) (left right delimiter s : string) :
  emphasis_match r delimiter ->
  forallb markup (list_ascii_of_string delimiter) = true ->
  forallb markup (list_ascii_of_string left) = true ->
  forallb markup (list_ascii_of_string right) = true ->
  filter (fun x => negb (markup x))
    (list_ascii_of_string (Re.sub r [TText left; TGroup1; TText right] s))
  = filter (fun x => negb (markup x)) (list_ascii_of_string s).
Proof.
  intros Hmatch Hd Hl Hr. unfold Re.sub.
  rewrite list_ascii_of_string_of_list_ascii.
  rewrite sub_scan_keeps; [reflexivity|].
  intros b a m Hm.
  destruct (emphasis_length r delimiter Hmatch b a m Hm) as [Elen _].
  specialize (Hmatch b a). rewrite Hm in Hmatch. destruct Hmatch as [E _].
  cbn [expand]. rewrite app_nil_r, !filter_app.
  rewrite !filter_text_of_markup by assumption.
  rewrite E at 1.
  replace (list_ascii_of_string delimiter ++ group1 m
           ++ list_ascii_of_string delimiter ++ ahead m)
    with ((list_ascii_of_string delimiter ++ group1 m
           ++ list_ascii_of_string delimiter) ++ ahead m)
    by (rewrite <- !app_assoc; reflexivity).
  replace (match_length b m)
    with (length (list_ascii_of_string delimiter ++ group1 m
                  ++ list_ascii_of_string delimiter))
    by (unfold text in *;
        rewrite Elen, !length_app, !length_text_of_string; lia).
  rewrite firstn_app, Nat.sub_diag, firstn_all, firstn_O, app_nil_r.
  rewrite !filter_app, !filter_text_of_markup by assumption.
  rewrite !app_nil_r. reflexivity.
Qed.

Lemma transcode_part_keeps (part : string) :
  filter (fun x => negb (markup x))
    (list_ascii_of_string (transcode_part part))
  = filter (fun x => negb (markup x)) (list_ascii_of_string part).
Proof.
  unfold transcode_part.
  destruct (String.prefix "```" part || String.prefix "`" part);
    [reflexivity|].
  cbn [fold_left substitutions fst snd].
  rewrite (sub_keeps strike "~" "~" "~~" _ strike_match)
    by reflexivity.
  rewrite (sub_keeps bold_underscore "*" "*" "__" _ bold_underscore_match)
    by reflexivity.
  rewrite (sub_keeps bold "*" "*" "**" _ bold_match) by reflexivity.
  rewrite (sub_keeps italic "_" "_" "*" _ italic_match) by reflexivity.
  apply (sub_keeps bold_italic "_*" "*_" "***" _ bold_italic_match);
    reflexivity.
Qed.

Lemma concat_map_keeps (keep : ascii -> bool) (f : string -> string)
    (parts : list string) :
  (forall part,
      filter keep (list_ascii_of_string (f part))
      = filter keep (list_ascii_of_string part)) ->
  filter keep (list_ascii_of_string (String.concat "" (map f parts)))
  = filter keep (list_ascii_of_string (String.concat "" parts)).
Proof.
  intros Hf. induction parts as [|p parts IH]; [reflexivity|].
  cbn [map]. rewrite !concat_cons, !text_of_string_append, !filter_app.
  rewrite Hf, IH. reflexivity.
Qed.

(** The transcoder touches asterisks, underscores and tildes only: every
    other character of the input is in the output, in the same order,
    and nothing else is. *)
Theorem only_markup_changes :
  forall content : string,
    filter (fun x => negb (markup x))
      (list_ascii_of_string (markdown_to_slack content))
    = filter (fun x => negb (markup x)) (list_ascii_of_string content).
Proof.
  intros content. rewrite markdown_to_slack_parts.
  rewrite (concat_map_keeps _ _ _ transcode_part_keeps).
  rewrite concat_split. reflexivity.
Qed.

(** ** Spans *)

Lemma none_of_excludes (d : ascii) (g : text) (x : ascii) :
  forallb (cmatch (CNoneOf [d; newline])) g = true ->
  x = d \/ x = newline -> ~ In x g.
Proof.
  intros Hall Hx Hin. rewrite forallb_forall in Hall.
  specialize (Hall x Hin). cbn in Hall.
  destruct Hx as [-> | ->]; rewrite Ascii.eqb_refl in Hall;
    try rewrite orb_true_r in Hall; discriminate.
Qed.

Ltac within_line :=
  let Hm := fresh "Hm" in
  let w := fresh "w" in
  let L := fresh "L" in
  let Ea := fresh "Ea" in
  let Eb := fresh "Eb" in
  intros b a; destruct (match_here _ b a) as [m|] eqn:Hm; [|exact I];
  destruct (match_here_sound _ _ _ _ Hm) as (w & L & Ea & Eb);
  cbn [bold_italic italic bold bold_underscore strike lang lits] in L;
  break;
  split; eapply none_of_excludes; try eassumption; auto.

(** An emphasis never crosses a line break, and never holds the
    character of its own delimiter: in each of the five patterns the
    span that is kept has no newline and no such character. *)
Theorem emphasis_stays_within_a_line :
  Forall2 (fun on delimiter => span_within_line (fst on) delimiter)
    substitutions [star; star; star; underscore; tilde].
Proof.
  repeat constructor; cbn [fst]; unfold span_within_line; within_line.
Qed.

End TranscoderExtra.

(* ===================================================================== *)
(** * More about [call_bedrock_stream]: the runs that fail *)
(* ===================================================================== *)

Module StreamExtra.
Import LlmCaller Concrete StreamFacts AssistantFacts.
Local Open Scope run_scope.

Lemma rbind_fst {A B : Type} (m : run A) (k : A -> run B) :
  fst (rbind m k)
  = fst m ++ match snd m with
             | Return a => fst (k a)
             | Raise _ => []
             end.
Proof.
  destruct m as [t [a|e]]; cbn.
  - destruct (k a). reflexivity.
  - symmetry. apply app_nil_r.
Qed.

Lemma rbind_snd {A B : Type} (m : run A) (k : A -> run B) :
  snd (rbind m k)
  = match snd m with
    | Return a => snd (k a)
    | Raise e => Raise e
    end.
Proof. destruct m as [t [a|e]]; cbn; [destruct (k a)|]; reflexivity. Qed.

(** Whatever becomes of a content delta, the sink was asked to append
    its transcoded text, once; and it was asked nothing for an event of
    another kind. *)
Lemma on_content_delta_trace `{Services} (event : value) :
  filter sink_or_pull (fst (on_content_delta event))
  = match content_delta event with
    | Some s => [StreamerAppend (markdown_to_slack s)]
    | None => []
    end.
Proof.
  unfold on_content_delta, content_delta.
  destruct (contains "contentBlockDelta" event) as [[|]|]; try reflexivity.
  cbn [lift rbind app].
  destruct (block <- getitem event "contentBlockDelta" ;;
            delta <- getitem block "delta" ;;
            getitem delta "text")%py as [text|]; [|reflexivity].
  destruct text; reflexivity.
Qed.

(** One pulled event, whatever becomes of it. *)
Lemma on_event_trace `{Services} (event : value) :
  filter sink_or_pull (fst (on_event (Return event)))
  = pull_and_append event.
Proof.
  unfold on_event, pull_and_append.
  rewrite rbind_lift_return, rbind_emit. cbn [filter sink_or_pull].
  f_equal. rewrite rbind_fst, filter_app, on_content_delta_trace.
  assert (Hquiet : filter sink_or_pull
                     (fst (on_message_stop event ;;; on_metadata event))
                   = []).
  { rewrite rbind_fst, filter_app, on_message_stop_quiet.
    destruct (snd (on_message_stop event)); [|reflexivity].
    apply on_metadata_quiet. }
  destruct (snd (on_content_delta event));
    [rewrite Hquiet|]; apply app_nil_r.
Qed.

(** The loop, whatever its end: the events were pulled in order up to
    some point, each one pulled left its mark on the sink, and a loop
    that came to its end pulled them all. *)
Lemma for_each_trace `{Services} (events : list (outcome value)) :
  exists (evs : list value) (rest : list (outcome value)),
    events = map Return evs ++ rest
    /\ filter sink_or_pull (fst (for_each events on_event))
       = flat_map pull_and_append evs
    /\ match snd (for_each events on_event) with
       | Return _ => rest = []
       | Raise _ => True
       end.
Proof.
  induction events as [|p events (evs & rest & E & Et & Eo)].
  - exists [], []. cbn. auto.
  - destruct p as [event|e].
    + cbn [for_each]. rewrite rbind_fst, rbind_snd, filter_app.
      rewrite on_event_trace.
      destruct (snd (on_event (Return event))) as [[]|x].
      * exists (event :: evs), rest. rewrite Et. repeat split.
        -- cbn [map app]. f_equal. exact E.
        -- exact Eo.
      * exists [event], events. cbn [flat_map]. rewrite !app_nil_r. auto.
    + exists [], (Raise e :: events). cbn. auto.
Qed.

Lemma loop_trace `{Services} (stream : option (list (outcome value))) :
  exists (evs : list value) (rest : list (outcome value)),
    events_of stream = map Return evs ++ rest
    /\ filter sink_or_pull
         (fst (match stream with
               | Some events => for_each events on_event
               | None => ret tt
               end)) = flat_map pull_and_append evs
    /\ match snd (match stream with
                  | Some events => for_each events on_event
                  | None => ret tt
                  end) with
       | Return _ => rest = []
       | Raise _ => True
       end.
Proof.
  destruct stream as [events|]; [apply for_each_trace|].
  exists [], []. cbn. auto.
Qed.

(** Names the loop of the run at hand, and states what is known of it
    in its terms. *)
Ltac name_loop evs Et :=
  match goal with
  | |- context [fst ?m ++ _] =>
      let loop := fresh "loop" in
      set (loop := m) in *;
      change (filter sink_or_pull (fst loop) = flat_map pull_and_append evs)
        in Et
  end.

(** In every run of [call_bedrock_stream], whatever its end: either the
    thread could not be put in the model's format or the upstream call
    raised, and then the sink was not touched; or the trace, reduced to
    the calls on the sink and the pulls, is the opening of the sink and,
    for the events that were pulled, in upstream order and without a gap,
    the pull and the append it asks for, followed by the stop when the
    loop came to its end, and by nothing when it did not: the run then
    ends with the exception, and nothing is pulled or appended after
    it. *)
Theorem every_run_on_the_sink `{Services} :
  forall (messages_in_thread : list value) (system_content : string)
         (channel thread_ts team_id user_id : value),
    let this_run := call_bedrock_stream messages_in_thread system_content
                      channel thread_ts team_id user_id in
    (filter sink_or_pull (fst this_run) = []
     /\ exists e, snd this_run = Raise e
        /\ (map_outcome formatted_msg messages_in_thread = Raise e
            \/ exists messages,
                 map_outcome formatted_msg messages_in_thread
                 = Return messages
                 /\ converse_stream messages system_content = Raise e))
    \/ exists (messages : list value)
              (stream : option (list (outcome value)))
              (evs : list value) (rest : list (outcome value)),
         map_outcome formatted_msg messages_in_thread = Return messages
         /\ converse_stream messages system_content = Return stream
         /\ events_of stream = map Return evs ++ rest
         /\ ((filter sink_or_pull (fst this_run)
              = ChatStreamOpen channel thread_ts team_id user_id
                :: flat_map pull_and_append evs
              /\ exists e, snd this_run = Raise e)
             \/ (rest = []
                 /\ filter sink_or_pull (fst this_run)
                    = ChatStreamOpen channel thread_ts team_id user_id
                      :: flat_map pull_and_append evs ++ [StreamerStop]
                 /\ snd this_run = after_stop)).
Proof.
  intros msgs sys ch ts team user this_run. subst this_run.
  unfold call_bedrock_stream.
  destruct (map_outcome formatted_msg msgs) as [messages|e] eqn:Hfmt;
    [|left; cbn; eauto].
  rewrite rbind_lift_return, rbind_fst, rbind_snd. cbn [emit fst snd app].
  destruct (converse_stream messages sys) as [stream|e] eqn:Hup;
    [|left; cbn; eauto 8].
  right. exists messages, stream.
  rewrite rbind_lift_return, rbind_fst, rbind_snd. cbn [emit fst snd app].
  destruct (chat_stream ch ts team user) as [[]|e];
    [|exists [], (events_of stream); cbn; eauto 8].
  rewrite rbind_lift_return, rbind_fst, rbind_snd.
  destruct (loop_trace stream) as (evs & rest & E & Et & Eo).
  exists evs, rest. repeat split; try assumption.
  name_loop evs Et.
  change (match snd loop with Return _ => rest = [] | Raise _ => True end)
    in Eo.
  cbn [filter sink_or_pull]. rewrite filter_app, Et.
  destruct (snd loop) as [[]|x].
  - right. subst rest. unfold after_stop.
    repeat split; destruct streamer_stop as [[]|x]; reflexivity.
  - left. rewrite app_nil_r. eauto.
Qed.

(** A run that fails leaves the sink as it is: unless the stop is what
    raised, no stop is sent after a failure, so a live update that was
    opened stays open. *)
Theorem failure_leaves_the_sink_open `{Services} :
  forall (messages_in_thread : list value) (system_content : string)
         (channel thread_ts team_id user_id : value)
         (t : list effect) (e : exn),
    call_bedrock_stream messages_in_thread system_content
      channel thread_ts team_id user_id = (t, Raise e) ->
    streamer_stop = Return tt ->
    ~ In StreamerStop t.
Proof.
  intros msgs sys ch ts team user t e Hrun Hstop Hin.
  assert (Hseen : In StreamerStop (filter sink_or_pull t))
    by (apply filter_In; auto).
  assert (Ht : fst (call_bedrock_stream msgs sys ch ts team user) = t)
    by (rewrite Hrun; reflexivity).
  assert (Ho : snd (call_bedrock_stream msgs sys ch ts team user) = Raise e)
    by (rewrite Hrun; reflexivity).
  clear Hrun Hin. subst t. revert Ho Hseen. unfold call_bedrock_stream.
  destruct (map_outcome formatted_msg msgs) as [messages|x];
    [|intros _ []].
  rewrite rbind_lift_return, rbind_fst, rbind_snd. cbn [emit fst snd app].
  destruct (converse_stream messages sys) as [stream|x];
    [|intros _ []].
  rewrite rbind_lift_return, rbind_fst, rbind_snd. cbn [emit fst snd app].
  destruct (chat_stream ch ts team user) as [[]|x];
    [|intros _ [[=]|[]]].
  rewrite rbind_lift_return, rbind_fst, rbind_snd.
  destruct (loop_trace stream) as (evs & _ & _ & Et & _).
  name_loop evs Et.
  cbn [filter sink_or_pull]. rewrite filter_app, Et.
  destruct (snd loop) as [[]|x].
  - rewrite Hstop. cbn. discriminate.
  - intros _ [[=]|Hseen]. rewrite app_nil_r in Hseen.
    apply in_flat_map in Hseen as (ev & _ & Hev).
    unfold pull_and_append in Hev.
    destruct Hev as [[=]|Hev].
    destruct (content_delta ev);
      [destruct Hev as [[=]|[]] | destruct Hev].
Qed.

(** The stream that breaks after its first delta: the first delta
    reached the sink, and the sink was left open. *)
Lemma failure_leaves_the_sink_open_witness :
  ~ In StreamerStop
      (fst (@call_bedrock_stream broken_stream hi DEFAULT_SYSTEM_CONTENT
              (VStr "D1") (VStr "17.01") (VStr "T1") (VStr "U1"))).
Proof.
  apply (@failure_leaves_the_sink_open broken_stream hi
           DEFAULT_SYSTEM_CONTENT
           (VStr "D1") (VStr "17.01") (VStr "T1") (VStr "U1")
           _ (OtherError "EventStreamError")).
  - reflexivity.
  - reflexivity.
Defined.

End StreamExtra.

(* ===================================================================== *)
(** * More about [process_message_lazily] *)
(* ===================================================================== *)

Module AssistantExtra.
Import LlmCaller Assistant Concrete AssistantFacts StreamExtra.
Local Open Scope run_scope.

(** ** What a run is made of *)

Lemma only_rbind {A B : Type} (p : effect -> bool) (m : run A)
    (k : A -> run B) :
  forallb p (fst m) = true ->
  (forall a, forallb p (fst (k a)) = true) ->
  forallb p (fst (rbind m k)) = true.
Proof.
  intros Hm Hk. rewrite rbind_fst, forallb_app, Hm.
  destruct (snd m); [apply Hk|reflexivity].
Qed.

Lemma only_weaken (p q : effect -> bool) (t : list effect) :
  (forall e, p e = true -> q e = true) ->
  forallb p t = true -> forallb q t = true.
Proof.
  intros Hpq Ht. rewrite forallb_forall in *. auto.
Qed.

Lemma filter_none (p q : effect -> bool) (t : list effect) :
  (forall e, p e = true -> q e = false) ->
  forallb p t = true -> filter q t = [].
Proof.
  intros Hpq. induction t as [|e t IH]; [reflexivity|].
  cbn. intros Ht. apply andb_prop in Ht as [He Ht].
  rewrite (Hpq e He). apply IH, Ht.
Qed.

(** Takes a run apart, step by step. *)
Ltac frame :=
  repeat first
    [ reflexivity
    | apply only_rbind; [|intros ?]
    | match goal with
      | |- context [if ?b then _ else _] => destruct b
      end ].

Lemma on_event_frame `{Services} (pulled : outcome value) :
  forallb stream_effect (fst (on_event pulled)) = true.
Proof.
  unfold on_event, on_content_delta, on_message_stop, on_metadata. frame.
Qed.

Lemma for_each_frame `{Services} (events : list (outcome value)) :
  forallb stream_effect (fst (for_each events on_event)) = true.
Proof.
  induction events as [|p events IH]; [reflexivity|].
  cbn [for_each]. apply only_rbind; [apply on_event_frame|intros _; exact IH].
Qed.

(** [call_bedrock_stream] does nothing but talk to the model and to the
    sink. *)
Lemma call_bedrock_stream_frame `{Services}
    (messages_in_thread : list value) (system_content : string)
    (channel thread_ts team_id user_id : value) :
  forallb stream_effect
    (fst (call_bedrock_stream messages_in_thread system_content
            channel thread_ts team_id user_id)) = true.
Proof.
  unfold call_bedrock_stream.
  repeat (apply only_rbind; [try reflexivity|intros ?]); try reflexivity.
  match goal with
  | |- context [match ?st with Some _ => _ | None => _ end] =>
      destruct st; [apply for_each_frame|reflexivity]
  end.
Qed.

(** Takes a listener's run apart, down to the call of the model. *)
Ltac listener_frame :=
  repeat first
    [ reflexivity
    | match goal with
      | |- forallb _ (fst (call_bedrock_stream _ _ _ _ _ _)) = true =>
          eapply only_weaken; [|apply call_bedrock_stream_frame];
          let e := fresh "e" in
          intros e ?; destruct e; first [reflexivity|discriminate]
      end
    | apply only_rbind; [|intros ?] ].

(** ** Where the listener goes *)

Lemma try_except_fst {A : Type} (m : run A) (h : exn -> run A) :
  fst (try_except m h)
  = fst m ++ match snd m with
             | Return _ => []
             | Raise e => fst (h e)
             end.
Proof.
  destruct m as [t [a|e]]; cbn.
  - symmetry. apply app_nil_r.
  - destruct (h e). reflexivity.
Qed.

Lemma try_except_snd {A : Type} (m : run A) (h : exn -> run A) :
  snd (try_except m h)
  = match snd m with
    | Return a => Return a
    | Raise e => snd (h e)
    end.
Proof. destruct m as [t [a|e]]; cbn; [|destruct (h e)]; reflexivity. Qed.

(** The listener on a message whose text is a string. *)
Lemma process_text `{Services} (payload : dict) (context : bolt_context)
    (s : string) :
  dict_lookup "text" payload = Some (VStr s) ->
  process_message_lazily payload context
  = if String.eqb s summary_request
    then summarize_channel context (dict_get payload "user" VNone)
    else if String.eqb s ""
    then ret tt
    else try_except (reply_in_thread context (dict_get payload "user" VNone))
           (fun _ => emit (Say apology) ;;; lift (say apology)).
Proof.
  intros Htext. unfold process_message_lazily. cbn [getitem].
  rewrite Htext, rbind_lift_return.
  unfold message_preview. cbn [truthy eq_str].
  destruct (String.eqb s ""); cbn [negb]; rewrite rbind_lift_return;
    reflexivity.
Qed.

(** ** Messages without text *)

(** A message whose text is empty, or [None], or any other value that
    counts as false, is passed over: nothing is fetched, nothing is sent
    to the model, nothing is said. *)
Theorem empty_text_is_passed_over `{Services} :
  forall (payload : dict) (context : bolt_context) (text : value),
    dict_lookup "text" payload = Some text ->
    truthy text = false ->
    process_message_lazily payload context = ([], Return tt).
Proof.
  intros payload context text Htext Hfalse.
  unfold process_message_lazily. cbn [getitem].
  rewrite Htext, rbind_lift_return.
  unfold message_preview. rewrite Hfalse, rbind_lift_return. cbn [negb].
  destruct text; cbn [eq_str]; try reflexivity.
  cbn in Hfalse. apply negb_false_iff, String.eqb_eq in Hfalse. subst s.
  reflexivity.
Qed.

Lemma empty_text_is_passed_over_witness :
  process_message_lazily [("text", VStr ""); ("user", VStr "U1")]
    assistant_context = ([], Return tt).
Proof.
  apply (empty_text_is_passed_over
           [("text", VStr ""); ("user", VStr "U1")] assistant_context
           (VStr "")); reflexivity.
Defined.

(** ** The default path *)

Lemma reply_in_thread_frame `{Services} (context : bolt_context)
    (user_id : value) :
  forallb (fun e => negb (is_say e))
    (fst (reply_in_thread context user_id)) = true.
Proof.
  unfold reply_in_thread. listener_frame.
Qed.

(** On the default path every failure of the thread fetch, of the turns,
    of the status or of the model call ends in the apology, said once,
    and in nothing else being said; the listener then ends as the saying
    of the apology ends.  Without a failure nothing is said and the
    listener returns. *)
Theorem failure_is_apologised `{Services} :
  forall (payload : dict) (context : bolt_context) (user_message : string),
    dict_lookup "text" payload = Some (VStr user_message) ->
    user_message <> "" ->
    user_message <> summary_request ->
    let this_run := process_message_lazily payload context in
    match snd (reply_in_thread context (dict_get payload "user" VNone)) with
    | Return _ =>
        snd this_run = Return tt /\ filter is_say (fst this_run) = []
    | Raise _ =>
        snd this_run = say apology
        /\ filter is_say (fst this_run) = [Say apology]
    end.
Proof.
  intros payload context s Htext Hne Hnot this_run. subst this_run.
  rewrite (process_text _ _ _ Htext).
  apply String.eqb_neq in Hne, Hnot. rewrite Hne, Hnot.
  rewrite try_except_fst, try_except_snd, filter_app.
  rewrite (filter_none (fun e => negb (is_say e)) is_say)
    by (try apply reply_in_thread_frame;
        intros e He; apply negb_true_iff, He).
  destruct (snd (reply_in_thread context (dict_get payload "user" VNone)))
    as [[]|e]; split; reflexivity.
Qed.

(** With the model's stream breaking, the apology is said. *)
Lemma failure_is_apologised_witness :
  snd (@process_message_lazily broken_stream
         [("text", VStr "thanks"); ("user", VStr "U1")] assistant_context)
  = Return tt
  /\ filter is_say
       (fst (@process_message_lazily broken_stream
               [("text", VStr "thanks"); ("user", VStr "U1")]
               assistant_context))
     = [Say apology].
Proof.
  apply (@failure_is_apologised broken_stream
           [("text", VStr "thanks"); ("user", VStr "U1")]
           assistant_context "thanks").
  - reflexivity.
  - discriminate.
  - discriminate.
Defined.

(** ** The summary of a channel *)

Lemma summarize_channel_frame `{Services} (context : bolt_context)
    (user_id : value) :
  forallb (fun e => negb (is_say e))
    (fst (summarize_channel context user_id)) = true.
Proof.
  unfold summarize_channel, fetch_channel_history.
  repeat first
    [ reflexivity
    | match goal with
      | |- context [match conversations_history ?n ?c ?l with _ => _ end] =>
          destruct (conversations_history n c l) as [?|[]]
      | |- context [if ?b then _ else _] => destruct b
      end
    | progress listener_frame ].
Qed.

(** On the summary branch nothing is ever said, the apology no more than
    anything else: what fails there is left to the caller. *)
Theorem summary_branch_never_says `{Services} :
  forall (payload : dict) (context : bolt_context),
    dict_lookup "text" payload = Some (VStr summary_request) ->
    filter is_say (fst (process_message_lazily payload context)) = [].
Proof.
  intros payload context Htext.
  rewrite (process_text _ _ _ Htext), String.eqb_refl.
  apply (filter_none (fun e => negb (is_say e)));
    [intros e He; apply negb_true_iff, He|].
  apply summarize_channel_frame.
Qed.

Lemma summary_branch_never_says_witness :
  filter is_say
    (fst (@process_message_lazily outside_channel
            [("text", VStr summary_request); ("user", VStr "U1")]
            assistant_context)) = [].
Proof.
  apply (@summary_branch_never_says outside_channel
           [("text", VStr summary_request); ("user", VStr "U1")]
           assistant_context).
  reflexivity.
Defined.

(** What [fetch_channel_history] asks of the channel, and how it ends
    when the history is refused for another reason than membership. *)
Lemma fetch_channel_history_trace `{Services} (referred : value) :
  fst (fetch_channel_history referred)
  = ConversationsHistory referred 50
    :: (if not_in_channel (conversations_history 0 referred 50)
        then ConversationsJoin referred
             :: match conversations_join referred with
                | Return _ => [ConversationsHistory referred 50]
                | Raise _ => []
                end
        else [])
  /\ (not_in_channel (conversations_history 0 referred 50) = false ->
      forall e, conversations_history 0 referred 50 = Raise e ->
                snd (fetch_channel_history referred) = Raise e).
Proof.
  unfold fetch_channel_history.
  rewrite rbind_fst, rbind_snd. cbn [emit fst snd app].
  destruct (conversations_history 0 referred 50) as [h|x] eqn:Hfirst.
  - split; [reflexivity|discriminate].
  - destruct x; cbn [not_in_channel];
      try (split; [reflexivity|intros _ e [= <-]; reflexivity]).
    destruct (String.eqb error "not_in_channel").
    + split; [|discriminate].
      rewrite rbind_emit, rbind_fst. cbn [lift fst snd app].
      destruct (conversations_join referred) as [[]|x]; reflexivity.
    + split; [reflexivity|intros _ e [= <-]; reflexivity].
Qed.

Lemma after_fetch_frame `{Services} (context : bolt_context)
    (user_id referred : value) (channel_history : dict) :
  forallb (fun e => negb (is_fetch e))
    (fst (messages <~ lift (py_reversed
                             (dict_get channel_history "messages" VNone)) ;;
          lines <~ lift (map_outcome summary_line messages) ;;
          emit (SetStatus "is thinking...") ;;;
          lift (set_status "is thinking...") ;;;
          call_bedrock_stream
            [VDict [("role", VStr "user");
                    ("content",
                     VStr (summary_header referred
                           ++ String.concat "" lines))]]
            DEFAULT_SYSTEM_CONTENT
            (channel_id context) (thread_ts context) (team_id context)
            user_id ;;;
          ret tt)) = true.
Proof. listener_frame. Qed.

(** For a summary the bot asks for the history of the referred channel
    once; when the answer is that it is not in the channel, and only
    then, it joins, once, and asks once more; whatever the second answer,
    there is no third.  Any other refusal of the history is raised as it
    came. *)
Theorem channel_is_joined_at_most_once `{Services} :
  forall (payload : dict) (context : bolt_context)
         (thread_context referred : value),
    dict_lookup "text" payload = Some (VStr summary_request) ->
    get_thread_context = Return thread_context ->
    get thread_context "channel_id" VNone = Return referred ->
    let this_run := process_message_lazily payload context in
    filter is_fetch (fst this_run)
    = ConversationsHistory referred 50
      :: (if not_in_channel (conversations_history 0 referred 50)
          then ConversationsJoin referred
               :: match conversations_join referred with
                  | Return _ => [ConversationsHistory referred 50]
                  | Raise _ => []
                  end
          else [])
    /\ (not_in_channel (conversations_history 0 referred 50) = false ->
        forall e, conversations_history 0 referred 50 = Raise e ->
                  snd this_run = Raise e).
Proof.
  intros payload context tc referred Htext Hcontext Hreferred this_run.
  subst this_run.
  rewrite (process_text _ _ _ Htext), String.eqb_refl.
  unfold summarize_channel.
  rewrite rbind_fst, rbind_snd. cbn [emit fst snd app].
  rewrite Hcontext, rbind_lift_return, Hreferred, rbind_lift_return.
  rewrite rbind_fst, rbind_snd.
  destruct (fetch_channel_history_trace referred) as [Etrace Eraise].
  cbn [filter is_fetch]. rewrite filter_app. split.
  - assert (Hfetch : filter is_fetch (fst (fetch_channel_history referred))
                     = fst (fetch_channel_history referred)).
    { rewrite Etrace.
      destruct (not_in_channel (conversations_history 0 referred 50)),
               (conversations_join referred); reflexivity. }
    rewrite Hfetch, Etrace.
    rewrite <- app_nil_r. f_equal.
    destruct (snd (fetch_channel_history referred)) as [h|x];
      [|reflexivity].
    apply (filter_none (fun e => negb (is_fetch e)));
      [intros e He; apply negb_true_iff, He|].
    apply after_fetch_frame.
  - intros Hother e Hfirst. rewrite (Eraise Hother e Hfirst). reflexivity.
Qed.

(** The bot is outside the channel: history, join, history. *)
Lemma channel_is_joined_at_most_once_witness :
  filter is_fetch
    (fst (@process_message_lazily outside_channel
            [("text", VStr summary_request); ("user", VStr "U1")]
            assistant_context))
  = [ ConversationsHistory (VStr "C9") 50;
      ConversationsJoin (VStr "C9");
      ConversationsHistory (VStr "C9") 50 ].
Proof.
  apply (@channel_is_joined_at_most_once outside_channel
           [("text", VStr summary_request); ("user", VStr "U1")]
           assistant_context (VDict [("channel_id", VStr "C9")])
           (VStr "C9")); reflexivity.
Defined.

(** One line for each message that has a user, nothing for the
    others. *)
Lemma lines_of_history `{Services} (messages : list value) :
  Forall summarisable messages ->
  exists lines : list string,
    map_outcome summary_line messages = Return lines
    /\ length lines = length messages
    /\ (forall (i : nat) (d : dict),
          nth_error messages i = Some (VDict d) ->
          nth_error lines i =
          Some (if is_none (dict_get d "user" VNone) then ""
                else (nl ++ "<@" ++ py_str (dict_get d "user" VNone)
                      ++ "> says: " ++ py_str (dict_get d "text" VNone)
                      ++ nl)%string)).
Proof.
  induction 1 as [|m messages (d & -> & Htext) _ (lines & Hlines & Hlen & Hnth)].
  - exists []. repeat split. intros [|i] d; discriminate.
  - assert (Hline : summary_line (VDict d)
                    = Return (if is_none (dict_get d "user" VNone) then ""
                              else (nl ++ "<@"
                                    ++ py_str (dict_get d "user" VNone)
                                    ++ "> says: "
                                    ++ py_str (dict_get d "text" VNone)
                                    ++ nl)%string)).
    { unfold summary_line. cbn [get bind].
      destruct (is_none (dict_get d "user" VNone)) eqn:Huser;
        [reflexivity|].
      cbn [negb getitem]. destruct (Htext eq_refl) as (text & Hlookup).
      unfold dict_get in Huser |- *. rewrite Hlookup.
      destruct (dict_lookup "user" d); [reflexivity|discriminate]. }
    eexists (_ :: lines). cbn [map_outcome]. rewrite Hline, Hlines.
    repeat split.
    + cbn. rewrite Hlen. reflexivity.
    + intros [|i] d' Hi; cbn in Hi |- *.
      * injection Hi as <-. reflexivity.
      * apply Hnth, Hi.
Qed.

(** The prompt of a summary: the header that names the channel, then the
    messages of the history taken from its last to its first, each one
    that has a user as a line of its own with the user and the text, the
    others left out; and this prompt goes to the model as one turn of
    the user, after the status was set. *)
Theorem summary_prompt_reverses_the_history `{Services} :
  forall (payload : dict) (context : bolt_context)
         (thread_context referred : value) (channel_history : dict)
         (messages : list value),
    dict_lookup "text" payload = Some (VStr summary_request) ->
    get_thread_context = Return thread_context ->
    get thread_context "channel_id" VNone = Return referred ->
    conversations_history 0 referred 50 = Return channel_history ->
    dict_lookup "messages" channel_history = Some (VList messages) ->
    Forall summarisable messages ->
    set_status "is thinking..." = Return tt ->
    exists (lines : list string) (rest : list effect),
      fst (process_message_lazily payload context)
      = GetThreadContext
        :: ConversationsHistory referred 50
        :: SetStatus "is thinking..."
        :: ConverseStream
             [VDict [ ("role", VStr "user");
                      ("content",
                       VList [VDict [("text",
                                      VStr (summary_header referred
                                            ++ String.concat "" lines))]]) ]]
             DEFAULT_SYSTEM_CONTENT
        :: rest
      /\ length lines = length messages
      /\ (forall (i : nat) (d : dict),
            nth_error (rev messages) i = Some (VDict d) ->
            nth_error lines i =
            Some (if is_none (dict_get d "user" VNone) then ""
                  else (nl ++ "<@" ++ py_str (dict_get d "user" VNone)
                        ++ "> says: " ++ py_str (dict_get d "text" VNone)
                        ++ nl)%string)).
Proof.
  intros payload context tc referred h ms
         Htext Hcontext Hreferred Hhistory Hmessages Hwf Hstatus.
  destruct (lines_of_history (rev ms))
    as (lines & Hlines & Hlen & Hnth); [apply Forall_rev, Hwf|].
  rewrite length_rev in Hlen.
  destruct (call_bedrock_stream_starts
              [VDict [("role", VStr "user");
                      ("content",
                       VStr (summary_header referred
                             ++ String.concat "" lines))]]
              [VDict [ ("role", VStr "user");
                       ("content",
                        VList [VDict [("text",
                                       VStr (summary_header referred
                                             ++ String.concat "" lines))]]) ]]
              DEFAULT_SYSTEM_CONTENT (channel_id context)
              (thread_ts context) (team_id context)
              (dict_get payload "user" VNone) eq_refl) as (rest & Hcall).
  destruct (fst_rbind_cons _ (fun _ => ret tt) _ _ Hcall) as (rest' & Hrest).
  exists lines, rest'. repeat split; try assumption.
  rewrite (process_text _ _ _ Htext), String.eqb_refl.
  unfold summarize_channel.
  rewrite rbind_fst. cbn [emit fst snd app].
  rewrite Hcontext, rbind_lift_return, Hreferred, rbind_lift_return.
  unfold fetch_channel_history.
  rewrite Hhistory.
  change (emit (ConversationsHistory referred 50) ;;; ret h)
    with (([ConversationsHistory referred 50], Return h) : run dict).
  rewrite rbind_fst. cbn [fst snd app].
  unfold dict_get at 1. rewrite Hmessages.
  cbn [py_reversed iterate bind].
  rewrite rbind_lift_return, Hlines, rbind_lift_return.
  rewrite rbind_fst. cbn [emit fst snd app].
  rewrite Hstatus, rbind_lift_return.
  do 3 f_equal. exact Hrest.
Qed.

(** The history of the concrete services, newest first; the prompt has
    it oldest first, and the bot's own message, which has no user, is
    left out. *)
Lemma summary_prompt_reverses_the_history_witness :
  exists (lines : list string) (rest : list effect),
    fst (process_message_lazily
           [("text", VStr summary_request); ("user", VStr "U1")]
           assistant_context)
    = GetThreadContext
      :: ConversationsHistory (VStr "C9") 50
      :: SetStatus "is thinking..."
      :: ConverseStream
           [VDict [ ("role", VStr "user");
                    ("content",
                     VList [VDict [("text",
                                    VStr (summary_header (VStr "C9")
                                          ++ String.concat "" lines))]]) ]]
           DEFAULT_SYSTEM_CONTENT
      :: rest
    /\ length lines = length (rev thread)
    /\ (forall (i : nat) (d : dict),
          nth_error (rev (rev thread)) i = Some (VDict d) ->
          nth_error lines i =
          Some (if is_none (dict_get d "user" VNone) then ""
                else (nl ++ "<@" ++ py_str (dict_get d "user" VNone)
                      ++ "> says: " ++ py_str (dict_get d "text" VNone)
                      ++ nl)%string)).
Proof.
  apply (summary_prompt_reverses_the_history
           [("text", VStr summary_request); ("user", VStr "U1")]
           assistant_context (VDict [("channel_id", VStr "C9")])
           (VStr "C9")
           [("ok", VBool true); ("messages", VList (rev thread))]
           (rev thread)); try reflexivity.
  repeat constructor; eexists; (split; [reflexivity|]);
    intros _; eexists; reflexivity.
Defined.

End AssistantExtra.

(* ===================================================================== *)
(** * [start_assistant_thread] *)
(* ===================================================================== *)

Module ThreadStartExtra.
Import LlmCaller Assistant Concrete AssistantFacts AssistantExtra.

Lemma sbind_fst {A B : Type} (m : start_run A) (k : A -> start_run B) :
  fst (sbind m k)
  = fst m ++ match snd m with
             | Return a => fst (k a)
             | Raise _ => []
             end.
Proof.
  destruct m as [t [a|e]]; cbn.
  - destruct (k a). reflexivity.
  - symmetry. apply app_nil_r.
Qed.

Lemma sbind_snd {A B : Type} (m : start_run A) (k : A -> start_run B) :
  snd (sbind m k)
  = match snd m with
    | Return a => snd (k a)
    | Raise e => Raise e
    end.
Proof. destruct m as [t [a|e]]; cbn; [destruct (k a)|]; reflexivity. Qed.

(** The [try] block: the greeting comes first; the prompts are set at
    most once, as the last thing; and when they are, the thread context
    was read, and the one prompt there can be is there exactly when the
    context is not [None] and has a channel that is not [None]. *)
Lemma greet_and_suggest_trace `{Services} `{ThreadStarted} :
  exists middle : list start_effect,
    (fst greet_and_suggest = Did (Say greeting) :: middle
     /\ filter said middle = []
     /\ forall prompts, ~ In (SetSuggestedPrompts prompts) middle)
    \/ exists (thread_context : value) (offer : bool),
         fst greet_and_suggest
         = [ Did (Say greeting); Did GetThreadContext;
             SetSuggestedPrompts
               (if offer then [summarize_channel_prompt] else []) ]
         /\ snd greet_and_suggest
            = set_suggested_prompts
                (if offer then [summarize_channel_prompt] else [])
         /\ get_thread_context = Return thread_context
         /\ (if offer
             then is_none thread_context = false
                  /\ exists c, attr_channel_id thread_context = Return c
                               /\ is_none c = false
             else is_none thread_context = true
                  \/ attr_channel_id thread_context = Return VNone).
Proof.
  unfold greet_and_suggest.
  rewrite sbind_fst, sbind_snd. cbn [call fst snd app].
  destruct (say greeting) as [[]|e];
    [|exists []; left; repeat split; intros prompts []].
  rewrite sbind_fst, sbind_snd. cbn [call fst snd app].
  destruct get_thread_context as [tc|e];
    [|exists [Did GetThreadContext]; left; repeat split;
      intros prompts [[=]|[]]].
  rewrite sbind_fst, sbind_snd. cbn [pure fst snd app].
  destruct (if truthy tc then has_channel tc else Return false) as [logged|e];
    [|exists [Did GetThreadContext]; left; repeat split;
      intros prompts [[=]|[]]].
  rewrite sbind_fst, sbind_snd. cbn [pure fst snd app].
  destruct (is_none tc) eqn:Hnone; cbn [negb].
  - exists []. right. exists tc, false. cbn [call fst snd]. auto.
  - unfold has_channel.
    destruct (attr_channel_id tc) as [c|e] eqn:Hattr; cbn [bind];
      [|exists [Did GetThreadContext]; left; repeat split;
        intros prompts [[=]|[]]].
    exists []. right. exists tc, (negb (is_none c)). cbn [call fst snd].
    repeat split; try assumption.
    destruct (is_none c) eqn:Hc; cbn [negb].
    + right. destruct c; try discriminate. exact Hattr.
    + split; [assumption|]. exists c. auto.
Qed.

(** The message of the suggested prompt is the request for a summary. *)
Lemma prompt_message :
  getitem summarize_channel_prompt "message" = Return (VStr summary_request).
Proof. reflexivity. Qed.

(** Whatever prompts the listener sets, each of them, sent back as the
    text of a message, takes the other listener to the summary of the
    channel: it begins by reading the thread context.  And a prompt is
    set only when the thread context that was read is not [None] and has
    a channel that is not [None], which is the channel the summary will
    be about. *)
Theorem suggested_prompt_asks_for_the_summary `{Services} `{ThreadStarted} :
  forall (prompts : list value) (prompt : value),
    In (SetSuggestedPrompts prompts) (fst start_assistant_thread) ->
    In prompt prompts ->
    (exists thread_context c,
        get_thread_context = Return thread_context
        /\ is_none thread_context = false
        /\ attr_channel_id thread_context = Return c
        /\ is_none c = false)
    /\ exists message : string,
         getitem prompt "message" = Return (VStr message)
         /\ forall (payload : dict) (context : bolt_context),
              dict_lookup "text" payload = Some (VStr message) ->
              exists rest,
                fst (process_message_lazily payload context)
                = GetThreadContext :: rest.
Proof.
  intros prompts prompt Hset Hprompt.
  assert (Hin : In (SetSuggestedPrompts prompts) (fst greet_and_suggest)).
  { unfold start_assistant_thread in Hset.
    destruct greet_and_suggest as [t [[]|e]]; cbn [fst] in *; [exact Hset|].
    apply in_app_or in Hset as [Hset|[[=]|[]]]. exact Hset. }
  destruct greet_and_suggest_trace
    as (middle & [(Et & _ & Hnot) | (tc & offer & Et & _ & Htc & Hoffer)]);
    rewrite Et in Hin.
  - destruct Hin as [[=]|Hin]. destruct (Hnot _ Hin).
  - destruct Hin as [[=]|[[=]|[[= <-]|[]]]].
    destruct offer; [|destruct Hprompt].
    destruct Hprompt as [<-|[]].
    destruct Hoffer as (Hnone & c & Hc & Hcnone).
    split; [exists tc, c; auto|].
    exists summary_request. split; [exact prompt_message|].
    intros payload context Htext.
    rewrite (process_text _ _ _ Htext), String.eqb_refl.
    unfold summarize_channel. rewrite rbind_emit. eauto.
Qed.

Lemma suggested_prompt_asks_for_the_summary_witness :
  (exists thread_context c,
      @get_thread_context services = Return thread_context
      /\ is_none thread_context = false
      /\ @attr_channel_id thread_started thread_context = Return c
      /\ is_none c = false)
  /\ exists message : string,
       getitem summarize_channel_prompt "message" = Return (VStr message)
       /\ forall (payload : dict) (context : bolt_context),
            dict_lookup "text" payload = Some (VStr message) ->
            exists rest,
              fst (@process_message_lazily services payload context)
              = GetThreadContext :: rest.
Proof.
  apply (@suggested_prompt_asks_for_the_summary services thread_started
           [summarize_channel_prompt] summarize_channel_prompt).
  - cbn. auto.
  - cbn. auto.
Defined.

(** How the [try] block ends, and why: it says the greeting and nothing
    else; when it raises, the exception is that of the first call that
    failed, which is the greeting, the read of the thread context, the
    read of its channel, or the setting of the prompts; when it returns,
    each of these calls returned and the prompts were set. *)
Lemma greet_and_suggest_ends `{Services} `{ThreadStarted} :
  filter said (fst greet_and_suggest) = [Did (Say greeting)]
  /\ match snd greet_and_suggest with
     | Return _ =>
         say greeting = Return tt
         /\ exists (thread_context : value) (prompts : list value),
              get_thread_context = Return thread_context
              /\ In (SetSuggestedPrompts prompts) (fst greet_and_suggest)
              /\ set_suggested_prompts prompts = Return tt
     | Raise e =>
         say greeting = Raise e
         \/ (say greeting = Return tt /\ get_thread_context = Raise e)
         \/ (say greeting = Return tt
             /\ exists thread_context : value,
                  get_thread_context = Return thread_context
                  /\ attr_channel_id thread_context = Raise e)
         \/ (say greeting = Return tt
             /\ exists prompts : list value,
                  In (SetSuggestedPrompts prompts) (fst greet_and_suggest)
                  /\ set_suggested_prompts prompts = Raise e)
     end.
Proof.
  unfold greet_and_suggest.
  rewrite sbind_fst, sbind_snd. cbn [call fst snd app].
  destruct (say greeting) as [[]|e]; [|split; [reflexivity|auto]].
  rewrite sbind_fst, sbind_snd. cbn [call fst snd app].
  destruct get_thread_context as [tc|e]; [|split; [reflexivity|auto]].
  rewrite sbind_fst, sbind_snd. cbn [pure fst snd app].
  assert (Hattr : forall (b : bool) (e : exn),
             (if b then has_channel tc else Return false) = Raise e ->
             attr_channel_id tc = Raise e).
  { intros b e. destruct b; [|discriminate]. unfold has_channel.
    destruct (attr_channel_id tc); cbn; [discriminate|congruence]. }
  destruct (if truthy tc then has_channel tc else Return false)
    as [logged|e] eqn:Hlogged;
    [|split; [reflexivity|]; right; right; left; eauto].
  rewrite sbind_fst, sbind_snd. cbn [pure fst snd app].
  destruct (if negb (is_none tc) then has_channel tc else Return false)
    as [offer|e] eqn:Hoffer;
    [|split; [reflexivity|]; right; right; left; eauto].
  cbn [call fst snd]. split; [reflexivity|].
  destruct (set_suggested_prompts
              (if offer then [summarize_channel_prompt] else []))
    as [[]|e] eqn:Hset.
  - split; [reflexivity|]. eexists tc, _. repeat split; [|exact Hset].
    right. right. left. reflexivity.
  - right. right. right. split; [reflexivity|].
    eexists. split; [|exact Hset]. right. right. left. reflexivity.
Qed.

(** The listener always begins with the greeting.  When nothing in the
    [try] block raises (the greeting was said, the thread context read,
    the prompts set), that is all it says, and it returns.  When
    something raises, where the exception is that of the first call that
    failed (the greeting, the read of the thread context, the read of
    its channel, or the setting of the prompts), the warning that
    carries this exception is said, once, as the last thing the listener
    does after what the [try] block did, and the listener ends as the
    saying of the warning ends: it raises only when the warning itself
    cannot be said. *)
Theorem thread_start_failures_are_warned `{Services} `{ThreadStarted} :
  match snd greet_and_suggest with
  | Return _ =>
      start_assistant_thread = (fst greet_and_suggest, Return tt)
      /\ filter said (fst start_assistant_thread) = [Did (Say greeting)]
      /\ say greeting = Return tt
      /\ exists (thread_context : value) (prompts : list value),
           get_thread_context = Return thread_context
           /\ In (SetSuggestedPrompts prompts) (fst start_assistant_thread)
           /\ set_suggested_prompts prompts = Return tt
  | Raise e =>
      start_assistant_thread
      = (fst greet_and_suggest ++ [Did (Say (warning e))], say (warning e))
      /\ filter said (fst start_assistant_thread)
         = [Did (Say greeting); Did (Say (warning e))]
      /\ (say greeting = Raise e
          \/ (say greeting = Return tt /\ get_thread_context = Raise e)
          \/ (say greeting = Return tt
              /\ exists thread_context : value,
                   get_thread_context = Return thread_context
                   /\ attr_channel_id thread_context = Raise e)
          \/ (say greeting = Return tt
              /\ exists prompts : list value,
                   In (SetSuggestedPrompts prompts) (fst greet_and_suggest)
                   /\ set_suggested_prompts prompts = Raise e))
  end.
Proof.
  destruct greet_and_suggest_ends as [Hsaid Hend].
  unfold start_assistant_thread.
  destruct greet_and_suggest as [t [[]|e]]; cbn [fst snd] in *.
  - repeat split; try assumption; apply Hend.
  - repeat split; [|exact Hend].
    rewrite filter_app, Hsaid. reflexivity.
Qed.

(** With the concrete services nothing fails: the greeting, the read of
    the thread context, and the one prompt. *)
Example thread_start_with_a_channel :
  @start_assistant_thread services thread_started
  = ([ Did (Say greeting); Did GetThreadContext;
       SetSuggestedPrompts [summarize_channel_prompt] ],
     Return tt).
Proof. reflexivity. Qed.

(** With services that cannot read the thread context, the warning is
    said after the failed read. *)
Example thread_start_without_context :
  @start_assistant_thread no_thread_context thread_started
  = ([ Did (Say greeting); Did GetThreadContext;
       Did (Say ":warning: Something went wrong! (error)") ],
     Return tt).
Proof. reflexivity. Qed.

End ThreadStartExtra.
